(** * Verification of the EmotionAnalyser script and the Regression Maker wizard

    The development embeds the Python sources shallowly:
    - [EmotionAnalyser/src/load_data.py]: the two regular expressions, [clean]
      and [add_emotion];
    - [Regression Maker/src/data_preparation]: [import_data] and the
      missing-value strategies;
    - [Regression Maker/src/model_management]: [linear_regression],
      [ModelSaver.save_model], [ModelLoader.load_model];
    - [Regression Maker/src/ui/features.py]: the [DataViewer] wizard;
    - [Regression Maker/src/ui/model_window.py] and [results_window.py]: the
      two windows that predict, and [utils/helpers.py]: [layout_visibility].

    Python values keep their shape: a [str] is a list of code points, a
    [float] is a binary64 number, a [dict] is a finite map, an exception is a
    value of [exn] carried by the [result] monad, and an object that is
    mutated in place is threaded through the functions that mutate it. *)

From Stdlib Require Import ZArith NArith Lia List String Ascii.
From Stdlib Require Import PrimFloat FloatOps SpecFloat DecimalString.
From stdpp Require Import base option list gmap strings.

(** ** Python exceptions and the result monad *)

Inductive exn_class :=
| FileNotFoundError
| ValueError
| KeyError
| IndexError
| TypeError
| AttributeError
| EmptyDataError
| ParserError
| OtherError (name : string).

(** An exception: its class and the text of [str(e)], as code points. *)
Record exn := Exn { exn_cls : exn_class; exn_msg : list N }.

Inductive result (A : Type) :=
| Ok (a : A)
| Raise (e : exn).
Arguments Ok {A} a.
Arguments Raise {A} e.

#[global] Instance result_ret : MRet result := fun _ a => Ok a.
#[global] Instance result_bind : MBind result := fun _ _ f m =>
  match m with
  | Ok a => f a
  | Raise e => Raise e
  end.

Definition is_ok {A} (r : result A) : bool :=
  match r with Ok _ => true | Raise _ => false end.

(** ** Python strings as code points *)

(** A Python [str] is a sequence of Unicode code points. *)
Abbreviation str := (list N).

(** The code points of an ASCII literal. *)
Fixpoint cps (s : string) : str :=
  match s with
  | EmptyString => []
  | String a s' => N_of_ascii a :: cps s'
  end.

(** [str.isspace] on one code point, which is also the class [\s] of [re] on a
    [str] pattern. *)
Definition isspace (x : N) : bool :=
  ((9 <=? x) && (x <=? 13) || (28 <=? x) && (x <=? 32)
   || (x =? 133) || (x =? 160) || (x =? 5760)
   || (8192 <=? x) && (x <=? 8202)
   || (x =? 8232) || (x =? 8233) || (x =? 8239) || (x =? 8287)
   || (x =? 12288))%N.

Fixpoint lstrip (s : str) : str :=
  match s with
  | x :: s' => if isspace x then lstrip s' else s
  | [] => []
  end.

(** [str.strip()] with no argument. *)
Definition strip (s : str) : str := rev (lstrip (rev (lstrip s))).

Fixpoint strip_prefix (l s : str) : option str :=
  match l, s with
  | [], _ => Some s
  | a :: l', b :: s' => if (a =? b)%N then strip_prefix l' s' else None
  | _ :: _, [] => None
  end.

(** ** Numbers and their text *)

(** The binary64 number nearest to an integer (ties to even), which is what
    numpy's conversion of an [int64] to [float64] gives. *)
Definition float_of_Z (z : Z) : float :=
  SF2Prim (binary_normalize prec emax z 0 false).

(** [str(n)] for a Python [int]. *)
Definition str_of_Z (z : Z) : str := cps (NilZero.string_of_int (Z.to_int z)).

(** The nearest integer to [num / den], ties to even, for [0 <= num] and
    [0 < den]. *)
Definition round_half_even (num den : Z) : Z :=
  let q := (num / den)%Z in
  let r := (num mod den)%Z in
  match (2 * r ?= den)%Z with
  | Lt => q
  | Gt => (q + 1)%Z
  | Eq => if Z.even q then q else (q + 1)%Z
  end.

Definition two_digits (n : Z) : str :=
  (if (n <? 10)%Z then cps "0" else []) ++ str_of_Z n.

(** [f"{x:.2f}"] for a float: the decimal with two places nearest to the
    exact binary value, ties to even; the sign of a negative number stays
    even when the digits are all zero. *)
Definition format_2f (f : float) : str :=
  match Prim2SF f with
  | S754_nan => cps "nan"
  | S754_infinity s => if s then cps "-inf" else cps "inf"
  | S754_zero s => if s then cps "-0.00" else cps "0.00"
  | S754_finite s m e =>
      let hundredths :=
        if (0 <=? e)%Z then (Z.pos m * 100 * 2 ^ e)%Z
        else round_half_even (Z.pos m * 100) (2 ^ (- e)) in
      (if s then cps "-" else []) ++ str_of_Z (hundredths / 100)
        ++ cps "." ++ two_digits (hundredths mod 100)
  end.

(** ** The fragment of [re] that [load_data.py] uses *)

Module Re.

Inductive cclass := Dot | Space | Digit.

(** One pattern is a sequence of items and has one capturing group. *)
Inductive item :=
| Lit (l : str)                (* a literal *)
| Star (c : cclass)            (* c*    greedy *)
| GroupLazyPlus (c : cclass)   (* (c+?) lazy, captured *)
| GroupOne (c : cclass).       (* (c)   captured *)

Definition is_group (i : item) : bool :=
  match i with
  | GroupLazyPlus _ | GroupOne _ => true
  | Lit _ | Star _ => false
  end.

Section Combinators.
Context {R : Type}.
Variable P : N -> bool.

(** Greedy star: take one more character first, give it back when the rest of
    the pattern fails. *)
Definition star_greedy (k : str -> option R) : str -> option R :=
  fix go (s : str) : option R :=
    match s with
    | x :: s' =>
        if P x then
          match go s' with
          | Some r => Some r
          | None => k s
          end
        else k s
    | [] => k []
    end.

(** Lazy plus after its first character: try the rest of the pattern first,
    take one more character when it fails. *)
Definition lazy_more (k : str -> str -> option R) : str -> str -> option R :=
  fix go (s acc : str) : option R :=
    match k acc s with
    | Some r => Some r
    | None =>
        match s with
        | x :: s' => if P x then go s' (acc ++ [x]) else None
        | [] => None
        end
    end.

Definition lazy_plus (k : str -> str -> option R) (s : str) : option R :=
  match s with
  | x :: s' => if P x then lazy_more k s' [x] else None
  | [] => None
  end.

End Combinators.

Section Matcher.

(** [unicodedata.decimal]: the value of a code point of category Nd. *)
Variable decimal : N -> option Z.

Definition in_class (c : cclass) (x : N) : bool :=
  match c with
  | Dot => negb (x =? 10)%N
  | Space => isspace x
  | Digit => match decimal x with Some _ => true | None => false end
  end.

(** The backtracking matcher anchored at the start of [s]; the result is the
    value of group 1 ([None] while the group has not taken part). *)
Fixpoint match_here (p : list item) : str -> option str -> option (option str) :=
  match p with
  | [] => fun _ cap => Some cap
  | Lit l :: p' => fun s cap =>
      match strip_prefix l s with
      | Some s' => match_here p' s' cap
      | None => None
      end
  | Star c :: p' => fun s cap =>
      star_greedy (in_class c) (fun s' => match_here p' s' cap) s
  | GroupLazyPlus c :: p' => fun s _ =>
      lazy_plus (in_class c) (fun g s' => match_here p' s' (Some g)) s
  | GroupOne c :: p' => fun s _ =>
      match s with
      | x :: s' => if in_class c x then match_here p' s' (Some [x]) else None
      | [] => None
      end
  end.

(** [re.search]: the first start position, left to right, that matches. *)
Fixpoint search (p : list item) (s : str) : option (option str) :=
  match match_here p s None with
  | Some g => Some g
  | None =>
      match s with
      | _ :: s' => search p s'
      | [] => None
      end
  end.

(** The language of a pattern: [matches p w cap cap'] when [p] matches exactly
    [w], group 1 going from [cap] to [cap']. *)
Inductive matches : list item -> str -> option str -> option str -> Prop :=
| m_nil cap : matches [] [] cap cap
| m_lit l p w cap cap' :
    matches p w cap cap' -> matches (Lit l :: p) (l ++ w) cap cap'
| m_star c p u w cap cap' :
    forallb (in_class c) u = true ->
    matches p w cap cap' -> matches (Star c :: p) (u ++ w) cap cap'
| m_lazy c p u w cap cap' :
    u <> [] -> forallb (in_class c) u = true ->
    matches p w (Some u) cap' -> matches (GroupLazyPlus c :: p) (u ++ w) cap cap'
| m_one c p x w cap cap' :
    in_class c x = true ->
    matches p w (Some [x]) cap' -> matches (GroupOne c :: p) (x :: w) cap cap'.

(** The pattern occurs somewhere in [s]. *)
Definition occurs (p : list item) (s : str) : Prop :=
  exists pre w post cap, s = pre ++ w ++ post /\ matches p w None cap.

(** *** The combinators explore every split *)

Section CombinatorFacts.
Context {R : Type}.
Variable P : N -> bool.

Lemma star_greedy_sound (k : str -> option R) s r :
  star_greedy P k s = Some r ->
  exists u w, s = u ++ w /\ forallb P u = true /\ k w = Some r.
Proof.
  induction s as [|x s IH]; simpl.
  - intros Hk. exists [], []. auto.
  - destruct (P x) eqn:HP.
    + destruct (star_greedy P k s) as [r'|] eqn:Hgo.
      * intros [= ->]. destruct (IH eq_refl) as (u & w & -> & Hu & Hw).
        exists (x :: u), w. simpl. rewrite HP, Hu. auto.
      * intros Hk. exists [], (x :: s). auto.
    + intros Hk. exists [], (x :: s). auto.
Qed.

Lemma star_greedy_here (k : str -> option R) s : is_Some (k s) -> is_Some (star_greedy P k s).
Proof.
  intros Hk. destruct s as [|x s]; simpl; [exact Hk|].
  destruct (P x); [|exact Hk].
  destruct (star_greedy P k s); [eauto | exact Hk].
Qed.

Lemma star_greedy_complete (k : str -> option R) u w :
  forallb P u = true -> is_Some (k w) -> is_Some (star_greedy P k (u ++ w)).
Proof.
  induction u as [|x u IH]; simpl; intros Hu Hk.
  - by apply star_greedy_here.
  - apply andb_prop in Hu as [HP Hu]. rewrite HP.
    destruct (IH Hu Hk) as [r Hr]. fold (star_greedy P k) in *.
    rewrite Hr. eauto.
Qed.

Lemma lazy_more_sound (k : str -> str -> option R) s : forall acc r,
  lazy_more P k s acc = Some r ->
  exists u w, s = u ++ w /\ forallb P u = true /\ k (acc ++ u) w = Some r.
Proof.
  induction s as [|x s IH]; intros acc r; simpl.
  - destruct (k acc []) eqn:Hk; [|done].
    intros [= ->]. exists [], []. by rewrite (app_nil_r acc).
  - destruct (k acc (x :: s)) eqn:Hk.
    + intros [= ->]. exists [], (x :: s). by rewrite (app_nil_r acc).
    + destruct (P x) eqn:HP; [|done].
      intros Hgo. destruct (IH _ _ Hgo) as (u & w & -> & Hu & Hw).
      exists (x :: u), w. simpl. rewrite HP, Hu.
      rewrite <- app_assoc in Hw. auto.
Qed.

Lemma lazy_more_complete (k : str -> str -> option R) u : forall acc w,
  forallb P u = true -> is_Some (k (acc ++ u) w) ->
  is_Some (lazy_more P k (u ++ w) acc).
Proof.
  induction u as [|x u IH]; intros acc w Hu Hk.
  - rewrite app_nil_r in Hk. destruct Hk as [r Hr].
    destruct w; simpl; rewrite Hr; eauto.
  - simpl in Hu. apply andb_prop in Hu as [HP Hu].
    simpl. destruct (k acc (x :: u ++ w)); [eauto|].
    rewrite HP. apply IH; [done|]. by rewrite <- app_assoc.
Qed.

Lemma lazy_plus_sound (k : str -> str -> option R) s r :
  lazy_plus P k s = Some r ->
  exists u w, s = u ++ w /\ u <> [] /\ forallb P u = true /\ k u w = Some r.
Proof.
  destruct s as [|x s]; simpl; [done|].
  destruct (P x) eqn:HP; [|done].
  intros Hgo. destruct (lazy_more_sound _ _ _ _ Hgo) as (u & w & -> & Hu & Hw).
  exists (x :: u), w. simpl. rewrite HP, Hu. auto.
Qed.

Lemma lazy_plus_complete (k : str -> str -> option R) u w :
  u <> [] -> forallb P u = true -> is_Some (k u w) ->
  is_Some (lazy_plus P k (u ++ w)).
Proof.
  destruct u as [|x u]; [done|]. intros _ Hu Hk.
  simpl in Hu. apply andb_prop in Hu as [HP Hu].
  simpl. rewrite HP. by apply lazy_more_complete.
Qed.

End CombinatorFacts.

(** *** The matcher against the language of the pattern *)

Lemma strip_prefix_Some l : forall s s',
  strip_prefix l s = Some s' <-> s = l ++ s'.
Proof.
  induction l as [|a l IH]; intros s s'; simpl.
  - destruct s; split; congruence.
  - destruct s as [|b s]; [split; discriminate|].
    destruct (N.eqb_spec a b) as [->|Hab].
    + rewrite IH. split; congruence.
    + split; [discriminate|]. intros [= -> _]. done.
Qed.

Lemma match_here_sound p : forall s cap cap',
  match_here p s cap = Some cap' ->
  exists w rest, s = w ++ rest /\ matches p w cap cap'.
Proof.
  induction p as [|i p IH]; intros s cap cap'; simpl.
  - intros [= ->]. exists [], s. split; [done|constructor].
  - destruct i as [l|c|c|c].
    + destruct (strip_prefix l s) as [s'|] eqn:Hl; [|done].
      apply strip_prefix_Some in Hl as ->.
      intros (w & rest & -> & Hm)%IH.
      exists (l ++ w), rest. rewrite <- app_assoc. split; [done|by constructor].
    + intros (u & w0 & -> & Hu & (w & rest & -> & Hm)%IH)%star_greedy_sound.
      exists (u ++ w), rest. rewrite <- app_assoc. split; [done|by constructor].
    + intros (u & w0 & -> & Hne & Hu & (w & rest & -> & Hm)%IH)%lazy_plus_sound.
      exists (u ++ w), rest. rewrite <- app_assoc. split; [done|by constructor].
    + destruct s as [|x s]; [done|].
      destruct (in_class c x) eqn:Hx; [|done].
      intros (w & rest & -> & Hm)%IH.
      exists (x :: w), rest. split; [done|by constructor].
Qed.

Lemma match_here_complete p w cap cap' :
  matches p w cap cap' ->
  forall rest, is_Some (match_here p (w ++ rest) cap).
Proof.
  induction 1 as [cap|l p w cap cap' _ IH|c p u w cap cap' Hu _ IH
                 |c p u w cap cap' Hne Hu _ IH|c p x w cap cap' Hx _ IH];
    intros rest; simpl.
  - eauto.
  - rewrite <- app_assoc.
    destruct (strip_prefix l (l ++ w ++ rest)) as [s'|] eqn:Hl.
    + apply strip_prefix_Some in Hl. apply app_inv_head in Hl as <-. apply IH.
    + assert (strip_prefix l (l ++ w ++ rest) = Some (w ++ rest)) as Hs
        by by apply strip_prefix_Some.
      congruence.
  - rewrite <- app_assoc. apply star_greedy_complete; [done|apply IH].
  - rewrite <- app_assoc. apply lazy_plus_complete; [done..|apply IH].
  - rewrite Hx. apply IH.
Qed.

Lemma search_sound p s g : search p s = Some g -> occurs p s.
Proof.
  induction s as [|x s IH]; simpl.
  - destruct (match_here p [] None) as [g'|] eqn:Hm; [|done].
    intros _. apply match_here_sound in Hm as (w & rest & Hs & Hm).
    exists [], w, rest, g'. done.
  - destruct (match_here p (x :: s) None) as [g'|] eqn:Hm.
    + intros _. apply match_here_sound in Hm as (w & rest & Hs & Hm).
      exists [], w, rest, g'. done.
    + intros (pre & w & post & cap & -> & Hm')%IH.
      exists (x :: pre), w, post, cap. done.
Qed.

Lemma search_complete p s : occurs p s -> is_Some (search p s).
Proof.
  intros (pre & w & post & cap & -> & Hm).
  induction pre as [|x pre IH]; simpl.
  - destruct (match_here_complete _ _ _ _ Hm post) as [g Hg].
    destruct (w ++ post); simpl; rewrite Hg; eauto.
  - destruct (match_here p (x :: pre ++ w ++ post) None); eauto.
Qed.

(** [re.search] returns [None] exactly when the pattern occurs nowhere. *)
Lemma search_None_iff p s : search p s = None <-> ~ occurs p s.
Proof.
  split.
  - intros Hs [g Hg]%search_complete. congruence.
  - intros Hn. destruct (search p s) as [g|] eqn:Hs; [|done].
    destruct Hn. by eapply search_sound.
Qed.

(** A pattern with a capturing group sets group 1 in every match. *)
Lemma matches_group p w cap cap' :
  matches p w cap cap' ->
  (existsb is_group p = true \/ is_Some cap) -> is_Some cap'.
Proof.
  induction 1; simpl; intros Hg; eauto.
  - by destruct Hg.
Qed.

Lemma search_group p s g :
  existsb is_group p = true -> search p s = Some g -> is_Some g.
Proof.
  intros Hp. induction s as [|x s IH]; simpl.
  - destruct (match_here p [] None) as [g'|] eqn:Hm; [|done].
    intros [= ->]. apply match_here_sound in Hm as (w & rest & _ & Hm).
    eapply matches_group; eauto.
  - destruct (match_here p (x :: s) None) as [g'|] eqn:Hm; [|done].
    intros [= ->]. apply match_here_sound in Hm as (w & rest & _ & Hm).
    eapply matches_group; eauto.
Qed.

End Matcher.
End Re.

(** ** EmotionAnalyser/src/load_data.py *)

Module Emotion.

(** The values that the rows of the dataset hold. *)
Inductive pyval :=
| PStr (s : str)
| PInt (z : Z)
| PNone.

(** r"Frase:\s*(.+?)\. Clasifica" *)
Definition frase_re : list Re.item :=
  [Re.Lit (cps "Frase:"); Re.Star Re.Space; Re.GroupLazyPlus Re.Dot;
   Re.Lit (cps ". Clasifica")].

(** r"\[/INST\]\s*(\d)\s*</s>" *)
Definition label_re : list Re.item :=
  [Re.Lit (cps "[/INST]"); Re.Star Re.Space; Re.GroupOne Re.Digit;
   Re.Star Re.Space; Re.Lit (cps "</s>")].

(** [label2emotion]; the accented letters are U+00F3 and U+00FC. *)
Definition label2emotion : gmap Z str :=
  list_to_map
    [(0, cps "ira");
     (1, cps "satisfacci" ++ [243%N] ++ cps "n");
     (2, cps "tristeza");
     (3, cps "culpa");
     (4, cps "verg" ++ [252%N] ++ cps "enza");
     (5, cps "miedo");
     (6, cps "asco")]%Z.

Definition desconocido : str := cps "desconocido".

(** [label2emotion.get(v, "desconocido")]: the keys are integers, so any other
    value is absent. *)
Definition label2emotion_get (v : pyval) : str :=
  match v with
  | PInt z => default desconocido (label2emotion !! z)
  | PStr _ | PNone => desconocido
  end.

(** [add_emotion]: the row is updated in place and returned. *)
Definition add_emotion (example : gmap string pyval) : result (gmap string pyval) :=
  match example !! "label" with
  | Some v => Ok (<["emocion" := PStr (label2emotion_get v)]> example)
  | None => Raise (Exn KeyError [])
  end.

(** The ASCII digits, enough to run [clean] on ASCII texts. *)
Definition ascii_decimal (x : N) : option Z :=
  if ((48 <=? x) && (x <=? 57))%N then Some (Z.of_N x - 48)%Z else None.

Section LoadData.

(** [unicodedata.decimal], which decides [\d] and the value [int] gives. *)
Variable decimal : N -> option Z.

(** [dataset["train"].column_names[0]] *)
Variable column_name : string.

(** [m.group(1).strip()]: [group(1)] is [None] when the group took no part,
    and [None] has no [strip]. *)
Definition group1_strip (m : option str) : result str :=
  match m with
  | Some g => Ok (strip g)
  | None => Raise (Exn AttributeError [])
  end.

Fixpoint digits_value (acc : Z) (s : str) : result Z :=
  match s with
  | [] => Ok acc
  | x :: s' =>
      match decimal x with
      | Some d => digits_value (10 * acc + d) s'
      | None => Raise (Exn ValueError [])
      end
  end.

(** [int(...)] on a string of decimal digits (the only strings [clean] passes
    are single [\d] characters); [int(None)] is a [TypeError]. *)
Definition py_int (m : option str) : result Z :=
  match m with
  | Some [] => Raise (Exn ValueError [])
  | Some s => digits_value 0 s
  | None => Raise (Exn TypeError [])
  end.

Definition clean (example : gmap string pyval) : result (gmap string pyval) :=
  match example !! column_name with
  | None => Raise (Exn KeyError [])
  | Some (PStr raw_text) =>
      let match_frase := Re.search decimal frase_re raw_text in
      frase ← match match_frase with
              | Some m => group1_strip m
              | None => Ok []
              end;
      let match_label := Re.search decimal label_re raw_text in
      label ← match match_label with
              | Some m => py_int m
              | None => Ok (-1)%Z
              end;
      Ok (<["frase" := PStr frase]> (<["label" := PInt label]> ∅))
  | Some _ => Raise (Exn TypeError [])
  end.

(** The digit that [label_re] captured has a decimal value. *)
Lemma label_match_digit (s : str) (cap g : option str) :
  Re.match_here decimal label_re s cap = Some g ->
  exists x d, g = Some [x] /\ decimal x = Some d.
Proof.
  intros (w & rest & _ & Hm)%Re.match_here_sound.
  unfold label_re in Hm.
  inversion Hm as [|? ? ? ? ? Hm1| | |]; subst; clear Hm.
  inversion Hm1 as [| |? ? ? ? ? ? _ Hm2| |]; subst; clear Hm1.
  inversion Hm2 as [| | | |? ? y ? ? ? Hy Hm3]; subst; clear Hm2.
  inversion Hm3 as [| |? ? ? ? ? ? _ Hm4| |]; subst; clear Hm3.
  inversion Hm4 as [|? ? ? ? ? Hm5| | |]; subst; clear Hm4.
  inversion Hm5; subst.
  simpl in Hy. destruct (decimal y) as [d|] eqn:Hd; [|done].
  by exists y, d.
Qed.

Lemma label_group_digit (s : str) (g : option str) :
  Re.search decimal label_re s = Some g ->
  exists x d, g = Some [x] /\ decimal x = Some d.
Proof.
  induction s as [|x s IH].
  - cbn [Re.search].
    destruct (Re.match_here decimal label_re [] None) as [g'|] eqn:Hm; [|done].
    intros [= ->]. by eapply label_match_digit.
  - cbn [Re.search].
    destruct (Re.match_here decimal label_re (x :: s) None) as [g'|] eqn:Hm;
      [|exact IH].
    intros [= ->]. by eapply label_match_digit.
Qed.

Lemma add_emotion_unknown (example : gmap string pyval) (label : Z) :
  example !! "label" = Some (PInt label) ->
  ~ (0 <= label <= 6)%Z ->
  add_emotion example = Ok (<["emocion" := PStr desconocido]> example).
Proof.
  intros Hl Hout. unfold add_emotion. rewrite Hl. simpl.
  assert (label2emotion !! label = None) as ->; [|done].
  unfold label2emotion. simpl.
  repeat (rewrite lookup_insert_ne by lia). apply lookup_empty.
Qed.

(** C10. [clean] is total with explicit defaults: on every row that holds a
    text it returns a row (it never raises), whose [frase] is the empty string
    when the "Frase: ... Clasifica" pattern occurs nowhere in the text and
    whose [label] is -1 when the numeric-label pattern occurs nowhere; and
    [add_emotion] gives "desconocido" to every label outside 0..6. *)
Theorem clean_total_with_defaults (example : gmap string pyval) (raw_text : str) :
  (exists frase label,
      clean (<[column_name := PStr raw_text]> example)
      = Ok (<["frase" := PStr frase]> (<["label" := PInt label]> ∅))
      /\ (~ Re.occurs decimal frase_re raw_text -> frase = [])
      /\ (~ Re.occurs decimal label_re raw_text -> label = (-1)%Z))
  /\ (forall (row : gmap string pyval) (label : Z),
         row !! "label" = Some (PInt label) ->
         ~ (0 <= label <= 6)%Z ->
         add_emotion row = Ok (<["emocion" := PStr desconocido]> row)).
Proof.
  split; [|apply add_emotion_unknown].
  unfold clean. rewrite lookup_insert_eq.
  destruct (Re.search decimal frase_re raw_text) as [mf|] eqn:Hf;
    destruct (Re.search decimal label_re raw_text) as [ml|] eqn:Hl.
  - destruct (Re.search_group decimal frase_re _ _ eq_refl Hf) as [g ->].
    destruct (label_group_digit _ _ Hl) as (x & d & -> & Hd).
    exists (strip g), d. simpl. rewrite Hd. simpl.
    split; [done|]. split; intros Hn; destruct Hn; by eapply Re.search_sound.
  - destruct (Re.search_group decimal frase_re _ _ eq_refl Hf) as [g ->].
    exists (strip g), (-1)%Z. simpl.
    split; [done|]. split; [|done].
    intros Hn. destruct Hn. by eapply Re.search_sound.
  - destruct (label_group_digit _ _ Hl) as (x & d & -> & Hd).
    exists [], d. simpl. rewrite Hd. simpl.
    split; [done|]. split; [done|].
    intros Hn. destruct Hn. by eapply Re.search_sound.
  - exists [], (-1)%Z. simpl. done.
Qed.

End LoadData.

Example clean_sample :
  clean ascii_decimal "text"
    {[ "text" := PStr (cps "<s>[INST] Frase:  Estoy feliz . Clasifica la frase [/INST] 1 </s>") ]}
  = Ok (<["frase" := PStr (cps "Estoy feliz")]> (<["label" := PInt 1]> ∅)).
Proof. vm_compute. reflexivity. Qed.

Example clean_no_pattern :
  clean ascii_decimal "text" {[ "text" := PStr (cps "Frase: hola [/INST] x </s>") ]}
  = Ok (<["frase" := PStr []]> (<["label" := PInt (-1)]> ∅)).
Proof. vm_compute. reflexivity. Qed.

Example add_emotion_sample :
  add_emotion {[ "label" := PInt 7 ]}
  = Ok (<["emocion" := PStr desconocido]> {[ "label" := PInt 7 ]}).
Proof. vm_compute. reflexivity. Qed.

End Emotion.

(** ** The part of pandas that the application uses *)

Module Pandas.

Inductive dtype := Int64 | Float64 | Bool | Object.

(** [select_dtypes(include=["number"])] keeps these dtypes. *)
Definition is_number (d : dtype) : bool :=
  match d with
  | Int64 | Float64 => true
  | Bool | Object => false
  end.

(** One cell. A missing value is [None] or the float NaN. *)
Inductive value :=
| VInt (z : Z)
| VFloat (f : float)
| VBool (b : bool)
| VStr (s : str)
| VNone.

Definition isnull (v : value) : bool :=
  match v with
  | VNone => true
  | VFloat f => PrimFloat.is_nan f
  | VInt _ | VBool _ | VStr _ => false
  end.

Definition notnull (v : value) : bool := negb (isnull v).

Record Series := mkSeries {
  s_name : str;
  s_dtype : dtype;
  s_values : list value
}.

(** A table is stored by columns; [df_index] holds the row labels. *)
Record DataFrame := mkDataFrame {
  df_index : list Z;
  df_columns : list Series
}.

(** [len(df)] *)
Definition len (df : DataFrame) : nat := length (df_index df).

Definition column_names (df : DataFrame) : list str := map s_name (df_columns df).

(** The tables that the readers build: every column has one cell per row
    label, and the column names are distinct. *)
Definition wf (df : DataFrame) : Prop :=
  Forall (fun c => length (s_values c) = len df) (df_columns df)
  /\ NoDup (column_names df).

(** [df.empty]: one of the axes has length 0. *)
Definition empty (df : DataFrame) : bool :=
  (len df =? 0) || (length (df_columns df) =? 0).

Definition count_null (c : Series) : nat :=
  length (List.filter isnull (s_values c)).

(** [df.isnull().sum()]: the number of missing cells of every column. *)
Definition isnull_sum (df : DataFrame) : list (str * nat) :=
  map (fun c => (s_name c, count_null c)) (df_columns df).

(** The row view of column data: the first [n] rows. *)
Fixpoint transpose (n : nat) (cols : list (list value)) : list (list value) :=
  match n with
  | O => []
  | S n' => map (hd VNone) cols :: transpose n' (map (@tl value) cols)
  end.

Definition rows (df : DataFrame) : list (list value) :=
  transpose (len df) (map s_values (df_columns df)).

(** Boolean indexing along the rows. *)
Fixpoint select {A} (mask : list bool) (l : list A) : list A :=
  match mask, l with
  | b :: mask', x :: l' => if b then x :: select mask' l' else select mask' l'
  | _, _ => []
  end.

Definition row_complete (r : list value) : bool := forallb notnull r.

(** [df.dropna()]: the rows with a missing cell are left out; labels and
    dtypes stay. *)
Definition dropna (df : DataFrame) : DataFrame :=
  let mask := map row_complete (rows df) in
  {| df_index := select mask (df_index df);
     df_columns :=
       map (fun c => mkSeries (s_name c) (s_dtype c) (select mask (s_values c)))
           (df_columns df) |}.

(** A two-dimensional [float64] array, by columns: its shape is
    [(shape0, length array_cols)]. *)
Record ndarray := mkArray {
  shape0 : nat;
  array_cols : list (list float)
}.

Definition float_series (n : str) (c : list float) : Series :=
  mkSeries n Float64 (map VFloat c).

(** [df[n] = s] for one label: the column named [n] is replaced where it
    stands, or added at the end when there is none. *)
Definition set_column (df : DataFrame) (n : str) (s : Series) : DataFrame :=
  {| df_index := df_index df;
     df_columns :=
       if existsb (fun c => bool_decide (s_name c = n)) (df_columns df)
       then map (fun c => if bool_decide (s_name c = n) then s else c) (df_columns df)
       else df_columns df ++ [s] |}.

(** [df[names] = a] for a list of labels and an array: the number of columns
    of [a] must be the number of labels, and its columns must be as long as
    the index; otherwise pandas raises and [df] keeps its value. *)
Definition setitem_array (df : DataFrame) (names : list str) (a : ndarray)
  : result DataFrame :=
  if negb (length names =? length (array_cols a)) then
    Raise (Exn ValueError (cps "Columns must be same length as key"))
  else if negb (forallb (fun c => length c =? len df) (array_cols a)) then
    Raise (Exn ValueError (cps "Length of values does not match length of index"))
  else
    Ok (fold_left (fun d nc => set_column d (fst nc) (float_series (fst nc) (snd nc)))
                  (combine names (array_cols a)) df).

(** [df[name]] for one label: the column, a [KeyError] when there is none; a
    repeated label gives a table, not a column, and is left to the caller. *)
Inductive item :=
| OneColumn (s : Series)
| SubFrame (cols : list Series).

Definition getitem (df : DataFrame) (n : str) : result item :=
  match List.filter (fun c => bool_decide (s_name c = n)) (df_columns df) with
  | [] => Raise (Exn KeyError n)
  | [c] => Ok (OneColumn c)
  | cols => Ok (SubFrame cols)
  end.

(** [df[names]] for a list of labels: the columns with these labels, in the
    order of the list. *)
Fixpoint getitem_list (df : DataFrame) (names : list str) : result (list Series) :=
  match names with
  | [] => Ok []
  | n :: names' =>
      match List.filter (fun c => bool_decide (s_name c = n)) (df_columns df) with
      | [] => Raise (Exn KeyError n)
      | cols => rest ← getitem_list df names'; Ok (cols ++ rest)
      end
  end.

(** The names of the columns that [select_dtypes] keeps. *)
Definition select_dtypes_number (df : DataFrame) : list str :=
  map s_name (List.filter (fun c => is_number (s_dtype c)) (df_columns df)).

Definition select_dtypes_exclude_number (df : DataFrame) : list str :=
  map s_name (List.filter (fun c => negb (is_number (s_dtype c))) (df_columns df)).

(** A numeric cell as [float64]. *)
Definition to_float (v : value) : result float :=
  match v with
  | VInt z => Ok (float_of_Z z)
  | VFloat f => Ok f
  | VBool b => Ok (if b then 1%float else 0%float)
  | VNone => Ok nan
  | VStr _ => Raise (Exn ValueError (cps "could not convert string to float"))
  end.

Fixpoint to_floats (l : list value) : result (list float) :=
  match l with
  | [] => Ok []
  | v :: l' => f ← to_float v; fs ← to_floats l'; Ok (f :: fs)
  end.

(** The [float64] array of a list of columns. *)
Fixpoint to_numpy (cols : list Series) : result (list (list float)) :=
  match cols with
  | [] => Ok []
  | c :: cols' => f ← to_floats (s_values c); fs ← to_numpy cols'; Ok (f :: fs)
  end.

(** *** Rows and [dropna] *)

Lemma select_length_count {A} (mask : list bool) : forall (l : list A),
  length l = length mask ->
  length (select mask l) = length (List.filter id mask).
Proof.
  induction mask as [|b mask IH]; intros [|x l]; simpl; try done.
  intros [= Hl]. destruct b; simpl; auto.
Qed.

Lemma transpose_length n : forall cols, length (transpose n cols) = n.
Proof. induction n as [|n IH]; intros cols; simpl; auto. Qed.

Lemma map_select_cons (b : bool) (mask : list bool) (cols : list (list value)) :
  Forall (fun c => c <> []) cols ->
  map (select (b :: mask)) cols
  = if b then map (fun c => hd VNone c :: select mask (tl c)) cols
    else map (fun c => select mask (tl c)) cols.
Proof.
  induction 1 as [|c cols Hc _ IH].
  - by destruct b.
  - destruct c as [|x c]; [done|].
    change (map (select (b :: mask)) ((x :: c) :: cols))
      with (select (b :: mask) (x :: c) :: map (select (b :: mask)) cols).
    rewrite IH. by destruct b.
Qed.

(** Selecting in every column is filtering the rows. *)
Lemma transpose_select n : forall (cols : list (list value)),
  Forall (fun c => length c = n) cols ->
  transpose (length (List.filter id (map row_complete (transpose n cols))))
            (map (select (map row_complete (transpose n cols))) cols)
  = List.filter row_complete (transpose n cols).
Proof.
  induction n as [|n IH]; intros cols Hlen; [done|].
  assert (Forall (fun c => c <> []) cols) as Hne.
  { eapply Forall_impl; [exact Hlen|]. intros [|x c]; simpl; done. }
  assert (Forall (fun c => length c = n) (map (@tl value) cols)) as Htl.
  { apply Forall_map. eapply Forall_impl; [exact Hlen|].
    intros [|x c]; simpl; [done|]. by intros [= ->]. }
  specialize (IH _ Htl).
  cbn [transpose map List.filter].
  rewrite map_select_cons by done.
  rewrite map_map in IH.
  destruct (row_complete (map (hd VNone) cols)) eqn:Hrow; cbn [id length transpose].
  - f_equal.
    + rewrite map_map. by apply map_ext.
    + rewrite map_map. cbn [tl]. exact IH.
  - exact IH.
Qed.

Lemma filter_id_map {A} (f : A -> bool) (l : list A) :
  length (List.filter id (map f l)) = length (List.filter f l).
Proof.
  induction l as [|x l IH]; simpl; [done|].
  unfold id at 1. destruct (f x); simpl; auto.
Qed.

Lemma dropna_len (df : DataFrame) :
  len (dropna df) = length (List.filter row_complete (rows df)).
Proof.
  unfold len, dropna. simpl.
  rewrite select_length_count, filter_id_map; [done|].
  unfold rows. by rewrite length_map, transpose_length.
Qed.

(** [dropna] keeps exactly the rows that have no missing cell, in order. *)
Lemma dropna_rows (df : DataFrame) :
  wf df -> rows (dropna df) = List.filter row_complete (rows df).
Proof.
  intros [Hlen _]. unfold rows at 1. rewrite dropna_len.
  assert (Forall (fun c => length c = len df) (map s_values (df_columns df))) as H
    by by apply Forall_map.
  pose proof (transpose_select _ _ H) as Ht.
  rewrite filter_id_map in Ht. fold (rows df) in Ht.
  rewrite <- Ht at 2. f_equal.
  unfold dropna. simpl. rewrite !map_map. done.
Qed.

End Pandas.

(** ** data_preparation/import_files.py *)

Module ImportFiles.

(** [s.rfind] for a class of characters: the last position that holds one of
    them, -1 when there is none; [i] is the position of the head of [s]. *)
Fixpoint rfind (P : N -> bool) (s : str) (i : Z) : Z :=
  match s with
  | [] => (-1)%Z
  | x :: s' =>
      let r := rfind P s' (i + 1)%Z in
      if (0 <=? r)%Z then r else if P x then i else (-1)%Z
  end.

(** [s[a:b]] for [0 <= a]. *)
Definition slice (s : str) (a b : Z) : str :=
  take (Z.to_nat (b - a)) (drop (Z.to_nat a) s).

Definition is_dot (x : N) : bool := (x =? 46)%N.

(** [os.path.splitext(p)[-1]]: the extension starts at the last dot of the
    last component, and leading dots of that component do not count. [is_sep]
    holds of the separators of the platform. *)
Definition splitext_ext (is_sep : N -> bool) (p : str) : str :=
  let sepIndex := rfind is_sep p 0 in
  let dotIndex := rfind is_dot p 0 in
  if (sepIndex <? dotIndex)%Z
     && existsb (fun x => negb (is_dot x)) (slice p (sepIndex + 1) dotIndex)
  then drop (Z.to_nat dotIndex) p
  else [].

(** [s.isascii()]. *)
Definition isascii (s : str) : bool := forallb (fun x => (x <? 128)%N) s.

(** [str.lower] on a text of ASCII characters: the letters A to Z move to a
    to z and nothing else changes. *)
Definition ascii_lower (s : str) : str :=
  map (fun x => if ((65 <=? x) && (x <=? 90))%N then (x + 32)%N else x) s.

Definition str_eqb (a b : str) : bool := bool_decide (a = b).

(** What the process sees of the outside world: the platform's separators,
    [os.path.exists], what each pandas reader does with a path, and what
    [str.lower] makes, from the Unicode tables of the interpreter, of a text
    that is not all ASCII. *)
Record Env := mkEnv {
  is_sep : N -> bool;
  path_exists : str -> bool;
  read_csv : str -> result Pandas.DataFrame;
  read_excel : str -> result Pandas.DataFrame;
  read_sqlite : str -> result Pandas.DataFrame;
  unicode_lower : str -> str
}.

Section ImportData.
Variable env : Env.

(** [s.lower()]. *)
Definition lower (s : str) : str :=
  if isascii s then ascii_lower s else unicode_lower env s.

Definition file_ext (file_path : str) : str :=
  lower (splitext_ext (is_sep env) file_path).

Definition supported (ext : str) : bool :=
  existsb (str_eqb ext)
          [cps ".csv"; cps ".xlsx"; cps ".xls"; cps ".sqlite"; cps ".db"].

(** The body of the [try] block. *)
Definition dispatch (file_path : str) : result Pandas.DataFrame :=
  let ext := file_ext file_path in
  if str_eqb ext (cps ".csv") then read_csv env file_path
  else if existsb (str_eqb ext) [cps ".xlsx"; cps ".xls"] then read_excel env file_path
  else if existsb (str_eqb ext) [cps ".sqlite"; cps ".db"] then read_sqlite env file_path
  else Raise (Exn ValueError
                (cps "The file format '" ++ ext ++ cps "' is not supported.")).

(** [except (pd.errors.EmptyDataError, pd.errors.ParserError) as e] *)
Definition is_parser_failure (c : exn_class) : bool :=
  match c with
  | EmptyDataError | ParserError => true
  | _ => false
  end.

Definition import_data (file_path : str) : result Pandas.DataFrame :=
  if negb (path_exists env file_path) then
    Raise (Exn FileNotFoundError
             (cps "The file '" ++ file_path ++ cps "' does not exist."))
  else
    match dispatch file_path with
    | Ok df => Ok df
    | Raise e =>
        if is_parser_failure (exn_cls e) then
          Raise (Exn ValueError (cps "Error reading the file: " ++ exn_msg e))
        else Raise e
    end.

(** The reader that [import_data] calls for a supported extension. *)
Definition reader (file_path : str) : result Pandas.DataFrame :=
  let ext := file_ext file_path in
  if str_eqb ext (cps ".csv") then read_csv env file_path
  else if existsb (str_eqb ext) [cps ".xlsx"; cps ".xls"] then read_excel env file_path
  else read_sqlite env file_path.

(** The content is malformed: the reader raises one of the two parser errors. *)
Definition malformed (file_path : str) : bool :=
  match reader file_path with
  | Raise e => is_parser_failure (exn_cls e)
  | Ok _ => false
  end.

Definition raises (c : exn_class) (r : result Pandas.DataFrame) : Prop :=
  exists msg, r = Raise (Exn c msg).

(** The statement of the specification, word for word: a file-not-found error
    exactly for the missing paths; for an existing path a [ValueError] for an
    unsupported extension and for malformed content, and a table otherwise. *)
Definition import_data_as_specified : Prop :=
  forall file_path,
    (raises FileNotFoundError (import_data file_path)
     <-> path_exists env file_path = false)
    /\ (path_exists env file_path = true ->
        (supported (file_ext file_path) = false \/ malformed file_path = true ->
         raises ValueError (import_data file_path))
        /\ (supported (file_ext file_path) = true /\ malformed file_path = false ->
            exists df, import_data file_path = Ok df)).

(** An SQLite file that has no table [test_table]: the fixed query of
    [_read_sqlite] fails in the database layer. The paths of the samples are
    ASCII, so that [unicode_lower] is never asked. *)
Definition env_no_test_table : Env :=
  {| is_sep := fun x => (x =? 47)%N;
     path_exists := fun p => str_eqb p (cps "data/sales.db");
     read_csv := fun _ => Raise (Exn EmptyDataError (cps "No columns to parse from file"));
     read_excel := fun _ => Raise (Exn ValueError (cps "Excel file format cannot be determined"));
     read_sqlite := fun _ =>
       Raise (Exn (OtherError "DatabaseError") (cps "no such table: test_table"));
     unicode_lower := ascii_lower |}.

Lemma dispatch_supported (file_path : str) :
  supported (file_ext file_path) = true -> dispatch file_path = reader file_path.
Proof.
  unfold supported, dispatch, reader. cbn [existsb].
  generalize (file_ext file_path). intros ext.
  destruct (str_eqb ext (cps ".csv")); [done|].
  destruct (str_eqb ext (cps ".xlsx")); [done|].
  destruct (str_eqb ext (cps ".xls")); [done|].
  destruct (str_eqb ext (cps ".sqlite")); [done|].
  destruct (str_eqb ext (cps ".db")); done.
Qed.

Lemma dispatch_unsupported (file_path : str) :
  supported (file_ext file_path) = false ->
  dispatch file_path
  = Raise (Exn ValueError
             (cps "The file format '" ++ file_ext file_path ++ cps "' is not supported.")).
Proof.
  unfold supported, dispatch. cbn [existsb].
  generalize (file_ext file_path). intros ext.
  destruct (str_eqb ext (cps ".csv")); [done|].
  destruct (str_eqb ext (cps ".xlsx")); [done|].
  destruct (str_eqb ext (cps ".xls")); [done|].
  destruct (str_eqb ext (cps ".sqlite")); [done|].
  destruct (str_eqb ext (cps ".db")); done.
Qed.

(** What [import_data] does, case by case. It raises [FileNotFoundError]
    when the path does not exist. For an existing path it raises [ValueError]
    when the extension is not supported and when the reader raises
    [EmptyDataError] or [ParserError]; it returns the table when the reader
    returns one; and any other exception of the reader leaves [import_data]
    as it is. So [FileNotFoundError] comes out exactly for the paths that do
    not exist, unless a reader raises it for a path that does. *)
Lemma import_data_outcomes (file_path : str) :
  (path_exists env file_path = false ->
   import_data file_path
   = Raise (Exn FileNotFoundError
              (cps "The file '" ++ file_path ++ cps "' does not exist.")))
  /\ (path_exists env file_path = true ->
      (supported (file_ext file_path) = false ->
       import_data file_path
       = Raise (Exn ValueError
                  (cps "The file format '" ++ file_ext file_path
                       ++ cps "' is not supported.")))
      /\ (supported (file_ext file_path) = true ->
          match reader file_path with
          | Ok df => import_data file_path = Ok df
          | Raise e =>
              if is_parser_failure (exn_cls e)
              then import_data file_path
                   = Raise (Exn ValueError (cps "Error reading the file: " ++ exn_msg e))
              else import_data file_path = Raise e
          end))
  /\ ((forall e, reader file_path = Raise e -> exn_cls e <> FileNotFoundError) ->
      (raises FileNotFoundError (import_data file_path)
       <-> path_exists env file_path = false)).
Proof.
  unfold import_data. split; [intros ->; done|]. split.
  - intros ->. simpl. split.
    + intros Hu. by rewrite dispatch_unsupported.
    + intros Hs. rewrite dispatch_supported by done.
      destruct (reader file_path) as [df|e]; [done|].
      by destruct (is_parser_failure (exn_cls e)).
  - intros Hr. destruct (path_exists env file_path) eqn:Hex; simpl.
    + split; [|done]. intros [msg Hm]. exfalso. revert Hm.
      destruct (supported (file_ext file_path)) eqn:Hs.
      * rewrite dispatch_supported by done.
        destruct (reader file_path) as [df|e] eqn:He; [done|].
        destruct (is_parser_failure (exn_cls e)); [done|].
        intros [= ->]. by apply (Hr _ eq_refl).
      * by rewrite dispatch_unsupported.
    + split; [done|]. intros _. by eexists.
Qed.

End ImportData.

Example file_ext_samples :
  file_ext env_no_test_table (cps "data/sales.db") = cps ".db"
  /\ file_ext env_no_test_table (cps "Report.V2.XLSX") = cps ".xlsx"
  /\ file_ext env_no_test_table (cps "dir.csv/.hidden") = []
  /\ file_ext env_no_test_table (cps "archive.tar.gz") = cps ".gz"
  /\ file_ext env_no_test_table (cps "noext") = [].
Proof. vm_compute. done. Qed.

(** C2. An existing SQLite file without the table [test_table]: the path
    exists, the extension is supported and the content is no malformed CSV,
    yet [import_data] neither returns a table nor raises [ValueError]. It lets
    the [DatabaseError] of the reader through, where its docstring promises a
    [ValueError] for an error reading the file and the two parser errors are
    turned into one; so the statement of the specification fails on that
    file. *)
Theorem import_data_database_error :
  path_exists env_no_test_table (cps "data/sales.db") = true
  /\ supported (file_ext env_no_test_table (cps "data/sales.db")) = true
  /\ malformed env_no_test_table (cps "data/sales.db") = false
  /\ import_data env_no_test_table (cps "data/sales.db")
     = Raise (Exn (OtherError "DatabaseError") (cps "no such table: test_table"))
  /\ ~ raises ValueError (import_data env_no_test_table (cps "data/sales.db"))
  /\ (forall df, import_data env_no_test_table (cps "data/sales.db") <> Ok df)
  /\ ~ import_data_as_specified env_no_test_table.
Proof.
  assert (import_data env_no_test_table (cps "data/sales.db")
          = Raise (Exn (OtherError "DatabaseError") (cps "no such table: test_table")))
    as Hi by by vm_compute.
  split; [by vm_compute|]. split; [by vm_compute|]. split; [by vm_compute|].
  split; [exact Hi|]. rewrite Hi. split; [by intros [msg [=]]|]. split; [done|].
  intros H. destruct (H (cps "data/sales.db")) as [_ H2].
  destruct (H2 ltac:(by vm_compute)) as [_ H3].
  destruct (H3 ltac:(by vm_compute)) as [df Hdf].
  rewrite Hi in Hdf. discriminate Hdf.
Qed.

End ImportFiles.

(** ** model_management/scikit_learn.py *)

Module ScikitLearn.
Import Pandas.

(** A fitted [sklearn.linear_model.LinearRegression]. *)
Record LinearRegression := mkModel {
  coef_ : list float;
  intercept_ : float
}.

(** What the module takes from Python and from scikit-learn; each routine may
    raise. [train_test_split] (with [test_size=0.2]) shuffles the rows with a
    generator: its first argument is the state of numpy's global generator
    when the call is made, its second the argument [random_state] ([None]
    when the caller gives none). *)
Record Library := mkLibrary {
  repr_float : float -> str;
  train_test_split :
    N -> option Z -> list Series -> list value ->
    result (list Series * list Series * list value * list value);
  fit : list Series -> list value -> result LinearRegression;
  predict : LinearRegression -> list Series -> result (list float);
  mean_squared_error : list value -> list float -> result float;
  r2_score : list value -> list float -> result float
}.

(** What scikit-learn documents of [random_state]: with an integer seed the
    split does not depend on the state of the global generator. *)
Definition seeded (lib : Library) : Prop :=
  forall (g1 g2 : N) (seed : Z) (x : list Series) (y : list value),
    train_test_split lib g1 (Some seed) x y = train_test_split lib g2 (Some seed) x y.

(** The argument [output_columns]: the wizard passes the list of the selected
    targets, the docstring describes one column name. *)
Inductive columns_arg :=
| ColName (s : str)
| ColList (l : list str).

Record Output := mkOutput {
  formula : str;
  mse : float;
  r2 : float;
  x_test : list Series;
  y_test : list value;
  predictions : list float;
  model : LinearRegression
}.

(** *** Label encoding *)

Definition str_compare (a b : str) : comparison := list_compare N.compare a b.

(** One more string in the sorted list of the distinct strings seen. *)
Fixpoint insert_class (s : str) (classes : list str) : list str :=
  match classes with
  | [] => [s]
  | c :: cs =>
      match str_compare s c with
      | Lt => s :: c :: cs
      | Eq => c :: cs
      | Gt => c :: insert_class s cs
      end
  end.

(** [LabelEncoder.classes_]: the distinct strings in code point order. *)
Definition classes_of (l : list str) : list str := fold_right insert_class [] l.

Fixpoint index_of (s : str) (l : list str) : nat :=
  match l with
  | [] => O
  | c :: cs => if bool_decide (s = c) then O else S (index_of s cs)
  end.

(** [LabelEncoder().fit_transform(l)] *)
Definition label_encode (l : list str) : list Z :=
  map (fun s => Z.of_nat (index_of s (classes_of l))) l.

Section WithLibrary.
Variable lib : Library.

(** One cell under [astype(str)]. *)
Definition astype_str (v : value) : str :=
  match v with
  | VStr s => s
  | VNone => cps "None"
  | VBool b => if b then cps "True" else cps "False"
  | VInt z => str_of_Z z
  | VFloat f => if PrimFloat.is_nan f then cps "nan" else repr_float lib f
  end.

(** The column that the loop leaves in place of a column [s]: its label codes
    as [float64]. *)
Definition encoded (s : Series) : Series :=
  mkSeries (s_name s) Float64
           (map (fun z => VFloat (float_of_Z z))
                (label_encode (map astype_str (s_values s)))).

(** What the loop makes of one column. *)
Definition encoded_if_non_numeric (c : Series) : Series :=
  if is_number (s_dtype c) then c else encoded c.

(** [astype("float64")] of a column. *)
Definition astype_float64 (s : Series) : result Series :=
  fs ← to_floats (s_values s); Ok (mkSeries (s_name s) Float64 (map VFloat fs)).

(** One turn of the loop over [non_numeric_columns]; the table is changed in
    place, so it is returned also when the turn raises. *)
Definition encode_column (data : DataFrame) (column : str) : DataFrame * result unit :=
  match getitem data column with
  | Raise e => (data, Raise e)
  | Ok (SubFrame _) => (data, Raise (Exn ValueError (cps "y should be a 1d array")))
  | Ok (OneColumn s) =>
      let codes := label_encode (map astype_str (s_values s)) in
      let data1 := set_column data column (mkSeries column Int64 (map VInt codes)) in
      match getitem data1 column with
      | Raise e => (data1, Raise e)
      | Ok (SubFrame _) => (data1, Raise (Exn ValueError (cps "Columns must be same length as key")))
      | Ok (OneColumn s1) =>
          match astype_float64 s1 with
          | Raise e => (data1, Raise e)
          | Ok s2 => (set_column data1 column s2, Ok tt)
          end
      end
  end.

Fixpoint encode_columns (columns : list str) (data : DataFrame) : DataFrame * result unit :=
  match columns with
  | [] => (data, Ok tt)
  | column :: rest =>
      match encode_column data column with
      | (data', Raise e) => (data', Raise e)
      | (data', Ok _) => encode_columns rest data'
      end
  end.

(** [a.ravel()] of the values of a table: row after row. *)
Definition ravel (n : nat) (cols : list Series) : list value :=
  concat (transpose n (map s_values cols)).

(** [data[output_columns].values.ravel()] *)
Definition output_values (data : DataFrame) (output_columns : columns_arg)
  : result (list value) :=
  match output_columns with
  | ColList l => cols ← getitem_list data l; Ok (ravel (len data) cols)
  | ColName n =>
      it ← getitem data n;
      match it with
      | OneColumn s => Ok (s_values s)
      | SubFrame cols => Ok (ravel (len data) cols)
      end
  end.

End WithLibrary.

(** *** The formula *)

Fixpoint join (sep : str) (l : list str) : str :=
  match l with
  | [] => []
  | [s] => s
  | s :: l' => s ++ sep ++ join sep l'
  end.

(** [f"{output_columns}"]; [repr_str] is [repr] on the names of a list. *)
Definition columns_str (repr_str : str -> str) (output_columns : columns_arg) : str :=
  match output_columns with
  | ColName s => s
  | ColList l => cps "[" ++ join (cps ", ") (map repr_str l) ++ cps "]"
  end.

(** The loop [for i, coef in enumerate(coefficients)], from position [i]. *)
Fixpoint formula_terms (i : nat) (coefficients : list float)
         (input_columns : list str) (formula : str) : result str :=
  match coefficients with
  | [] => Ok formula
  | coef :: rest =>
      match input_columns !! i with
      | Some col =>
          formula_terms (S i) rest input_columns
            (formula ++ cps " + (" ++ format_2f coef ++ cps ") * " ++ col)
      | None => Raise (Exn IndexError (cps "list index out of range"))
      end
  end.

Definition build_formula (repr_str : str -> str) (output_columns : columns_arg)
           (m : LinearRegression) (input_columns : list str) : result str :=
  formula_terms 0 (coef_ m) input_columns
    (columns_str repr_str output_columns ++ cps " = " ++ format_2f (intercept_ m)).

(** [repr] of a name made of letters, digits and underscores. *)
Definition repr_plain (s : str) : str := cps "'" ++ s ++ cps "'".

Section Regression.
Variable lib : Library.
Variable repr_str : str -> str.

(** The function after the encoding loop; [generator] is the state of the
    global generator at the call. *)
Definition regress (generator : N) (data : DataFrame) (input_columns : list str)
           (output_columns : columns_arg) : result Output :=
  x ← getitem_list data input_columns;
  y ← output_values data output_columns;
  split ← train_test_split lib generator (Some 42%Z) x y;
  let '(x_train, x_test, y_train, y_test) := split in
  model ← fit lib x_train y_train;
  predictions ← predict lib model x_test;
  mse ← mean_squared_error lib y_test predictions;
  r2 ← r2_score lib y_test predictions;
  formula ← build_formula repr_str output_columns model input_columns;
  Ok (mkOutput formula mse r2 x_test y_test predictions model).

(** [linear_regression]: the table [data] is the caller's object, and the
    first component is its value when the call is over. *)
Definition linear_regression (generator : N) (data : DataFrame)
           (input_columns : list str) (output_columns : columns_arg)
  : DataFrame * result Output :=
  let non_numeric_columns := select_dtypes_exclude_number data in
  match encode_columns lib non_numeric_columns data with
  | (data', Raise e) => (data', Raise e)
  | (data', Ok _) => (data', regress generator data' input_columns output_columns)
  end.

End Regression.

(** *** Vocabulary of the proofs, and samples *)

Definition named (n : str) (c : Series) : bool := bool_decide (s_name c = n).

(** The columns after [df[n] = s] when a column named [n] exists. *)
Definition replaced (n : str) (s : Series) (cols : list Series) : list Series :=
  map (fun c => if named n c then s else c) cols.

Definition non_numeric_names (cols : list Series) : list str :=
  map s_name (List.filter (fun c => negb (is_number (s_dtype c))) cols).

(** One term of the formula, as the code writes it and as the specification
    words it. *)
Definition term_str (t : float * str) : str :=
  cps " + (" ++ format_2f t.1 ++ cps ") * " ++ t.2.



(** A stand-in for scikit-learn, to run the functions on samples: its
    routines give fixed answers (the fit of y = 2x), whatever the data. *)
Definition canned_library : Library :=
  {| repr_float := format_2f;
     train_test_split := fun _ _ x y => Ok (x, x, y, y);
     fit := fun _ _ => Ok (mkModel [2%float] 0%float);
     predict := fun m x => Ok [];
     mean_squared_error := fun _ _ => Ok 0%float;
     r2_score := fun _ _ => Ok 1%float |}.

Definition sample_table : DataFrame :=
  {| df_index := [0; 1; 2; 3]%Z;
     df_columns :=
       [mkSeries (cps "city") Object
                 [VStr (cps "Vigo"); VStr (cps "Lugo"); VStr (cps "Vigo"); VNone];
        mkSeries (cps "x") Int64 [VInt 1; VInt 2; VInt 3; VInt 4];
        mkSeries (cps "y") Float64
                 [VFloat 2%float; VFloat 4%float; VFloat nan; VFloat 6%float]] |}.

(** *** The loop over the non-numeric columns *)

Section EncodingFacts.
Variable lib : Library.

Lemma replaced_none n s cols :
  List.filter (named n) cols = [] -> replaced n s cols = cols.
Proof.
  induction cols as [|c cols IH]; simpl; [done|].
  destruct (named n c); [done|]. intros H. by rewrite IH.
Qed.

Lemma existsb_named n cols c :
  List.filter (named n) cols = [c] -> existsb (named n) cols = true.
Proof.
  induction cols as [|c0 cols IH]; simpl; [done|].
  destruct (named n c0); [done|]. exact IH.
Qed.

Lemma filter_named_name n cols c :
  List.filter (named n) cols = [c] -> s_name c = n.
Proof.
  intros H. assert (In c (List.filter (named n) cols)) as Hin by (rewrite H; by left).
  apply filter_In in Hin as [_ Hn]. unfold named in Hn.
  by apply bool_decide_eq_true in Hn.
Qed.

Lemma filter_named_replaced n s cols :
  s_name s = n ->
  List.filter (named n) (replaced n s cols)
  = map (fun _ => s) (List.filter (named n) cols).
Proof.
  intros Hs. induction cols as [|c cols IH]; simpl; [done|].
  destruct (named n c) eqn:Hc; simpl.
  - unfold named at 1. rewrite bool_decide_eq_true_2 by done. simpl. by rewrite IH.
  - rewrite Hc. exact IH.
Qed.

Lemma replaced_replaced n s1 s2 cols :
  s_name s1 = n -> replaced n s2 (replaced n s1 cols) = replaced n s2 cols.
Proof.
  intros Hs. unfold replaced. rewrite map_map. apply map_ext. intros c.
  destruct (named n c) eqn:Hc; [|by rewrite Hc].
  unfold named. by rewrite bool_decide_eq_true_2.
Qed.

Lemma set_column_replaced d n s c :
  List.filter (named n) (df_columns d) = [c] ->
  set_column d n s = mkDataFrame (df_index d) (replaced n s (df_columns d)).
Proof.
  intros H. unfold set_column. fold (named n).
  by rewrite (existsb_named _ _ _ H).
Qed.

Lemma to_floats_ints (l : list Z) :
  to_floats (map VInt l) = Ok (map float_of_Z l).
Proof. induction l as [|z l IH]; simpl; [done|]. by rewrite IH. Qed.

(** A turn on a label that names one column puts the encoded column in its
    place. *)
Lemma encode_column_one d n c :
  List.filter (named n) (df_columns d) = [c] ->
  encode_column lib d n
  = (mkDataFrame (df_index d) (replaced n (encoded lib c) (df_columns d)), Ok tt).
Proof.
  intros H. pose proof (filter_named_name _ _ _ H) as Hn.
  unfold encode_column, getitem. fold (named n). rewrite H.
  set (s1 := mkSeries n Int64 _).
  rewrite (set_column_replaced _ _ _ _ H). simpl.
  rewrite filter_named_replaced by done. rewrite H. simpl.
  unfold astype_float64. subst s1. simpl. rewrite to_floats_ints. simpl.
  erewrite set_column_replaced.
  2:{ simpl. rewrite filter_named_replaced by done. rewrite H. done. }
  simpl. rewrite replaced_replaced by done.
  unfold encoded. rewrite Hn, map_map. done.
Qed.

(** A turn on any other label raises and leaves the table as it is. *)
Lemma encode_column_other d n :
  (forall c, List.filter (named n) (df_columns d) <> [c]) ->
  exists e, encode_column lib d n = (d, Raise e).
Proof.
  intros H. unfold encode_column, getitem. fold (named n).
  destruct (List.filter (named n) (df_columns d)) as [|c [|c' l]]; eauto.
  by destruct (H c).
Qed.

(** After the turn on the first non-numeric label, the other non-numeric
    labels are left, in order. *)
Lemma non_numeric_names_replaced n rest c : forall cols,
  List.filter (named n) cols = [c] ->
  non_numeric_names cols = n :: rest ->
  non_numeric_names (replaced n (encoded lib c) cols) = rest
  /\ is_number (s_dtype c) = false.
Proof.
  induction cols as [|c0 cols IH]; [done|].
  unfold non_numeric_names. simpl.
  destruct (named n c0) eqn:Hc0.
  - intros [= -> Hnil].
    destruct (is_number (s_dtype c)) eqn:Hnum; simpl.
    + intros Hrest.
      assert (In n (map s_name (List.filter (named n) cols))) as Hin.
      { assert (In n (non_numeric_names cols)) as Hin'
          by (unfold non_numeric_names; rewrite Hrest; by left).
        unfold non_numeric_names in Hin'.
        apply in_map_iff in Hin' as (c1 & Hc1 & Hin').
        apply filter_In in Hin' as [Hin' _].
        apply in_map_iff. exists c1. split; [done|].
        apply filter_In. split; [done|]. unfold named. by apply bool_decide_eq_true. }
      rewrite Hnil in Hin. done.
    + intros [= _ Hrest]. rewrite replaced_none by done. done.
  - intros Hf. destruct (is_number (s_dtype c0)) eqn:Hnum0; simpl.
    + intros Hrest. by apply IH.
    + intros [= Hname _]. unfold named in Hc0.
      by rewrite bool_decide_eq_true_2 in Hc0.
Qed.

(** Running the loop again on the table it left stops at the same point with
    the same outcome. *)
Lemma encode_columns_again columns : forall d d1 r,
  select_dtypes_exclude_number d = columns ->
  encode_columns lib columns d = (d1, r) ->
  encode_columns lib (select_dtypes_exclude_number d1) d1 = (d1, r).
Proof.
  induction columns as [|n rest IH]; intros d d1 r Hnames.
  - simpl. intros [= <- <-]. by rewrite Hnames.
  - cbn [encode_columns].
    destruct (List.filter (named n) (df_columns d)) as [|c [|c' l]] eqn:Hf.
    + destruct (encode_column_other d n) as [e He]; [by rewrite Hf|].
      rewrite He. intros [= <- <-]. rewrite Hnames. cbn [encode_columns].
      by rewrite He.
    + rewrite (encode_column_one _ _ _ Hf).
      apply IH. unfold select_dtypes_exclude_number. simpl.
      by apply (non_numeric_names_replaced n rest c).
    + destruct (encode_column_other d n) as [e He]; [by rewrite Hf|].
      rewrite He. intros [= <- <-]. rewrite Hnames. cbn [encode_columns].
      by rewrite He.
Qed.

Lemma filter_named_absent n cols :
  ~ In n (map s_name cols) -> List.filter (named n) cols = [].
Proof.
  induction cols as [|c cols IH]; simpl; [done|].
  intros Hn. unfold named at 1. rewrite bool_decide_eq_false_2 by tauto.
  apply IH. tauto.
Qed.

Lemma filter_named_unique c : forall cols,
  NoDup (map s_name cols) -> In c cols ->
  List.filter (named (s_name c)) cols = [c].
Proof.
  induction cols as [|c0 cols IH]; [done|].
  rewrite map_cons. intros [Hnotin Hnd]%NoDup_cons [->|Hin]; simpl.
  - unfold named at 1. rewrite bool_decide_eq_true_2 by done.
    rewrite filter_named_absent; [done|].
    intros H. by apply Hnotin, list_elem_of_In.
  - unfold named at 1. rewrite bool_decide_eq_false_2.
    + by apply IH.
    + intros Heq. apply Hnotin. rewrite Heq.
      apply list_elem_of_In. by apply in_map.
Qed.

Lemma names_replaced n s cols :
  s_name s = n -> map s_name (replaced n s cols) = map s_name cols.
Proof.
  intros Hs. unfold replaced. rewrite map_map. apply map_ext. intros c.
  destruct (named n c) eqn:Hc; [|done].
  unfold named in Hc. apply bool_decide_eq_true in Hc. congruence.
Qed.

Lemma encoded_if_all_numeric cols :
  non_numeric_names cols = [] -> map (encoded_if_non_numeric lib) cols = cols.
Proof.
  unfold non_numeric_names. induction cols as [|c cols IH]; simpl; [done|].
  unfold encoded_if_non_numeric at 1.
  destruct (is_number (s_dtype c)); simpl; [|done].
  intros H. by rewrite IH.
Qed.

Lemma encoded_if_replaced n c cols :
  List.filter (named n) cols = [c] ->
  is_number (s_dtype c) = false ->
  map (encoded_if_non_numeric lib) (replaced n (encoded lib c) cols)
  = map (encoded_if_non_numeric lib) cols.
Proof.
  intros Hf Hnum. unfold replaced. rewrite map_map.
  apply map_ext_in. intros c' Hin.
  destruct (named n c') eqn:Hc'; [|done].
  assert (In c' (List.filter (named n) cols)) as Hin'
    by (apply filter_In; done).
  rewrite Hf in Hin'. destruct Hin' as [<-|[]].
  unfold encoded_if_non_numeric. by rewrite Hnum.
Qed.

(** With distinct column names the loop never raises, and it replaces every
    non-numeric column by its encoding. *)
Lemma encode_columns_distinct columns : forall d,
  select_dtypes_exclude_number d = columns ->
  NoDup (column_names d) ->
  encode_columns lib columns d
  = (mkDataFrame (df_index d) (map (encoded_if_non_numeric lib) (df_columns d)), Ok tt).
Proof.
  induction columns as [|n rest IH]; intros d Hnames Hnd.
  - simpl. rewrite encoded_if_all_numeric by done. by destruct d.
  - assert (exists c, In c (df_columns d) /\ s_name c = n) as (c & Hin & Hn).
    { assert (In n (select_dtypes_exclude_number d)) as H
        by (rewrite Hnames; by left).
      apply in_map_iff in H as (c & Hc & H). apply filter_In in H as [H _].
      by exists c. }
    pose proof (filter_named_unique c _ Hnd Hin) as Hf. rewrite Hn in Hf.
    destruct (non_numeric_names_replaced n rest c _ Hf Hnames) as [Hrest Hnum].
    cbn [encode_columns]. rewrite (encode_column_one _ _ _ Hf).
    rewrite IH; simpl.
    + by rewrite encoded_if_replaced.
    + exact Hrest.
    + unfold column_names. simpl. rewrite names_replaced; [done|].
      unfold encoded. simpl. exact Hn.
Qed.

End EncodingFacts.

(** *** What [linear_regression] does to the table and returns *)

Section RegressionFacts.
Variable lib : Library.
Variable repr_str : str -> str.

Lemma regress_seeded (g1 g2 : N) (data : DataFrame) (input_columns : list str)
      (output_columns : columns_arg) :
  seeded lib ->
  regress lib repr_str g2 data input_columns output_columns
  = regress lib repr_str g1 data input_columns output_columns.
Proof.
  intros Hseed. unfold regress.
  destruct (getitem_list data input_columns) as [x|]; [|done]. simpl.
  destruct (output_values data output_columns) as [y|]; [|done]. simpl.
  by rewrite (Hseed g2 g1).
Qed.

(** C7. Two invocations of the fit on the same data give identical results
    (the same formula, errors, test rows, predictions and model, or the same
    exception), whatever the state of the random generator at each call,
    because the split is seeded with 42. That holds for two calls on equal
    tables and for a second call on the caller's table as the first call left
    it, which the second call leaves unchanged. *)
Theorem linear_regression_reproducible
        (g1 g2 : N) (data : DataFrame) (input_columns : list str)
        (output_columns : columns_arg) :
  seeded lib ->
  linear_regression lib repr_str g2 data input_columns output_columns
  = linear_regression lib repr_str g1 data input_columns output_columns
  /\ linear_regression lib repr_str g2
       (linear_regression lib repr_str g1 data input_columns output_columns).1
       input_columns output_columns
     = linear_regression lib repr_str g1 data input_columns output_columns.
Proof.
  intros Hseed. unfold linear_regression.
  destruct (encode_columns lib (select_dtypes_exclude_number data) data)
    as [d1 r] eqn:He.
  pose proof (encode_columns_again lib _ _ _ _ eq_refl He) as He1.
  destruct r as [[]|e]; simpl; rewrite He1;
    rewrite ?(regress_seeded g1 g2) by done; done.
Qed.

(** C9. [linear_regression] changes the caller's table in place: when the
    column names are distinct, the table after the call has the same row
    labels, every numeric column as it was, and every non-numeric column
    (the output column too) replaced by its label codes as [float64]; the
    original cells of such a column are gone. *)
Theorem linear_regression_overwrites
        (generator : N) (data : DataFrame) (input_columns : list str)
        (output_columns : columns_arg) :
  NoDup (column_names data) ->
  let data' :=
    (linear_regression lib repr_str generator data input_columns output_columns).1 in
  df_index data' = df_index data
  /\ df_columns data' = map (encoded_if_non_numeric lib) (df_columns data)
  /\ (forall (i : nat) (c : Series),
         df_columns data !! i = Some c ->
         is_number (s_dtype c) = false ->
         df_columns data' !! i = Some (encoded lib c) /\ encoded lib c <> c).
Proof.
  intros Hnd. unfold linear_regression.
  rewrite (encode_columns_distinct lib _ _ eq_refl Hnd). simpl.
  split; [done|]. split; [done|].
  intros i c Hi Hnum. split.
  - rewrite list_lookup_fmap, Hi. simpl.
    unfold encoded_if_non_numeric. by rewrite Hnum.
  - intros Heq. rewrite <- Heq in Hnum. done.
Qed.

End RegressionFacts.

Lemma formula_terms_all (terms : list (float * str)) :
  forall (done_cols : list str) (formula : str),
  formula_terms (length done_cols) (map fst terms)
                (done_cols ++ map snd terms) formula
  = Ok (formula ++ concat (map term_str terms)).
Proof.
  induction terms as [|[coef col] terms IH]; intros done_cols formula;
    cbn [map fst snd formula_terms concat].
  - by rewrite app_nil_r.
  - rewrite list_lookup_middle by done.
    replace (S (length done_cols)) with (length (done_cols ++ [col]))
      by (rewrite length_app; simpl; lia).
    replace (done_cols ++ col :: map snd terms)
      with ((done_cols ++ [col]) ++ map snd terms) by by rewrite <- app_assoc.
    rewrite IH. unfold term_str at 2. cbn [fst snd].
    by rewrite <- !app_assoc.
Qed.



Example format_2f_samples :
  map format_2f [0.125; 0.375; 2; (-0.0009765625); 12345.6875; 99.9951171875;
                 nan; neg_infinity]%float
  = map cps ["0.12"; "0.38"; "2.00"; "-0.00"; "12345.69"; "100.00"; "nan"; "-inf"].
Proof. vm_compute. reflexivity. Qed.

Example formula_sample :
  build_formula repr_plain (ColName (cps "y")) (mkModel [2%float; (-0.375)%float] 0.125%float)
                [cps "x"; cps "z"]
  = Ok (cps "y = 0.12 + (2.00) * x + (-0.38) * z").
Proof. vm_compute. reflexivity. Qed.

(** The wizard passes the list of the selected targets, and the formula then
    starts with the text of that list. *)
Example formula_of_wizard :
  build_formula repr_plain (ColList [cps "y"]) (mkModel [2%float] 0%float) [cps "x"]
  = Ok (cps "['y'] = 0.00 + (2.00) * x").
Proof. vm_compute. reflexivity. Qed.


(** *** A stand-in library and a sample run *)

Example sample_table_encoded :
  (linear_regression canned_library repr_plain 0 sample_table
                     [cps "x"] (ColList [cps "y"])).1
  = {| df_index := [0; 1; 2; 3]%Z;
       df_columns :=
         [mkSeries (cps "city") Float64
                   [VFloat 2%float; VFloat 0%float; VFloat 2%float; VFloat 1%float];
          mkSeries (cps "x") Int64 [VInt 1; VInt 2; VInt 3; VInt 4];
          mkSeries (cps "y") Float64
                   [VFloat 2%float; VFloat 4%float; VFloat nan; VFloat 6%float]] |}.
Proof. vm_compute. reflexivity. Qed.

Example sample_table_formula :
  match (linear_regression canned_library repr_plain 0 sample_table
                           [cps "x"] (ColList [cps "y"])).2 with
  | Ok o => formula o = cps "['y'] = 0.00 + (2.00) * x"
  | Raise _ => False
  end.
Proof. vm_compute. reflexivity. Qed.


Lemma linear_regression_overwrites_witness :
  NoDup (column_names sample_table)
  /\ (linear_regression canned_library repr_plain 0 sample_table
                        [cps "x"] (ColList [cps "y"])).1.(df_columns) !! 0%nat
     = Some (encoded canned_library
               (mkSeries (cps "city") Object
                  [VStr (cps "Vigo"); VStr (cps "Lugo"); VStr (cps "Vigo"); VNone])).
Proof.
  assert (NoDup (column_names sample_table)) as Hnd.
  { apply (bool_decide_unpack _). by vm_compute. }
  split; [exact Hnd|].
  pose proof (linear_regression_overwrites canned_library repr_plain 0 sample_table
                [cps "x"] (ColList [cps "y"]) Hnd) as (_ & _ & H).
  exact (proj1 (H 0%nat _ eq_refl eq_refl)).
Defined.

Lemma canned_library_seeded : seeded canned_library.
Proof. by intros g1 g2 seed x y. Qed.

Lemma linear_regression_reproducible_witness :
  seeded canned_library
  /\ linear_regression canned_library repr_plain 7 sample_table
                       [cps "x"] (ColList [cps "y"])
     = linear_regression canned_library repr_plain 0 sample_table
                         [cps "x"] (ColList [cps "y"])
  /\ linear_regression canned_library repr_plain 7
       (linear_regression canned_library repr_plain 0 sample_table
                          [cps "x"] (ColList [cps "y"])).1
       [cps "x"] (ColList [cps "y"])
     = linear_regression canned_library repr_plain 0 sample_table
                         [cps "x"] (ColList [cps "y"]).
Proof.
  split; [exact canned_library_seeded|].
  exact (linear_regression_reproducible canned_library repr_plain 0 7 sample_table
           [cps "x"] (ColList [cps "y"]) canned_library_seeded).
Defined.

End ScikitLearn.

(** ** model_management/model_saver.py and model_loader.py *)

Module Persistence.
Import Pandas ScikitLearn.

(** The figure of [plot_regression_graph]: the points it scatters. *)
Record Figure := mkFigure {
  true_values : list value;
  predicted : list float
}.

(** The values of the dictionary [model_data]. *)
Inductive artifact_value :=
| AModel (m : LinearRegression)
| AStr (s : str)
| AFloat (f : float)
| ANames (l : list str)
| AGraph (g : option Figure).

(** What a file holds: a dictionary that [joblib.dump] wrote, or anything
    else, which [joblib.load] refuses. *)
Inductive file :=
| Pickled (d : gmap string artifact_value)
| Foreign (bytes : list N).

(** The files by path, and the paths that can be written. *)
Record FileSystem := mkFS {
  files : gmap str file;
  writable : str -> bool
}.

(** [joblib.dump(d, path)] *)
Definition joblib_dump (d : gmap string artifact_value) (path : str)
           (fs : FileSystem) : FileSystem * result unit :=
  if writable fs path
  then (mkFS (<[path := Pickled d]> (files fs)) (writable fs), Ok tt)
  else (fs, Raise (Exn (OtherError "OSError") path)).

(** [joblib.load(path)] *)
Definition joblib_load (path : str) (fs : FileSystem)
  : result (gmap string artifact_value) :=
  match files fs !! path with
  | Some (Pickled d) => Ok d
  | Some (Foreign _) => Raise (Exn (OtherError "UnpicklingError") path)
  | None => Raise (Exn FileNotFoundError path)
  end.

Record ModelSaver := mkSaver {
  sv_model : LinearRegression;
  sv_formula : str;
  sv_r_squared : float;
  sv_mse : float;
  sv_input_columns : list str;
  sv_output_column : list str;
  sv_description : str;
  sv_graph : option Figure
}.

(** The message box that a method shows. *)
Inductive dialog :=
| Information (text : str)
| Critical (text : str).

Definition model_data_of (self : ModelSaver) : gmap string artifact_value :=
  let description :=
    match strip (sv_description self) with
    | [] => cps "No description provided."
    | d => d
    end in
  <["model" := AModel (sv_model self)]>
  (<["formula" := AStr (sv_formula self)]>
  (<["r_squared" := AFloat (sv_r_squared self)]>
  (<["mse" := AFloat (sv_mse self)]>
  (<["input_columns" := ANames (sv_input_columns self)]>
  (<["output_column" := ANames (sv_output_column self)]>
  (<["description" := AStr description]>
  (<["graph" := AGraph (sv_graph self)]> ∅))))))).

(** [ModelSaver.save_model]: every exception ends in an error box. *)
Definition save_model (self : ModelSaver) (file_path : str) (fs : FileSystem)
  : FileSystem * dialog :=
  match joblib_dump (model_data_of self) file_path fs with
  | (fs', Ok _) => (fs', Information (cps "Model saved successfully."))
  | (fs', Raise e) => (fs', Critical (cps "Could not save the model: " ++ exn_msg e))
  end.

(** [ModelLoader.load_model]: the dictionary, or [None] after an error. *)
Definition load_model (file_path : str) (fs : FileSystem)
  : option (gmap string artifact_value) :=
  match joblib_load file_path fs with
  | Ok model_data => Some model_data
  | Raise _ => None
  end.

(** [model_data.get('model', None)], the model of [ModelWindow]. *)
Definition model_of (model_data : gmap string artifact_value) : option LinearRegression :=
  match model_data !! "model" with
  | Some (AModel m) => Some m
  | _ => None
  end.

(** The prediction that a window computes with its model, when it has one. *)
Definition window_predict (lib : Library) (m : option LinearRegression)
           (input_df : list Series) : result (list float) :=
  match m with
  | Some model => predict lib model input_df
  | None => Raise (Exn AttributeError (cps "The model is not available."))
  end.

Definition sample_saver : ModelSaver :=
  {| sv_model := mkModel [2%float] 0%float;
     sv_formula := cps "y = 2x";
     sv_r_squared := 1%float;
     sv_mse := 0%float;
     sv_input_columns := [cps "x"];
     sv_output_column := [cps "y"];
     sv_description := cps "Test model";
     sv_graph := None |}.

Definition empty_disk : FileSystem := mkFS ∅ (fun _ => true).

(** C5. When [save_model] has saved an artifact (it reports success), loading
    from the same path gives the dictionary that was saved; its model is the
    model that was saved, so its prediction on every input is the prediction
    of the original model. *)
Theorem save_then_load_predicts (lib : Library) (self : ModelSaver)
        (file_path : str) (fs : FileSystem) (input_df : list Series) :
  (save_model self file_path fs).2 = Information (cps "Model saved successfully.") ->
  exists model_data,
    load_model file_path (save_model self file_path fs).1 = Some model_data
    /\ model_data = model_data_of self
    /\ model_of model_data = Some (sv_model self)
    /\ window_predict lib (model_of model_data) input_df
       = predict lib (sv_model self) input_df.
Proof.
  intros Hsaved. exists (model_data_of self). revert Hsaved.
  unfold save_model, joblib_dump, load_model, joblib_load.
  destruct (writable fs file_path); [intros _|done]. simpl.
  rewrite lookup_insert_eq.
  assert (model_of (model_data_of self) = Some (sv_model self)) as Hm.
  { unfold model_of, model_data_of. by rewrite lookup_insert_eq. }
  by rewrite Hm.
Qed.

(** A path that cannot be written: nothing is saved, and the load fails. *)
Lemma save_unwritable (self : ModelSaver) (file_path : str) (fs : FileSystem) :
  writable fs file_path = false ->
  (save_model self file_path fs).1 = fs.
Proof. intros Hw. unfold save_model, joblib_dump. by rewrite Hw. Qed.

Lemma save_then_load_predicts_witness :
  (save_model sample_saver (cps "model.joblib") empty_disk).2
  = Information (cps "Model saved successfully.")
  /\ exists model_data,
      load_model (cps "model.joblib")
                 (save_model sample_saver (cps "model.joblib") empty_disk).1
      = Some model_data
      /\ model_data = model_data_of sample_saver
      /\ model_of model_data = Some (sv_model sample_saver)
      /\ window_predict canned_library (model_of model_data)
                        [mkSeries (cps "x") Float64 [VFloat 4%float]]
         = predict canned_library (sv_model sample_saver)
                   [mkSeries (cps "x") Float64 [VFloat 4%float]].
Proof.
  split; [reflexivity|].
  exact (save_then_load_predicts canned_library sample_saver (cps "model.joblib")
           empty_disk [mkSeries (cps "x") Float64 [VFloat 4%float]] eq_refl).
Defined.

End Persistence.

(** ** ui/features.py and data_preparation/data_preprocessing.py *)

Module Features.
Import Pandas ScikitLearn.

(** The widgets that carry a handler or feed one. Labels, separators and the
    table view are left out: no handler reads them. *)
Inductive widget :=
| welcome_window
| load_button
| load_model_button
| back_button
| preprocessing_options
| apply_button
| radio_simple
| radio_multiple
| feature_selector
| target_selector
| confirm_button
| create_model_button
| return_button
| next_button.

Definition widget_id (w : widget) : nat :=
  match w with
  | welcome_window => 0
  | load_button => 1
  | load_model_button => 2
  | back_button => 3
  | preprocessing_options => 4
  | apply_button => 5
  | radio_simple => 6
  | radio_multiple => 7
  | feature_selector => 8
  | target_selector => 9
  | confirm_button => 10
  | create_model_button => 11
  | return_button => 12
  | next_button => 13
  end.

Definition widget_eqb (a b : widget) : bool := widget_id a =? widget_id b.

Definition first_step_layout : list widget :=
  [load_button; load_model_button; back_button].
Definition nan_layout : list widget := [preprocessing_options; apply_button].
Definition regresion_layout : list widget :=
  [radio_simple; radio_multiple; feature_selector; target_selector;
   confirm_button; create_model_button].
Definition NBlayout : list widget := [return_button; next_button].
Definition main_layout : list widget :=
  welcome_window :: first_step_layout ++ nan_layout ++ regresion_layout ++ NBlayout.

(** The entries of the combo box [preprocessing_options]. *)
Definition items : list string :=
  ["Select an option...";
   "🗑️ Remove Rows with Missing Values";
   "📊 Fill with Mean";
   "📊 Fill with Median";
   "✏️ Fill with a Constant Value"].

(** The attributes of a [DataViewer] that the handlers read or write.
    [data_table] tells whether the attribute holds a [Table] (the [Table]
    wraps the object [df] itself); [nan_data] is [None] until
    [detect_missing_values] creates the attribute; [visible] and [enabled]
    are the flags of the widgets, [current_index] the selected entry of
    [preprocessing_options]. *)
Record Viewer := mkViewer {
  df : option DataFrame;
  last_file_path : option str;
  input_columns : list str;
  output_column : list str;
  empty_values : bool;
  data_table : bool;
  nan_solved : bool;
  nan_data : option bool;
  move : Z;
  visible : widget -> bool;
  enabled : widget -> bool;
  current_index : nat
}.

Definition set_df (x : option DataFrame) (v : Viewer) : Viewer :=
  mkViewer x (last_file_path v) (input_columns v) (output_column v) (empty_values v) (data_table v) (nan_solved v) (nan_data v) (move v) (visible v) (enabled v) (current_index v).

Definition set_last_file_path (x : option str) (v : Viewer) : Viewer :=
  mkViewer (df v) x (input_columns v) (output_column v) (empty_values v) (data_table v) (nan_solved v) (nan_data v) (move v) (visible v) (enabled v) (current_index v).

Definition set_input_columns (x : list str) (v : Viewer) : Viewer :=
  mkViewer (df v) (last_file_path v) x (output_column v) (empty_values v) (data_table v) (nan_solved v) (nan_data v) (move v) (visible v) (enabled v) (current_index v).

Definition set_output_column (x : list str) (v : Viewer) : Viewer :=
  mkViewer (df v) (last_file_path v) (input_columns v) x (empty_values v) (data_table v) (nan_solved v) (nan_data v) (move v) (visible v) (enabled v) (current_index v).

Definition set_empty_values (x : bool) (v : Viewer) : Viewer :=
  mkViewer (df v) (last_file_path v) (input_columns v) (output_column v) x (data_table v) (nan_solved v) (nan_data v) (move v) (visible v) (enabled v) (current_index v).

Definition set_data_table (x : bool) (v : Viewer) : Viewer :=
  mkViewer (df v) (last_file_path v) (input_columns v) (output_column v) (empty_values v) x (nan_solved v) (nan_data v) (move v) (visible v) (enabled v) (current_index v).

Definition set_nan_solved (x : bool) (v : Viewer) : Viewer :=
  mkViewer (df v) (last_file_path v) (input_columns v) (output_column v) (empty_values v) (data_table v) x (nan_data v) (move v) (visible v) (enabled v) (current_index v).

Definition set_nan_data (x : option bool) (v : Viewer) : Viewer :=
  mkViewer (df v) (last_file_path v) (input_columns v) (output_column v) (empty_values v) (data_table v) (nan_solved v) x (move v) (visible v) (enabled v) (current_index v).

Definition set_move (x : Z) (v : Viewer) : Viewer :=
  mkViewer (df v) (last_file_path v) (input_columns v) (output_column v) (empty_values v) (data_table v) (nan_solved v) (nan_data v) x (visible v) (enabled v) (current_index v).

Definition set_visible (x : widget -> bool) (v : Viewer) : Viewer :=
  mkViewer (df v) (last_file_path v) (input_columns v) (output_column v) (empty_values v) (data_table v) (nan_solved v) (nan_data v) (move v) x (enabled v) (current_index v).

Definition set_enabled (x : widget -> bool) (v : Viewer) : Viewer :=
  mkViewer (df v) (last_file_path v) (input_columns v) (output_column v) (empty_values v) (data_table v) (nan_solved v) (nan_data v) (move v) (visible v) x (current_index v).

Definition set_current_index (x : nat) (v : Viewer) : Viewer :=
  mkViewer (df v) (last_file_path v) (input_columns v) (output_column v) (empty_values v) (data_table v) (nan_solved v) (nan_data v) (move v) (visible v) (enabled v) x.

(** The state that [__init__] and [initUI] leave: only the welcome window
    shows; [next_button] and [apply_button] are disabled. *)
Definition initial : Viewer :=
  {| df := None;
     last_file_path := None;
     input_columns := [];
     output_column := [];
     empty_values := false;
     data_table := false;
     nan_solved := false;
     nan_data := None;
     move := 1;
     visible := fun w => widget_eqb w welcome_window;
     enabled := fun w => negb (widget_eqb w next_button || widget_eqb w apply_button);
     current_index := 0 |}.

Definition setVisible (w : widget) (b : bool) (v : Viewer) : Viewer :=
  set_visible (fun w' => if widget_eqb w' w then b else visible v w') v.

Definition setEnabled (w : widget) (b : bool) (v : Viewer) : Viewer :=
  set_enabled (fun w' => if widget_eqb w' w then b else enabled v w') v.

(** [LayoutHelper.layout_visibility(True, visibility, layout)] *)
Definition layout_visibility (visibility : bool) (layout : list widget) (v : Viewer) : Viewer :=
  set_visible (fun w => if existsb (widget_eqb w) layout then visibility else visible v w) v.

(** A click reaches a widget that shows and is enabled. *)
Definition clickable (w : widget) (v : Viewer) : bool := visible v w && enabled v w.

Definition display_data_in_table (v : Viewer) : Viewer :=
  let v := set_data_table true v in
  let v := setVisible load_button false v in
  let v := setEnabled next_button true v in
  if (move v =? 1)%Z then setVisible back_button true v
  else setVisible back_button false v.

Definition preprocessing_button (v : Viewer) : Viewer :=
  if current_index v =? 0 then setEnabled apply_button false v
  else setEnabled apply_button true v.

(** [preprocessing_options.setCurrentIndex(i)]: the signal
    [currentIndexChanged] runs [preprocessing_button] when the index changes. *)
Definition setCurrentIndex (i : nat) (v : Viewer) : Viewer :=
  if current_index v =? i then v
  else preprocessing_button (set_current_index i v).

(** *** data_preprocessing.py *)

Definition total_missing (d : DataFrame) : nat :=
  list_sum (map snd (isnull_sum d)).

Definition detect_missing_values (viewer : Viewer) : Viewer :=
  match df viewer with
  | None => viewer
  | Some d =>
      if negb (total_missing d =? 0) then
        let viewer := set_empty_values true viewer in
        let viewer := set_nan_data (Some true) viewer in
        let viewer := setCurrentIndex 0 viewer in
        setEnabled preprocessing_options true viewer
      else set_empty_values false viewer
  end.

Definition remove_missing_values (viewer : Viewer) : Viewer * result unit :=
  match df viewer with
  | None => (viewer, Ok tt)
  | Some d =>
      let viewer := set_df (Some (dropna d)) viewer in
      (display_data_in_table viewer, Ok tt)
  end.

(** The strategies of [SimpleImputer]. *)
Inductive strategy :=
| Mean
| Median
| Constant (fill_value : float).

Section Preprocessing.

(** [SimpleImputer(strategy=...).fit_transform]: from the columns of a table
    to an array, or an exception. *)
Variable fit_transform : strategy -> list (list float) -> result ndarray.

(** [viewer.df[num_cols] = imputer.fit_transform(viewer.df[num_cols])] on the
    table [d]. *)
Definition impute (st : strategy) (d : DataFrame) : result DataFrame :=
  let num_cols := select_dtypes_number d in
  cols ← getitem_list d num_cols;
  x ← to_numpy cols;
  a ← fit_transform st x;
  setitem_array d num_cols a.

(** The common body of the three fill functions; the table object is changed
    in place, or not at all when the statement raises. *)
Definition fill_with (st : strategy) (viewer : Viewer) : Viewer * result unit :=
  match df viewer with
  | None => (viewer, Ok tt)
  | Some d =>
      match impute st d with
      | Raise e => (viewer, Raise e)
      | Ok d' =>
          let viewer := set_df (Some d') viewer in
          (display_data_in_table viewer, Ok tt)
      end
  end.

Definition fill_with_mean (viewer : Viewer) : Viewer * result unit :=
  fill_with Mean viewer.

Definition fill_with_median (viewer : Viewer) : Viewer * result unit :=
  fill_with Median viewer.

(** [value] and [ok] are what [QInputDialog.getDouble] returns. *)
Definition fill_with_constant (value : float) (ok : bool) (viewer : Viewer)
  : Viewer * result unit :=
  if ok then fill_with (Constant value) viewer else (viewer, Ok tt).

(** *** features.py: the handlers *)

Variable lib : Library.
Variable repr_str : str -> str.

Definition load_data (env : ImportFiles.Env) (file_path : str) (v : Viewer) : Viewer :=
  match ImportFiles.import_data env file_path with
  | Raise _ => v
  | Ok d =>
      let v := set_df (Some d) v in
      if negb (empty d) then detect_missing_values (display_data_in_table v)
      else v
  end.

(** [file_path] is what the file dialog returns (empty when cancelled), [yes]
    the answer to the question about loading the same file again. *)
Definition open_file_dialog (env : ImportFiles.Env) (file_path : str) (yes : bool)
           (v : Viewer) : Viewer :=
  match file_path with
  | [] => v
  | _ =>
      if bool_decide (last_file_path v = Some file_path) then
        if yes then load_data env file_path v else v
      else load_data env file_path (set_last_file_path (Some file_path) v)
  end.

(** [open_file_dialog] returns [None], so nothing follows the call. *)
Definition clear_table_and_choose_file := open_file_dialog.

Definition confirm_selection (selected_features selected_target : list str)
           (v : Viewer) : Viewer :=
  set_output_column selected_target (set_input_columns selected_features v).

(** The body of the [try] block of [confirm_preprocessing] up to the strategy. *)
Definition apply_strategy (value : float) (ok : bool) (v : Viewer) : Viewer * result unit :=
  let option := nth (current_index v) items ""%string in
  if String.eqb option "🗑️ Remove Rows with Missing Values" then remove_missing_values v
  else if String.eqb option "📊 Fill with Mean" then fill_with_mean v
  else if String.eqb option "📊 Fill with Median" then fill_with_median v
  else if String.eqb option "✏️ Fill with a Constant Value" then fill_with_constant value ok v
  else (v, Ok tt).

Definition confirm_preprocessing (value : float) (ok : bool) (v : Viewer) : Viewer :=
  let option := nth (current_index v) items ""%string in
  if String.eqb option "" then v
  else
    match apply_strategy value ok v with
    | (v, Raise _) => v
    | (v, Ok _) =>
        let v := set_nan_data (Some false) v in
        let v := setEnabled next_button true v in
        let v := set_nan_solved true v in
        let v := setEnabled preprocessing_options false v in
        let v := setEnabled apply_button false v in
        display_data_in_table v
    end.

(** [ResultWindow(self.df, ...)] runs [linear_regression] on the object
    [self.df]; every exception ends in an error box. *)
Definition show_results (generator : N) (v : Viewer) : Viewer :=
  match df v with
  | None => v
  | Some d =>
      set_df (Some (linear_regression lib repr_str generator d (input_columns v)
                                      (ColList (output_column v))).1) v
  end.

(** The part of [steps_guide] that is not a label. *)
Definition steps_guide (v : Viewer) : Viewer * result unit :=
  if (move v =? 2)%Z then
    match nan_data v with
    | None => (v, Raise (Exn AttributeError (cps "nan_data")))
    | Some true => (setEnabled next_button false v, Ok tt)
    | Some false => (setEnabled next_button true v, Ok tt)
    end
  else (v, Ok tt).

Definition drive_through (v : Viewer) : Viewer * result unit :=
  let v := layout_visibility false main_layout v in
  let v := layout_visibility true NBlayout v in
  if (move v =? 1)%Z then
    match steps_guide v with
    | (v, Raise e) => (v, Raise e)
    | (v, Ok _) =>
        let v := layout_visibility true first_step_layout v in
        let v := setEnabled return_button false v in
        if negb (data_table v) then
          (setEnabled next_button false (setVisible back_button false v), Ok tt)
        else
          (setEnabled next_button true (setVisible load_button false v), Ok tt)
    end
  else if (move v =? 2)%Z then
    match steps_guide v with
    | (v, Raise e) => (v, Raise e)
    | (v, Ok _) =>
        let v := layout_visibility true nan_layout v in
        let v := setEnabled return_button true v in
        let v := setVisible back_button false v in
        if negb (nan_solved v) then (setEnabled next_button false v, Ok tt)
        else (setEnabled next_button true v, Ok tt)
    end
  else if (move v =? 3)%Z then
    match steps_guide v with
    | (v, Raise e) => (v, Raise e)
    | (v, Ok _) =>
        let v := layout_visibility true regresion_layout v in
        let v := setEnabled next_button false v in
        (setEnabled return_button true v, Ok tt)
    end
  else (v, Ok tt).

Definition delete_welcome (v : Viewer) : Viewer * result unit :=
  drive_through (setVisible welcome_window false v).

Definition next (v : Viewer) : Viewer * result unit :=
  if (move v <? 3)%Z then
    let v := if empty_values v then set_move (move v + 1)%Z v
             else set_move (move v + 2)%Z v in
    drive_through v
  else (v, Ok tt).

Definition back (v : Viewer) : Viewer * result unit :=
  if (1 <? move v)%Z then
    let v := if empty_values v then set_move (move v - 1)%Z v
             else set_move (move v - 2)%Z v in
    drive_through v
  else (v, Ok tt).

(** *** The event loop *)

(** What the user can do, with what the dialogs and the disk answer. *)
Inductive Event :=
| Start
| ClickLoad (env : ImportFiles.Env) (file_path : str) (yes : bool)
| ClickChooseAnother (env : ImportFiles.Env) (file_path : str) (yes : bool)
| ClickNext
| ClickBack
| SelectOption (i : nat)
| ClickApply (value : float) (ok : bool)
| ConfirmSelection (selected_features selected_target : list str)
| ClickCreateModel (generator : N).

(** The widget that an event goes through. *)
Definition source (e : Event) : widget :=
  match e with
  | Start => welcome_window
  | ClickLoad _ _ _ => load_button
  | ClickChooseAnother _ _ _ => back_button
  | ClickNext => next_button
  | ClickBack => return_button
  | SelectOption _ => preprocessing_options
  | ClickApply _ _ => apply_button
  | ConfirmSelection _ _ => confirm_button
  | ClickCreateModel _ => create_model_button
  end.

Definition possible (e : Event) (v : Viewer) : bool :=
  clickable (source e) v
  && match e with
     | SelectOption i => i <? length items
     | _ => true
     end.

(** The slot that the event runs; an exception that leaves a slot ends the
    slot, and the state is the one it had reached. *)
Definition handle (e : Event) (v : Viewer) : Viewer :=
  match e with
  | Start => (delete_welcome v).1
  | ClickLoad env file_path yes => open_file_dialog env file_path yes v
  | ClickChooseAnother env file_path yes => clear_table_and_choose_file env file_path yes v
  | ClickNext => (next v).1
  | ClickBack => (back v).1
  | SelectOption i => setCurrentIndex i v
  | ClickApply value ok => confirm_preprocessing value ok v
  | ConfirmSelection f t => confirm_selection f t v
  | ClickCreateModel generator => show_results generator v
  end.

Definition step (v : Viewer) (e : Event) : Viewer :=
  if possible e v then handle e v else v.

(** The state after a sequence of events, from the state [v]. *)
Definition run (es : list Event) (v : Viewer) : Viewer := fold_left step es v.

(** The event is a click on Apply that reaches the end of the [try] block of
    [confirm_preprocessing]: a strategy has been confirmed. *)
Definition confirms (e : Event) (v : Viewer) : bool :=
  match e with
  | ClickApply value ok =>
      possible e v
      && (0 <? current_index v) && (current_index v <? length items)
      && is_ok (apply_strategy value ok v).2
  | _ => false
  end.

(** Some event of the sequence confirmed a strategy. *)
Fixpoint confirmed (es : list Event) (v : Viewer) : bool :=
  match es with
  | [] => false
  | e :: es' => confirms e v || confirmed es' (step v e)
  end.

End Preprocessing.

(** *** Vocabulary of the proofs, and samples *)

(** The non-numeric columns of [d] stand unchanged in [d'], each at its place. *)
Definition non_numeric_kept (d d' : DataFrame) : Prop :=
  forall (i : nat) (c : Series),
    df_columns d !! i = Some c ->
    is_number (s_dtype c) = false ->
    df_columns d' !! i = Some c.

(** What every reachable state satisfies. *)
Record Inv (v : Viewer) : Prop := mkInv {
  inv_range : (1 <= move v <= 3)%Z;
  inv_clean : move v = 2%Z -> empty_values v = true;
  inv_load : move v <> 1%Z ->
             visible v load_button = false /\ visible v back_button = false;
  inv_next : move v = 2%Z -> enabled v next_button = true -> nan_solved v = true;
  inv_apply : enabled v apply_button = true -> 0 < current_index v;
  inv_attr : empty_values v = true -> nan_data v <> None;
  inv_index : current_index v < length items
}.

Ltac split_ifs :=
  repeat match goal with
         | |- context [if ?b then _ else _] => destruct b eqn:?
         | |- context [match ?x with Some _ => _ | None => _ end] => destruct x eqn:?
         | |- context [match ?x with Ok _ => _ | Raise _ => _ end] => destruct x eqn:?
         end.

(** [SimpleImputer] as scikit-learn documents it, to run the strategies on
    samples: the statistic of a column is taken over its observed values (sums
    from left to right), a column without observed values is left out of the
    result except under the constant strategy, and a table without columns or
    without rows is refused. *)
Definition observed (col : list float) : list float :=
  List.filter (fun x => negb (PrimFloat.is_nan x)) col.

Definition mean_of (l : list float) : float :=
  (fold_left PrimFloat.add l 0 / float_of_Z (Z.of_nat (length l)))%float.

Fixpoint insert_sorted (x : float) (l : list float) : list float :=
  match l with
  | [] => [x]
  | y :: l' => if PrimFloat.leb x y then x :: l else y :: insert_sorted x l'
  end.

Definition median_of (l : list float) : float :=
  let sorted := fold_right insert_sorted [] l in
  let n := length l in
  if Nat.even n
  then ((nth (n / 2 - 1) sorted nan + nth (n / 2) sorted nan) / 2)%float
  else nth (n / 2) sorted nan.

Definition impute_column (st : strategy) (col : list float) : option (list float) :=
  let fill v := map (fun x => if PrimFloat.is_nan x then v else x) col in
  match st, observed col with
  | Constant v, _ => Some (fill v)
  | _, [] => None
  | Mean, obs => Some (fill (mean_of obs))
  | Median, obs => Some (fill (median_of obs))
  end.

Definition simple_imputer (st : strategy) (x : list (list float)) : result ndarray :=
  match x with
  | [] => Raise (Exn ValueError (cps "at least one array or dtype is required"))
  | [] :: _ => Raise (Exn ValueError (cps "Found array with 0 sample(s)"))
  | col :: _ => Ok (mkArray (length col) (omap (impute_column st) x))
  end.

Definition sample_viewer : Viewer := set_df (Some sample_table) initial.

(** A disk with one CSV file that holds the sample table, and one that holds
    a table without missing values. *)
Definition complete_table : DataFrame :=
  {| df_index := [0; 1]%Z;
     df_columns :=
       [mkSeries (cps "x") Int64 [VInt 1; VInt 2];
        mkSeries (cps "y") Float64 [VFloat 2%float; VFloat 4%float]] |}.

Definition sample_env : ImportFiles.Env :=
  {| ImportFiles.is_sep := fun x => (x =? 47)%N;
     ImportFiles.path_exists := fun p =>
       bool_decide (p = cps "gaps.csv") || bool_decide (p = cps "full.csv");
     ImportFiles.read_csv := fun p =>
       if bool_decide (p = cps "gaps.csv") then Ok sample_table else Ok complete_table;
     ImportFiles.read_excel := fun _ => Raise (Exn ValueError []);
     ImportFiles.read_sqlite := fun _ => Raise (Exn (OtherError "DatabaseError") []);
     ImportFiles.unicode_lower := ImportFiles.ascii_lower |}.

Definition to_clean_step : list Event :=
  [Start; ClickLoad sample_env (cps "gaps.csv") true; ClickNext].

Definition sample_run (es : list Event) : Viewer :=
  run simple_imputer canned_library repr_plain es initial.

(** *** The missing-value strategies *)

Section PreprocessingFacts.
Variable fit_transform : strategy -> list (list float) -> result ndarray.

Lemma set_column_index d n s : df_index (set_column d n s) = df_index d.
Proof. done. Qed.

Lemma fold_set_column_index (ncs : list (str * list float)) : forall d,
  df_index (fold_left (fun d nc => set_column d nc.1 (float_series nc.1 nc.2)) ncs d)
  = df_index d.
Proof. induction ncs as [|nc ncs IH]; intros d; simpl; [done|]. by rewrite IH. Qed.

Lemma setitem_array_index d names a d' :
  setitem_array d names a = Ok d' -> df_index d' = df_index d.
Proof.
  unfold setitem_array.
  destruct (negb (length names =? length (array_cols a))); [done|].
  destruct (negb (forallb _ (array_cols a))); [done|].
  intros [= <-]. by rewrite fold_set_column_index.
Qed.

Lemma impute_index st d d' :
  impute fit_transform st d = Ok d' -> df_index d' = df_index d.
Proof.
  unfold impute.
  destruct (getitem_list d (select_dtypes_number d)) as [cols|]; [|done]. simpl.
  destruct (to_numpy cols) as [x|]; [|done]. simpl.
  destruct (fit_transform st x) as [a|]; [|done]. simpl.
  apply setitem_array_index.
Qed.

Lemma impute_len st d d' : impute fit_transform st d = Ok d' -> len d' = len d.
Proof. intros H. unfold len. by rewrite (impute_index _ _ _ H). Qed.

Lemma existsb_named_false n cols :
  existsb (fun c => bool_decide (s_name c = n)) cols = false ->
  ~ In n (map s_name cols).
Proof.
  induction cols as [|c cols IH]; simpl; [tauto|].
  intros [Hc Hrest]%orb_false_elim [Heq|Hin]; [|by apply IH].
  by rewrite bool_decide_eq_true_2 in Hc.
Qed.

(** Assigning a column of the right length keeps a table well formed. *)
Lemma set_column_wf d n s :
  wf d -> s_name s = n -> length (s_values s) = len d -> wf (set_column d n s).
Proof.
  intros [Hlen Hnd] Hn Hs. unfold set_column, wf, column_names, len. simpl.
  destruct (existsb _ (df_columns d)) eqn:Hex.
  - split.
    + apply Forall_map. eapply Forall_impl; [exact Hlen|].
      intros c Hc. simpl. by destruct (bool_decide (s_name c = n)).
    + rewrite map_map.
      erewrite map_ext; [exact Hnd|].
      intros c. simpl. destruct (bool_decide (s_name c = n)) eqn:Hc; [|done].
      apply bool_decide_eq_true in Hc. congruence.
  - split.
    + apply Forall_app. split; [done|]. by constructor.
    + rewrite map_app. simpl. apply NoDup_app. split; [done|].
      split; [|apply NoDup_singleton].
      intros x Hx Hx2. apply list_elem_of_In in Hx, Hx2.
      destruct Hx2 as [Heq|[]]. subst x. rewrite Hn in Hx.
      by apply (existsb_named_false _ _ Hex).
Qed.

Lemma fold_set_column_wf (ncs : list (str * list float)) : forall d,
  wf d ->
  Forall (fun nc => length nc.2 = len d) ncs ->
  wf (fold_left (fun d nc => set_column d nc.1 (float_series nc.1 nc.2)) ncs d).
Proof.
  induction ncs as [|nc ncs IH]; intros d Hwf Hall; simpl; [done|].
  apply Forall_cons in Hall as [Hnc Hall].
  apply IH.
  - apply set_column_wf; [done..|]. simpl. by rewrite length_map.
  - done.
Qed.

Lemma impute_wf st d d' : impute fit_transform st d = Ok d' -> wf d -> wf d'.
Proof.
  unfold impute.
  destruct (getitem_list d (select_dtypes_number d)) as [cols|]; [|done]. simpl.
  destruct (to_numpy cols) as [x|]; [|done]. simpl.
  destruct (fit_transform st x) as [a|]; [|done]. simpl.
  unfold setitem_array.
  destruct (negb (length _ =? length (array_cols a))); [done|].
  destruct (forallb _ (array_cols a)) eqn:Hall; [|done]. simpl.
  intros [= <-] Hwf. apply fold_set_column_wf; [done|].
  apply Forall_forall. intros [n c] Hin%list_elem_of_In%in_combine_r. simpl.
  rewrite forallb_forall in Hall. specialize (Hall c Hin).
  by apply Nat.eqb_eq in Hall.
Qed.

(** After a fill the viewer holds a table, with the rows it had. *)
Lemma fill_with_len st viewer d :
  df viewer = Some d ->
  exists d', df (fill_with fit_transform st viewer).1 = Some d' /\ len d' = len d.
Proof.
  intros Hd. unfold fill_with. rewrite Hd.
  destruct (impute fit_transform st d) as [d'|e] eqn:Hi; simpl.
  - exists d'. split; [|by eapply impute_len].
    unfold display_data_in_table. simpl. by destruct (1 =? 1)%Z, (move viewer =? 1)%Z.
  - by exists d.
Qed.

Lemma display_data_in_table_df v : df (display_data_in_table v) = df v.
Proof. unfold display_data_in_table. simpl. by destruct (move v =? 1)%Z. Qed.

Lemma set_column_keeps d n s i c :
  n <> s_name c ->
  df_columns d !! i = Some c ->
  df_columns (set_column d n s) !! i = Some c.
Proof.
  intros Hn Hi. unfold set_column. simpl.
  destruct (existsb _ (df_columns d)).
  - rewrite list_lookup_fmap, Hi. simpl.
    by rewrite bool_decide_eq_false_2.
  - by apply lookup_app_l_Some.
Qed.

Lemma fold_set_column_keeps (ncs : list (str * list float)) i c : forall d,
  (forall nc, In nc ncs -> nc.1 <> s_name c) ->
  df_columns d !! i = Some c ->
  df_columns (fold_left (fun d nc => set_column d nc.1 (float_series nc.1 nc.2)) ncs d) !! i
  = Some c.
Proof.
  induction ncs as [|nc ncs IH]; intros d Hn Hi; simpl; [done|].
  apply IH.
  - intros nc' Hin. apply Hn. by right.
  - apply set_column_keeps; [|done]. apply Hn. by left.
Qed.

Lemma NoDup_names_inj (cols : list Series) (a b : Series) :
  NoDup (map s_name cols) -> In a cols -> In b cols -> s_name a = s_name b -> a = b.
Proof.
  induction cols as [|c cols IH]; [done|].
  rewrite map_cons. intros [Hnotin Hnd]%NoDup_cons [->|Ha] [->|Hb] Heq; auto.
  - destruct Hnotin. rewrite Heq. apply list_elem_of_In. by apply in_map.
  - destruct Hnotin. rewrite <- Heq. apply list_elem_of_In. by apply in_map.
Qed.

Lemma impute_keeps st d d' :
  NoDup (column_names d) ->
  impute fit_transform st d = Ok d' ->
  non_numeric_kept d d'.
Proof.
  intros Hnd. unfold impute.
  destruct (getitem_list d (select_dtypes_number d)) as [cols|]; [|done]. simpl.
  destruct (to_numpy cols) as [x|]; [|done]. simpl.
  destruct (fit_transform st x) as [a|]; [|done]. simpl.
  unfold setitem_array.
  destruct (negb (length _ =? length (array_cols a))); [done|].
  destruct (negb (forallb _ (array_cols a))); [done|].
  intros [= <-] i c Hi Hnum.
  apply fold_set_column_keeps; [|done].
  intros [n col] Hin Heq. simpl in Heq.
  apply in_combine_l in Hin. unfold select_dtypes_number in Hin.
  apply in_map_iff in Hin as (c2 & Hn2 & Hin2).
  apply filter_In in Hin2 as [Hin2 Hnum2].
  assert (c2 = c) as ->.
  { eapply NoDup_names_inj; eauto; [|congruence].
    apply list_elem_of_In. by eapply list_elem_of_lookup_2. }
  congruence.
Qed.

Lemma fill_with_keeps st viewer d :
  df viewer = Some d ->
  NoDup (column_names d) ->
  exists d', df (fill_with fit_transform st viewer).1 = Some d' /\ non_numeric_kept d d'.
Proof.
  intros Hd Hnd. unfold fill_with. rewrite Hd.
  destruct (impute fit_transform st d) as [d'|e] eqn:Hi; simpl.
  - exists d'. rewrite display_data_in_table_df. split; [done|].
    by eapply impute_keeps.
  - exists d. split; [done|]. by intros i c Hi' _.
Qed.

(** C3. On every table the fill-mean and fill-median strategies leave a table
    with exactly the rows (the row labels) of the input, whether the imputer
    succeeds or raises, and with one cell per row in every column when the
    input was so; the drop-rows strategy leaves exactly the rows that have no
    missing cell in any column, in their order. *)
Theorem strategies_and_rows (viewer : Viewer) (d : DataFrame) :
  df viewer = Some d ->
  (exists d1, df (fill_with_mean fit_transform viewer).1 = Some d1
              /\ len d1 = len d /\ df_index d1 = df_index d /\ (wf d -> wf d1))
  /\ (exists d2, df (fill_with_median fit_transform viewer).1 = Some d2
                 /\ len d2 = len d /\ df_index d2 = df_index d /\ (wf d -> wf d2))
  /\ (exists d3, df (remove_missing_values viewer).1 = Some d3
                 /\ len d3 = length (List.filter row_complete (rows d))
                 /\ (wf d -> rows d3 = List.filter row_complete (rows d))).
Proof.
  intros Hd. split; [|split].
  - unfold fill_with_mean, fill_with. rewrite Hd.
    destruct (impute fit_transform Mean d) as [d'|e] eqn:Hi; simpl.
    + exists d'. rewrite display_data_in_table_df. split; [done|].
      split; [by eapply impute_len|].
      split; [by eapply impute_index|by eapply impute_wf].
    + by exists d.
  - unfold fill_with_median, fill_with. rewrite Hd.
    destruct (impute fit_transform Median d) as [d'|e] eqn:Hi; simpl.
    + exists d'. rewrite display_data_in_table_df. split; [done|].
      split; [by eapply impute_len|].
      split; [by eapply impute_index|by eapply impute_wf].
    + by exists d.
  - unfold remove_missing_values. rewrite Hd. simpl.
    exists (dropna d). rewrite display_data_in_table_df. split; [done|].
    split; [apply dropna_len|apply dropna_rows].
Qed.

(** C4. The fill-mean, fill-median and fill-constant strategies leave every
    non-numeric column of a table with distinct column names exactly as it
    was, missing cells included. *)
Theorem strategies_keep_non_numeric (viewer : Viewer) (d : DataFrame)
        (value : float) (ok : bool) :
  df viewer = Some d ->
  NoDup (column_names d) ->
  (exists d1, df (fill_with_mean fit_transform viewer).1 = Some d1
              /\ non_numeric_kept d d1)
  /\ (exists d2, df (fill_with_median fit_transform viewer).1 = Some d2
                 /\ non_numeric_kept d d2)
  /\ (exists d3, df (fill_with_constant fit_transform value ok viewer).1 = Some d3
                 /\ non_numeric_kept d d3).
Proof.
  intros Hd Hnd. split; [|split].
  - by apply fill_with_keeps.
  - by apply fill_with_keeps.
  - unfold fill_with_constant. destruct ok.
    + by apply fill_with_keeps.
    + exists d. split; [done|]. by intros i c Hi _.
Qed.

End PreprocessingFacts.

(** *** The wizard *)

Section WizardFacts.
Variable fit_transform : strategy -> list (list float) -> result ndarray.
Variable lib : Library.
Variable repr_str : str -> str.

Local Abbreviation step := (step fit_transform lib repr_str).
Local Abbreviation run := (run fit_transform lib repr_str).
Local Abbreviation handle := (handle fit_transform lib repr_str).
Local Abbreviation confirms := (confirms fit_transform).
Local Abbreviation confirmed := (confirmed fit_transform lib repr_str).

Lemma initial_inv : Inv initial.
Proof. constructor; simpl; try done; lia. Qed.

Lemma steps_guide_frame v :
  let v' := (steps_guide v).1 in
  move v' = move v /\ empty_values v' = empty_values v
  /\ nan_solved v' = nan_solved v /\ current_index v' = current_index v
  /\ data_table v' = data_table v
  /\ visible v' = visible v
  /\ (forall w, w <> next_button -> enabled v' w = enabled v w).
Proof.
  unfold steps_guide. split_ifs; simpl; repeat split; try done;
    intros w Hw; destruct w; simpl; done.
Qed.

(** [drive_through] sets up the step it finds in [move]. *)
Lemma drive_through_inv v :
  (1 <= move v <= 3)%Z ->
  (move v = 2%Z -> empty_values v = true) ->
  (enabled v apply_button = true -> 0 < current_index v) ->
  (empty_values v = true -> nan_data v <> None) ->
  current_index v < length items ->
  Inv (drive_through v).1.
Proof.
  intros Hr Hc Ha Hn Hi. unfold drive_through, steps_guide. cbn -[cps Z.eqb].
  destruct (move v =? 1)%Z eqn:H1.
  - apply Z.eqb_eq in H1. rewrite H1. cbn -[cps].
    destruct (data_table v) eqn:Ht; constructor; cbn -[cps];
      rewrite ?Ht; try lia; done.
  - destruct (move v =? 2)%Z eqn:H2.
    + apply Z.eqb_eq in H2. pose proof (Hn (Hc H2)) as Hn2.
      destruct (nan_data v) as [[]|] eqn:Hd; [| |done]; cbn -[cps];
        destruct (nan_solved v) eqn:Hs; constructor; cbn -[cps];
          rewrite ?Hs, ?Hd; try lia; try done; auto.
    + destruct (move v =? 3)%Z eqn:H3; [|lia].
      constructor; cbn -[cps]; try lia; try done; auto.
Qed.

Lemma drive_through_move v : move (drive_through v).1 = move v.
Proof.
  unfold drive_through, steps_guide. cbn -[cps Z.eqb].
  split_ifs; cbn -[cps]; done.
Qed.

Lemma drive_through_frame v :
  empty_values (drive_through v).1 = empty_values v
  /\ nan_solved (drive_through v).1 = nan_solved v.
Proof.
  unfold drive_through, steps_guide. cbn -[cps Z.eqb].
  split_ifs; cbn -[cps]; done.
Qed.

Lemma next_inv v : Inv v -> Inv (next v).1.
Proof.
  intros [Hr Hc Hl Hn Ha Ht Hi]. unfold next.
  destruct (move v <? 3)%Z eqn:H3; [|by constructor].
  apply Z.ltb_lt in H3. apply drive_through_inv.
  - destruct (empty_values v) eqn:He; simpl; [lia|].
    assert (move v <> 2%Z) by (intros H2; specialize (Hc H2); done). lia.
  - destruct (empty_values v) eqn:He; simpl; [done|lia].
  - destruct (empty_values v); cbn; done.
  - destruct (empty_values v) eqn:He; cbn; rewrite ?He; done.
  - destruct (empty_values v); cbn; done.
Qed.

Lemma back_inv v : Inv v -> Inv (back v).1.
Proof.
  intros [Hr Hc Hl Hn Ha Ht Hi]. unfold back.
  destruct (1 <? move v)%Z eqn:H1; [|by constructor].
  apply Z.ltb_lt in H1. apply drive_through_inv.
  - destruct (empty_values v) eqn:He; simpl; [lia|].
    assert (move v <> 2%Z) by (intros H2; specialize (Hc H2); done). lia.
  - destruct (empty_values v) eqn:He; simpl; [done|lia].
  - destruct (empty_values v); cbn; done.
  - destruct (empty_values v) eqn:He; cbn; rewrite ?He; done.
  - destruct (empty_values v); cbn; done.
Qed.

Lemma delete_welcome_inv v : Inv v -> Inv (delete_welcome v).1.
Proof. intros [Hr Hc Hl Hn Ha Ht Hi]. by apply drive_through_inv. Qed.

Lemma setCurrentIndex_inv i v :
  i < length items -> Inv v -> Inv (setCurrentIndex i v).
Proof.
  intros Hlt [Hr Hc Hl Hn Ha Ht Hi]. unfold setCurrentIndex, preprocessing_button.
  destruct (current_index v =? i) eqn:Hii; [by constructor|].
  cbn. destruct i as [|i]; constructor; cbn; try done; lia.
Qed.

Lemma detect_missing_values_inv v :
  Inv v -> move v = 1%Z -> Inv (detect_missing_values v).
Proof.
  intros Hv H1. unfold detect_missing_values.
  destruct (df v) as [d|]; [|done].
  destruct (negb (total_missing d =? 0)).
  - assert (Inv (set_nan_data (Some true) (set_empty_values true v))) as Hv'.
    { destruct Hv. constructor; cbn; try done. }
    apply (setCurrentIndex_inv 0) in Hv'; [|simpl; lia].
    destruct Hv'. constructor; cbn in *; done.
  - destruct Hv. constructor; cbn; try done; lia.
Qed.

Lemma display_at_load_inv v x :
  Inv v -> move v = 1%Z -> Inv (display_data_in_table (set_df x v)).
Proof.
  intros [Hr Hc Hl Hn Ha Ht Hi] H1. unfold display_data_in_table. cbn -[Z.eqb].
  rewrite H1. constructor; cbn; try done; lia.
Qed.

Lemma display_data_in_table_move v : move (display_data_in_table v) = move v.
Proof. unfold display_data_in_table. cbn -[Z.eqb]. by destruct (move v =? 1)%Z. Qed.

Lemma load_data_inv env file_path v :
  Inv v -> move v = 1%Z -> Inv (load_data env file_path v).
Proof.
  intros Hv H1. unfold load_data.
  destruct (ImportFiles.import_data env file_path) as [d|]; [|done].
  destruct (negb (empty d)).
  - apply detect_missing_values_inv.
    + by apply display_at_load_inv.
    + by rewrite display_data_in_table_move.
  - destruct Hv. by constructor.
Qed.

Lemma open_file_dialog_inv env file_path yes v :
  Inv v -> move v = 1%Z -> Inv (open_file_dialog env file_path yes v).
Proof.
  intros Hv H1. unfold open_file_dialog.
  destruct file_path as [|x p]; [done|].
  destruct (bool_decide _).
  - destruct yes; [by apply load_data_inv|done].
  - apply load_data_inv; [|done]. destruct Hv. by constructor.
Qed.

(** A strategy leaves the viewer as it was or shows a new table. *)
Lemma apply_strategy_cases value ok v :
  (apply_strategy fit_transform value ok v).1 = v
  \/ ((apply_strategy fit_transform value ok v).2 = Ok tt
      /\ exists x, (apply_strategy fit_transform value ok v).1
                   = display_data_in_table (set_df x v)).
Proof.
  unfold apply_strategy, remove_missing_values, fill_with_mean, fill_with_median,
    fill_with_constant, fill_with.
  split_ifs; cbn -[display_data_in_table]; eauto.
Qed.

Lemma confirm_preprocessing_inv value ok v :
  Inv v -> Inv (confirm_preprocessing fit_transform value ok v).
Proof.
  intros Hv. unfold confirm_preprocessing.
  destruct (String.eqb _ ""); [done|].
  destruct (apply_strategy fit_transform value ok v) as [v1 r] eqn:Hs.
  pose proof (apply_strategy_cases value ok v) as Hc. rewrite Hs in Hc. simpl in Hc.
  assert (move v1 = move v /\ empty_values v1 = empty_values v) as [Hm He].
  { destruct Hc as [->|(_ & x & ->)]; [done|].
    rewrite display_data_in_table_move. split; [done|].
    unfold display_data_in_table. cbn -[Z.eqb]. by destruct (move v =? 1)%Z. }
  destruct r as [[]|e].
  - assert (current_index v1 = current_index v) as Hi1.
    { destruct Hc as [->|(_ & x & ->)]; [done|].
      unfold display_data_in_table. cbn -[Z.eqb]. by destruct (move v =? 1)%Z. }
    destruct Hv as [Hr Hcl Hl Hn Ha Ht Hi].
    unfold display_data_in_table. cbn -[Z.eqb]. rewrite Hm.
    destruct (move v =? 1)%Z eqn:H1.
    + apply Z.eqb_eq in H1. constructor; cbn; rewrite ?Hm, ?He, ?Hi1; try done; lia.
    + apply Z.eqb_neq in H1. constructor; cbn; rewrite ?Hm, ?He, ?Hi1; try done.
  - destruct Hc as [->|(Hok & _)]; [done|]. done.
Qed.

Lemma show_results_inv g v : Inv v -> Inv (show_results lib repr_str g v).
Proof.
  intros Hv. unfold show_results. destruct (df v); [|done].
  destruct Hv. by constructor.
Qed.

Lemma confirm_selection_inv f t v : Inv v -> Inv (confirm_selection f t v).
Proof. intros []. by constructor. Qed.

Lemma possible_load_move e v :
  Inv v -> possible e v = true ->
  source e = load_button \/ source e = back_button -> move v = 1%Z.
Proof.
  intros Hv Hp Hsrc. destruct (Z.eq_dec (move v) 1%Z) as [|Hne]; [done|].
  destruct (inv_load v Hv Hne) as [Hl Hb].
  unfold possible, clickable in Hp.
  destruct Hsrc as [Hs|Hs]; rewrite Hs in Hp; rewrite ?Hl, ?Hb in Hp; done.
Qed.

(** Every event keeps the invariant. *)
Lemma step_inv v e : Inv v -> Inv (step v e).
Proof.
  intros Hv. unfold Features.step.
  destruct (possible e v) eqn:Hp; [|done].
  destruct e; cbn [Features.handle].
  - by apply delete_welcome_inv.
  - apply open_file_dialog_inv; [done|].
    eapply possible_load_move; eauto.
  - apply open_file_dialog_inv; [done|].
    eapply possible_load_move; eauto.
  - by apply next_inv.
  - by apply back_inv.
  - apply setCurrentIndex_inv; [|done].
    unfold possible in Hp. apply andb_prop in Hp as [_ Hp]. by apply Nat.ltb_lt.
  - by apply confirm_preprocessing_inv.
  - by apply confirm_selection_inv.
  - by apply show_results_inv.
Qed.

Lemma run_inv es : forall v, Inv v -> Inv (run es v).
Proof.
  induction es as [|e es IH]; intros v Hv; simpl; [done|].
  apply IH. by apply step_inv.
Qed.

(** *** What the handlers leave alone *)

Lemma display_data_in_table_frame v :
  move (display_data_in_table v) = move v
  /\ nan_solved (display_data_in_table v) = nan_solved v
  /\ empty_values (display_data_in_table v) = empty_values v.
Proof. unfold display_data_in_table. cbn -[Z.eqb]. by destruct (move v =? 1)%Z. Qed.

Lemma setCurrentIndex_frame i v :
  move (setCurrentIndex i v) = move v
  /\ nan_solved (setCurrentIndex i v) = nan_solved v.
Proof.
  unfold setCurrentIndex, preprocessing_button. cbn.
  destruct (current_index v =? i); [done|]. by destruct (i =? 0).
Qed.

Lemma detect_missing_values_frame v :
  move (detect_missing_values v) = move v
  /\ nan_solved (detect_missing_values v) = nan_solved v.
Proof.
  unfold detect_missing_values. destruct (df v) as [d|]; [|done].
  destruct (negb (total_missing d =? 0)); [|done]. cbn.
  by destruct (setCurrentIndex_frame 0 (set_nan_data (Some true) (set_empty_values true v)))
    as [-> ->].
Qed.

Lemma load_data_frame env file_path v :
  move (load_data env file_path v) = move v
  /\ nan_solved (load_data env file_path v) = nan_solved v.
Proof.
  unfold load_data.
  destruct (ImportFiles.import_data env file_path) as [d|]; [|done].
  destruct (negb (empty d)); [|done].
  destruct (detect_missing_values_frame (display_data_in_table (set_df (Some d) v)))
    as [-> ->].
  by destruct (display_data_in_table_frame (set_df (Some d) v)) as (-> & -> & _).
Qed.

Lemma open_file_dialog_frame env file_path yes v :
  move (open_file_dialog env file_path yes v) = move v
  /\ nan_solved (open_file_dialog env file_path yes v) = nan_solved v.
Proof.
  unfold open_file_dialog. destruct file_path as [|x p]; [done|].
  destruct (bool_decide _); [destruct yes; [|done]; apply load_data_frame|].
  by destruct (load_data_frame env (x :: p) (set_last_file_path (Some (x :: p)) v))
    as [-> ->].
Qed.

Lemma apply_strategy_frame value ok v :
  move (apply_strategy fit_transform value ok v).1 = move v
  /\ nan_solved (apply_strategy fit_transform value ok v).1 = nan_solved v.
Proof.
  destruct (apply_strategy_cases value ok v) as [->|(_ & x & ->)]; [done|].
  by destruct (display_data_in_table_frame (set_df x v)) as (-> & -> & _).
Qed.

Lemma confirm_preprocessing_move value ok v :
  move (confirm_preprocessing fit_transform value ok v) = move v.
Proof.
  unfold confirm_preprocessing. destruct (String.eqb _ ""); [done|].
  pose proof (apply_strategy_frame value ok v) as [Hm _].
  destruct (apply_strategy fit_transform value ok v) as [v1 [[]|e]]; [|done].
  by rewrite (proj1 (display_data_in_table_frame _)).
Qed.

(** The events other than Next and Back leave the step counter alone. *)
Lemma handle_move e v :
  e <> ClickNext -> e <> ClickBack -> move (handle e v) = move v.
Proof.
  intros Hn Hb. destruct e; cbn [Features.handle]; try done.
  - unfold delete_welcome. by rewrite drive_through_move.
  - apply open_file_dialog_frame.
  - apply open_file_dialog_frame.
  - apply setCurrentIndex_frame.
  - apply confirm_preprocessing_move.
  - unfold show_results. by destruct (df v).
Qed.

(** [nan_solved] becomes true only when an event confirms a strategy. *)
Lemma step_nan_solved v e :
  Inv v -> nan_solved (step v e) = true ->
  nan_solved v = true \/ confirms e v = true.
Proof.
  intros Hv. unfold Features.step.
  destruct (possible e v) eqn:Hp; [|by left].
  destruct e as [|? ? ?|? ? ?| | |?|val ok|? ?|?]; cbn [Features.handle].
  - unfold delete_welcome. rewrite (proj2 (drive_through_frame _)). by left.
  - rewrite (proj2 (open_file_dialog_frame _ _ _ _)). by left.
  - unfold clear_table_and_choose_file.
    rewrite (proj2 (open_file_dialog_frame _ _ _ _)). by left.
  - unfold next. destruct (move v <? 3)%Z; [|by left].
    rewrite (proj2 (drive_through_frame _)). destruct (empty_values v); by left.
  - unfold back. destruct (1 <? move v)%Z; [|by left].
    rewrite (proj2 (drive_through_frame _)). destruct (empty_values v); by left.
  - rewrite (proj2 (setCurrentIndex_frame _ _)). by left.
  - unfold confirm_preprocessing. destruct (String.eqb _ ""); [by left|].
    pose proof (apply_strategy_frame val ok v) as [_ Hs].
    destruct (apply_strategy fit_transform val ok v) as [v1 r] eqn:Hr.
    destruct r as [[]|e].
    + intros _. right.
      assert (0 < current_index v) as Hi.
      { apply (inv_apply v Hv). unfold possible, clickable in Hp. simpl in Hp.
        by destruct (visible v apply_button), (enabled v apply_button). }
      apply Nat.ltb_lt in Hi.
      pose proof (inv_index v Hv) as Hlt. apply Nat.ltb_lt in Hlt.
      unfold Features.confirms. by rewrite Hp, Hr, Hi, Hlt.
    + simpl in Hs. rewrite Hs. by left.
  - by left.
  - unfold show_results. destruct (df v); by left.
Qed.

Lemma confirm_preprocessing_nan_solved value ok v :
  nan_solved v = true \/ confirms (ClickApply value ok) v = true ->
  possible (ClickApply value ok) v = true ->
  nan_solved (confirm_preprocessing fit_transform value ok v) = true.
Proof.
  intros Hs Hp. unfold confirm_preprocessing, Features.confirms in *.
  pose proof (apply_strategy_frame value ok v) as [_ Hf].
  destruct (String.eqb (nth (current_index v) items ""%string) "") eqn:Hopt.
  - destruct Hs as [|Hc]; [done|]. exfalso.
    rewrite Hp in Hc. cbn [andb] in Hc.
    destruct (current_index v) as [|[|[|[|[|i]]]]] eqn:Hi; cbn in Hopt, Hc; done.
  - destruct (apply_strategy fit_transform value ok v) as [v1 [[]|e]]; simpl in *.
    + by rewrite (proj1 (proj2 (display_data_in_table_frame _))).
    + destruct Hs as [Hs|Hc]; [congruence|].
      by rewrite andb_false_r in Hc.
Qed.

(** Once true, [nan_solved] stays true, and a confirmation makes it true. *)
Lemma step_nan_solved_mono v e :
  nan_solved v = true \/ confirms e v = true -> nan_solved (step v e) = true.
Proof.
  intros Hs. unfold Features.step.
  destruct (possible e v) eqn:Hp.
  - destruct e; cbn [Features.handle];
      try (destruct Hs as [Hs|Hs]; [|done]).
    + unfold delete_welcome. by rewrite (proj2 (drive_through_frame _)).
    + by rewrite (proj2 (open_file_dialog_frame _ _ _ _)).
    + unfold clear_table_and_choose_file.
      by rewrite (proj2 (open_file_dialog_frame _ _ _ _)).
    + unfold next. destruct (move v <? 3)%Z; [|done].
      rewrite (proj2 (drive_through_frame _)). by destruct (empty_values v).
    + unfold back. destruct (1 <? move v)%Z; [|done].
      rewrite (proj2 (drive_through_frame _)). by destruct (empty_values v).
    + by rewrite (proj2 (setCurrentIndex_frame _ _)).
    + by apply confirm_preprocessing_nan_solved.
    + done.
    + unfold show_results. by destruct (df v).
  - destruct Hs as [|Hc]; [done|]. exfalso.
    destruct e; try done. unfold Features.confirms in Hc. by rewrite Hp in Hc.
Qed.

Lemma run_nan_solved_mono es : forall v,
  nan_solved v = true \/ confirmed es v = true -> nan_solved (run es v) = true.
Proof.
  induction es as [|e es IH]; intros v; simpl.
  - by intros [|].
  - intros [Hs|Hc]; apply IH.
    + left. apply step_nan_solved_mono. by left.
    + apply orb_true_iff in Hc as [Hc|Hc]; [|by right].
      left. apply step_nan_solved_mono. by right.
Qed.

Lemma run_nan_solved es : forall v,
  Inv v -> nan_solved (run es v) = true ->
  nan_solved v = true \/ confirmed es v = true.
Proof.
  induction es as [|e es IH]; intros v Hv; simpl; [by left|].
  intros [Hs|Hc]%IH; [|right; by rewrite Hc, orb_true_r|by apply step_inv].
  destruct (step_nan_solved v e Hv Hs) as [|Hc]; [by left|].
  right. by rewrite Hc.
Qed.

(** *** The step counter and the Clean step *)

(** C1. In every state that a sequence of events reaches from the initial
    state (clicks on Start, Next, Back, the load buttons, the combo box,
    Apply, and the model buttons, each possible only while its widget shows
    and is enabled), the step counter is within [1,3]; there [next] adds 1
    when missing values were detected and 2 otherwise, [back] subtracts the
    same, and the result is clamped to [1,3]. *)
Theorem step_counter_in_range (es : list Event) :
  let v := run es initial in
  (1 <= move v <= 3)%Z
  /\ move (next v).1 = Z.min 3 (move v + (if empty_values v then 1 else 2))
  /\ move (back v).1 = Z.max 1 (move v - (if empty_values v then 1 else 2)).
Proof.
  pose proof (run_inv es initial initial_inv) as Hv. cbv zeta.
  set (v := run es initial) in *.
  destruct Hv as [Hr Hc _ _ _ _ _]. split; [done|].
  assert (empty_values v = false -> move v <> 2%Z) as Hne.
  { intros He H2. rewrite (Hc H2) in He. done. }
  split.
  - unfold next. destruct (move v <? 3)%Z eqn:H3.
    + apply Z.ltb_lt in H3. rewrite drive_through_move.
      destruct (empty_values v) eqn:He; cbn; [lia|].
      specialize (Hne eq_refl). lia.
    + apply Z.ltb_ge in H3. cbn [fst]. destruct (empty_values v); lia.
  - unfold back. destruct (1 <? move v)%Z eqn:H1.
    + apply Z.ltb_lt in H1. rewrite drive_through_move.
      destruct (empty_values v) eqn:He; cbn; [lia|].
      specialize (Hne eq_refl). lia.
    + apply Z.ltb_ge in H1. cbn [fst]. destruct (empty_values v); lia.
Qed.

(** The guards of [next] and [back] are no clamp by themselves: in a state
    with [move = 2] and no missing values, which no sequence of events
    reaches, [next] gives 4 and [back] gives 0. *)
Example next_back_outside_reach :
  let v := set_move 2 initial in
  move (next v).1 = 4%Z /\ move (back v).1 = 0%Z.
Proof. by vm_compute. Qed.

(** What the gate of the Clean step does hold back. In every reachable state
    at the Clean step, Next is disabled (a click on it changes nothing) as
    long as no click on Apply has reached the end of the [try] block of
    [confirm_preprocessing] since the start of the session; and an event
    takes the wizard from step 2 to step 3 only after such a click. *)
Lemma next_waits_for_cleaning (es : list Event) :
  move (run es initial) = 2%Z ->
  (nan_solved (run es initial) = false ->
   enabled (run es initial) next_button = false
   /\ step (run es initial) ClickNext = run es initial)
  /\ (nan_solved (run es initial) = true <-> confirmed es initial = true)
  /\ (forall e, move (step (run es initial) e) = 3%Z -> confirmed es initial = true).
Proof.
  intros H2. pose proof (run_inv es initial initial_inv) as Hv.
  assert (nan_solved (run es initial) = true -> confirmed es initial = true) as Hconf.
  { intros Hs. by destruct (run_nan_solved es initial initial_inv Hs). }
  split; [|split; [split; [done|]|]].
  - intros Hs.
    assert (enabled (run es initial) next_button = false) as He.
    { destruct (enabled (run es initial) next_button) eqn:He; [|done].
      rewrite (inv_next _ Hv H2 He) in Hs. done. }
    split; [done|]. unfold Features.step, possible, clickable. simpl.
    by rewrite He, andb_false_r.
  - intros Hc. apply run_nan_solved_mono. by right.
  - intros e H3. apply Hconf.
    unfold Features.step in H3. destruct (possible e (run es initial)) eqn:Hp; [|lia].
    destruct e as [|? ? ?|? ? ?| | |?|? ?|? ?|?];
      try (rewrite handle_move in H3 by done; lia).
    + apply (inv_next _ Hv H2). unfold possible, clickable in Hp. simpl in Hp.
      by destruct (visible _ next_button), (enabled _ next_button).
    + cbn [Features.handle] in H3. unfold back in H3. rewrite H2 in H3.
      cbn [Z.ltb Z.compare Pos.compare Pos.compare_cont] in H3.
      rewrite drive_through_move, (inv_clean _ Hv H2) in H3. cbn in H3. lia.
Qed.

End WizardFacts.

(** *** Sample runs *)

Example fill_with_mean_sample :
  df (fill_with_mean simple_imputer sample_viewer).1
  = Some {| df_index := [0; 1; 2; 3]%Z;
            df_columns :=
              [mkSeries (cps "city") Object
                        [VStr (cps "Vigo"); VStr (cps "Lugo"); VStr (cps "Vigo"); VNone];
               mkSeries (cps "x") Float64
                        [VFloat 1%float; VFloat 2%float; VFloat 3%float; VFloat 4%float];
               mkSeries (cps "y") Float64
                        [VFloat 2%float; VFloat 4%float; VFloat 4%float; VFloat 6%float]] |}.
Proof. vm_compute. reflexivity. Qed.

Example remove_missing_values_sample :
  df (remove_missing_values sample_viewer).1
  = Some {| df_index := [0; 1]%Z;
            df_columns :=
              [mkSeries (cps "city") Object [VStr (cps "Vigo"); VStr (cps "Lugo")];
               mkSeries (cps "x") Int64 [VInt 1; VInt 2];
               mkSeries (cps "y") Float64 [VFloat 2%float; VFloat 4%float]] |}.
Proof. vm_compute. reflexivity. Qed.

Lemma sample_table_wf : wf sample_table.
Proof.
  split.
  - unfold sample_table, len. simpl. repeat constructor.
  - apply (bool_decide_unpack _). by vm_compute.
Qed.

Lemma strategies_and_rows_witness :
  df sample_viewer = Some sample_table
  /\ ((exists d1, df (fill_with_mean simple_imputer sample_viewer).1 = Some d1
                  /\ len d1 = len sample_table /\ df_index d1 = df_index sample_table
                  /\ (wf sample_table -> wf d1))
      /\ (exists d2, df (fill_with_median simple_imputer sample_viewer).1 = Some d2
                     /\ len d2 = len sample_table /\ df_index d2 = df_index sample_table
                     /\ (wf sample_table -> wf d2))
      /\ (exists d3, df (remove_missing_values sample_viewer).1 = Some d3
                     /\ len d3 = length (List.filter row_complete (rows sample_table))
                     /\ (wf sample_table
                         -> rows d3 = List.filter row_complete (rows sample_table)))).
Proof.
  split; [reflexivity|].
  exact (strategies_and_rows simple_imputer sample_viewer sample_table eq_refl).
Defined.

Lemma strategies_keep_non_numeric_witness :
  df sample_viewer = Some sample_table
  /\ NoDup (column_names sample_table)
  /\ ((exists d1, df (fill_with_mean simple_imputer sample_viewer).1 = Some d1
                  /\ non_numeric_kept sample_table d1)
      /\ (exists d2, df (fill_with_median simple_imputer sample_viewer).1 = Some d2
                     /\ non_numeric_kept sample_table d2)
      /\ (exists d3, df (fill_with_constant simple_imputer 0%float true sample_viewer).1
                     = Some d3
                     /\ non_numeric_kept sample_table d3)).
Proof.
  split; [reflexivity|].
  split; [exact (proj2 sample_table_wf)|].
  exact (strategies_keep_non_numeric simple_imputer sample_viewer sample_table
           0%float true eq_refl (proj2 sample_table_wf)).
Defined.

Example wizard_with_gaps :
  move (sample_run to_clean_step) = 2%Z
  /\ enabled (sample_run to_clean_step) next_button = false
  /\ move (sample_run (to_clean_step ++ [ClickNext])) = 2%Z
  /\ move (sample_run (to_clean_step
                        ++ [SelectOption 2; ClickApply 0%float true; ClickNext])) = 3%Z.
Proof. by vm_compute. Qed.

Example wizard_without_gaps :
  move (sample_run [Start; ClickLoad sample_env (cps "full.csv") true; ClickNext]) = 3%Z
  /\ move (sample_run [Start; ClickLoad sample_env (cps "full.csv") true; ClickNext;
                       ClickBack]) = 1%Z.
Proof. by vm_compute. Qed.

(** [nan_solved] is never set back: after one confirmation, a second file
    with missing values finds Next enabled at the Clean step. *)
Example next_after_second_file :
  let es := to_clean_step
            ++ [SelectOption 1; ClickApply 0%float true; ClickNext; ClickBack; ClickBack;
                ClickChooseAnother sample_env (cps "gaps.csv") true; ClickNext] in
  move (sample_run es) = 2%Z
  /\ nan_data (sample_run es) = Some true
  /\ enabled (sample_run es) next_button = true.
Proof. by vm_compute. Qed.

(** C6. Two runs in which Next is enabled at the Clean step, and leads to
    the Model step, although no strategy has been applied to the table that
    the wizard holds, which still has its two missing values. In the first
    the dialog of "Fill with a Constant Value" is cancelled: the strategy
    does nothing, and [confirm_preprocessing] still sets [nan_solved] and
    enables Next. In the second a strategy was applied to a first file:
    [nan_solved] is never set back, so a second file with missing values
    finds Next enabled as soon as the Clean step is entered. *)
Theorem next_without_cleaning :
  let cancelled := to_clean_step ++ [SelectOption 4; ClickApply 0%float false] in
  let second_file :=
    to_clean_step
    ++ [SelectOption 1; ClickApply 0%float true; ClickNext; ClickBack; ClickBack;
        ClickChooseAnother sample_env (cps "gaps.csv") true; ClickNext] in
  total_missing sample_table = 2
  /\ (move (sample_run cancelled) = 2%Z
      /\ df (sample_run cancelled) = Some sample_table
      /\ enabled (sample_run cancelled) next_button = true
      /\ move (sample_run (cancelled ++ [ClickNext])) = 3%Z)
  /\ (move (sample_run second_file) = 2%Z
      /\ df (sample_run second_file) = Some sample_table
      /\ enabled (sample_run second_file) next_button = true
      /\ move (sample_run (second_file ++ [ClickNext])) = 3%Z).
Proof. vm_compute. repeat split; reflexivity. Qed.

Lemma next_waits_for_cleaning_witness :
  move (sample_run to_clean_step) = 2%Z
  /\ ((nan_solved (sample_run to_clean_step) = false ->
       enabled (sample_run to_clean_step) next_button = false
       /\ step simple_imputer canned_library repr_plain (sample_run to_clean_step) ClickNext
          = sample_run to_clean_step)
      /\ (nan_solved (sample_run to_clean_step) = true
          <-> confirmed simple_imputer canned_library repr_plain to_clean_step initial = true)
      /\ (forall e,
             move (step simple_imputer canned_library repr_plain
                        (sample_run to_clean_step) e) = 3%Z ->
             confirmed simple_imputer canned_library repr_plain to_clean_step initial = true)).
Proof.
  split; [by vm_compute|].
  exact (next_waits_for_cleaning simple_imputer canned_library repr_plain to_clean_step
           ltac:(by vm_compute)).
Defined.

End Features.

(** ** More on the strings *)

Module StrFacts.

(** [s.split(sep)] for a separator of one character. *)
Fixpoint split (sep : N) (s : str) : list str :=
  match s with
  | [] => [[]]
  | x :: s' =>
      if (x =? sep)%N then [] :: split sep s'
      else match split sep s' with
           | piece :: pieces => (x :: piece) :: pieces
           | [] => [[x]]
           end
  end.

Lemma forallb_rev {A} (f : A -> bool) (l : list A) :
  forallb f (rev l) = forallb f l.
Proof.
  induction l as [|x l IH]; simpl; [done|].
  rewrite forallb_app, IH. simpl. rewrite andb_true_r. apply andb_comm.
Qed.

Lemma lstrip_spec (s : str) :
  exists u, s = u ++ lstrip s /\ forallb isspace u = true
            /\ match lstrip s with x :: _ => isspace x = false | [] => True end.
Proof.
  induction s as [|x s IH]; simpl.
  - by exists [].
  - destruct (isspace x) eqn:Hx.
    + destruct IH as (u & Hs & Hu & Hh). exists (x :: u). simpl.
      rewrite Hx, Hu. split; [by f_equal|done].
    + exists []. by rewrite Hx.
Qed.

Lemma lstrip_id (s : str) :
  match s with x :: _ => isspace x = false | [] => True end -> lstrip s = s.
Proof. destruct s as [|x s]; simpl; [done|]. by intros ->. Qed.

Lemma lstrip_nil (s : str) : lstrip s = [] <-> forallb isspace s = true.
Proof.
  induction s as [|x s IH]; simpl; [done|].
  destruct (isspace x); simpl; [done|]. split; discriminate.
Qed.

(** [strip] takes white space off both ends and nothing else: what is left
    does not begin or end with white space. *)
Lemma strip_spec (s : str) :
  exists u1 u2,
    s = u1 ++ strip s ++ u2
    /\ forallb isspace u1 = true /\ forallb isspace u2 = true
    /\ match strip s with x :: _ => isspace x = false | [] => True end
    /\ match rev (strip s) with x :: _ => isspace x = false | [] => True end.
Proof.
  unfold strip.
  destruct (lstrip_spec s) as (u1 & Hs & Hu1 & Hh1).
  destruct (lstrip_spec (rev (lstrip s))) as (u & Hr & Hu & Hh2).
  set (t := lstrip (rev (lstrip s))) in *.
  assert (lstrip s = rev t ++ rev u) as Hl.
  { rewrite <- rev_app_distr, <- Hr. by rewrite rev_involutive. }
  exists u1, (rev u). split; [by rewrite <- Hl|].
  split; [done|]. split; [by rewrite forallb_rev|].
  split; [|by rewrite rev_involutive].
  destruct (rev t) as [|y t'] eqn:Ht; [done|].
  rewrite Hl in Hh1. done.
Qed.

Lemma strip_nil (s : str) : strip s = [] <-> forallb isspace s = true.
Proof.
  unfold strip. split.
  - intros H. apply (f_equal (@rev N)) in H. rewrite rev_involutive in H. simpl in H.
    apply lstrip_nil in H. rewrite forallb_rev in H.
    destruct (lstrip_spec s) as (u & Hs & Hu & _).
    rewrite Hs, forallb_app, Hu, H. done.
  - intros H. apply lstrip_nil in H. by rewrite H.
Qed.

Lemma strip_idemp (s : str) : strip (strip s) = strip s.
Proof.
  destruct (strip_spec s) as (_ & _ & _ & _ & _ & Hh & Hl).
  unfold strip at 1. rewrite (lstrip_id (strip s)) by done.
  rewrite (lstrip_id (rev (strip s))) by done. apply rev_involutive.
Qed.

(** [split] gives one piece more than there are separators, the pieces hold
    no separator, and joining them gives the text back. *)
Lemma split_length (sep : N) (s : str) :
  length (split sep s) = S (length (List.filter (fun x => (x =? sep)%N) s)).
Proof.
  induction s as [|x s IH]; simpl; [done|].
  destruct (x =? sep)%N; simpl; [by rewrite IH|].
  destruct (split sep s) as [|piece pieces]; simpl in *; [done|done].
Qed.

Lemma split_join (sep : N) (s : str) : ScikitLearn.join [sep] (split sep s) = s.
Proof.
  induction s as [|x s IH]; simpl; [done|].
  destruct (x =? sep)%N eqn:Hx.
  - apply N.eqb_eq in Hx as ->.
    destruct (split sep s) as [|piece pieces] eqn:Hs.
    + pose proof (split_length sep s) as Hl. by rewrite Hs in Hl.
    + simpl in *. by rewrite IH.
  - destruct (split sep s) as [|piece pieces] eqn:Hs.
    + pose proof (split_length sep s) as Hl. by rewrite Hs in Hl.
    + simpl in *. destruct pieces; simpl in *; by rewrite <- IH.
Qed.

Lemma split_pieces (sep : N) (s : str) :
  Forall (fun piece => forallb (fun x => negb (x =? sep)%N) piece = true) (split sep s).
Proof.
  induction s as [|x s IH]; simpl; [by repeat constructor|].
  destruct (x =? sep)%N eqn:Hx; [by constructor|].
  destruct (split sep s) as [|piece pieces]; [by repeat constructor; simpl; rewrite Hx|].
  apply Forall_cons in IH as [Hp Hps]. constructor; [|done]. simpl. by rewrite Hx, Hp.
Qed.

End StrFacts.

(** ** More on EmotionAnalyser/src/load_data.py *)

Module LoadDataFacts.
Import Emotion.

(** The sample row of the dataset used below. *)
Definition sample_text : str :=
  cps "<s>[INST] Frase:  Estoy feliz. Clasifica la frase. Clasifica [/INST] 1 </s>".

Section Patterns.
Variable decimal : N -> option Z.
Variable column_name : string.

(** [re.search] returns a match of the pattern, with its group. *)
Lemma search_matches p s g :
  Re.search decimal p s = Some g ->
  exists pre w post, s = pre ++ w ++ post /\ Re.matches decimal p w None g.
Proof.
  induction s as [|x s IH]; simpl.
  - destruct (Re.match_here decimal p [] None) as [g'|] eqn:Hm; [|done].
    intros [= <-]. apply Re.match_here_sound in Hm as (w & rest & Hs & Hm).
    by exists [], w, rest.
  - destruct (Re.match_here decimal p (x :: s) None) as [g'|] eqn:Hm.
    + intros [= <-]. apply Re.match_here_sound in Hm as (w & rest & Hs & Hm).
      by exists [], w, rest.
    + intros (pre & w & post & -> & Hm')%IH.
      by exists (x :: pre), w, post.
Qed.

(** The lazy group stops at the first place where the rest of the pattern
    matches. *)
Lemma lazy_more_first {R} (P : N -> bool) (k : str -> str -> option R) s :
  forall acc r,
    Re.lazy_more P k s acc = Some r ->
    exists u s', s = u ++ s' /\ forallb P u = true /\ k (acc ++ u) s' = Some r
      /\ forall u1 u2, u = u1 ++ u2 -> u2 <> [] -> k (acc ++ u1) (u2 ++ s') = None.
Proof.
  induction s as [|x s IH]; intros acc r; simpl.
  - destruct (k acc []) as [r'|] eqn:Hk; [|done].
    intros [= <-]. exists [], []. rewrite (app_nil_r acc).
    split; [done|]. split; [done|]. split; [done|].
    intros u1 u2 Hu. by destruct u1, u2.
  - destruct (k acc (x :: s)) as [r'|] eqn:Hk.
    + intros [= <-]. exists [], (x :: s). rewrite (app_nil_r acc).
      split; [done|]. split; [done|]. split; [done|].
      intros u1 u2 Hu. by destruct u1, u2.
    + destruct (P x) eqn:Hx; [|done].
      intros (u & s' & -> & Hu & Hr & Hmin)%IH.
      exists (x :: u), s'. simpl. rewrite Hx, Hu.
      rewrite <- app_assoc in Hr.
      split; [done|]. split; [done|]. split; [done|].
      intros u1 u2 Heq Hne. destruct u1 as [|y u1]; simpl in Heq.
      * subst u2. by rewrite app_nil_r.
      * injection Heq as <- ->.
        specialize (Hmin u1 u2 eq_refl Hne). by rewrite <- app_assoc in Hmin.
Qed.

Lemma lazy_plus_first {R} (P : N -> bool) (k : str -> str -> option R) s r :
  Re.lazy_plus P k s = Some r ->
  exists g s', s = g ++ s' /\ g <> [] /\ forallb P g = true /\ k g s' = Some r
    /\ forall g1 g2, g = g1 ++ g2 -> g1 <> [] -> g2 <> [] -> k g1 (g2 ++ s') = None.
Proof.
  unfold Re.lazy_plus. destruct s as [|x s]; [done|].
  destruct (P x) eqn:Hx; [|done].
  intros (u & s' & -> & Hu & Hr & Hmin)%lazy_more_first.
  exists (x :: u), s'. simpl. rewrite Hx, Hu.
  split; [done|]. split; [done|]. split; [done|]. split; [done|].
  intros g1 g2 Heq Hne1 Hne2. destruct g1 as [|y g1]; [done|].
  injection Heq as <- ->. by apply (Hmin g1 g2).
Qed.

(** A match of [frase_re] at the start of [s]. *)
Lemma frase_match_here s cap r :
  Re.match_here decimal frase_re s cap = Some r ->
  exists ws g post,
    s = cps "Frase:" ++ ws ++ g ++ cps ". Clasifica" ++ post
    /\ r = Some g
    /\ forallb isspace ws = true
    /\ g <> [] /\ forallb (fun x => negb (x =? 10)%N) g = true
    /\ forall g1 g2 rest, g = g1 ++ g2 -> g1 <> [] -> g2 <> [] ->
         g2 ++ cps ". Clasifica" ++ post <> cps ". Clasifica" ++ rest.
Proof.
  unfold frase_re. cbn [Re.match_here].
  destruct (strip_prefix (cps "Frase:") s) as [s1|] eqn:Hf; [|done].
  apply Re.strip_prefix_Some in Hf as ->.
  intros (ws & w & -> & Hws & Hl)%Re.star_greedy_sound.
  apply lazy_plus_first in Hl as (g & s' & -> & Hne & Hg & Hk & Hmin).
  destruct (strip_prefix (cps ". Clasifica") s') as [post|] eqn:Hp; [|done].
  injection Hk as <-.
  pose proof Hp as Hp'. apply Re.strip_prefix_Some in Hp' as ->.
  exists ws, g, post.
  split; [done|]. split; [done|]. split; [done|]. split; [done|]. split; [done|].
  intros g1 g2 rest Heq Hne1 Hne2 Habs.
  specialize (Hmin g1 g2 Heq Hne1 Hne2). cbn beta in Hmin.
  assert (strip_prefix (cps ". Clasifica") (g2 ++ cps ". Clasifica" ++ post) = Some rest) as Hs
    by by apply Re.strip_prefix_Some.
  by rewrite Hs in Hmin.
Qed.

Lemma frase_search s r :
  Re.search decimal frase_re s = Some r ->
  exists pre ws g post,
    s = pre ++ cps "Frase:" ++ ws ++ g ++ cps ". Clasifica" ++ post
    /\ r = Some g
    /\ forallb isspace ws = true
    /\ g <> [] /\ forallb (fun x => negb (x =? 10)%N) g = true
    /\ forall g1 g2 rest, g = g1 ++ g2 -> g1 <> [] -> g2 <> [] ->
         g2 ++ cps ". Clasifica" ++ post <> cps ". Clasifica" ++ rest.
Proof.
  induction s as [|x s IH]; cbn [Re.search].
  - destruct (Re.match_here decimal frase_re [] None) as [r'|] eqn:Hm; [|done].
    intros [= <-]. apply frase_match_here in Hm as (ws & g & post & H).
    by exists [], ws, g, post.
  - destruct (Re.match_here decimal frase_re (x :: s) None) as [r'|] eqn:Hm.
    + intros [= <-]. apply frase_match_here in Hm as (ws & g & post & H).
      by exists [], ws, g, post.
    + intros (pre & ws & g & post & -> & H)%IH.
      by exists (x :: pre), ws, g, post.
Qed.

(** A match of [label_re], taken apart. *)
Lemma label_matches w cap g :
  Re.matches decimal label_re w cap g ->
  exists ws1 x ws2 d,
    w = cps "[/INST]" ++ ws1 ++ [x] ++ ws2 ++ cps "</s>"
    /\ g = Some [x] /\ decimal x = Some d
    /\ forallb isspace ws1 = true /\ forallb isspace ws2 = true.
Proof.
  unfold label_re. intros Hm.
  inversion Hm as [|? ? ? ? ? Hm1| | |]; subst; clear Hm.
  inversion Hm1 as [| |? ? u1 ? ? ? Hu1 Hm2| |]; subst; clear Hm1.
  inversion Hm2 as [| | | |? ? y ? ? ? Hy Hm3]; subst; clear Hm2.
  inversion Hm3 as [| |? ? u2 ? ? ? Hu2 Hm4| |]; subst; clear Hm3.
  inversion Hm4 as [|? ? ? ? ? Hm5| | |]; subst; clear Hm4.
  inversion Hm5; subst.
  simpl in Hy. destruct (decimal y) as [d|] eqn:Hd; [|done].
  exists u1, y, u2, d. rewrite app_nil_r. done.
Qed.

(** What [clean] makes of a text, given what the two searches return. *)
Lemma clean_of_searches (example : gmap string pyval) (raw_text : str) :
  clean decimal column_name (<[column_name := PStr raw_text]> example)
  = (frase ← match Re.search decimal frase_re raw_text with
             | Some m => group1_strip m
             | None => Ok []
             end;
     label ← match Re.search decimal label_re raw_text with
             | Some m => py_int decimal m
             | None => Ok (-1)%Z
             end;
     Ok (<["frase" := PStr frase]> (<["label" := PInt label]> ∅))).
Proof. unfold clean. by rewrite lookup_insert_eq. Qed.

(** The label that [clean] reads, given the result of the search. *)
Lemma label_of_search (raw_text : str) :
  match Re.search decimal label_re raw_text with
  | Some m => exists x d, m = Some [x] /\ decimal x = Some d
                          /\ py_int decimal m = Ok d
  | None => True
  end.
Proof.
  destruct (Re.search decimal label_re raw_text) as [m|] eqn:Hl; [|done].
  destruct (label_group_digit decimal _ _ Hl) as (x & d & -> & Hd).
  exists x, d. simpl. by rewrite Hd.
Qed.

(** [clean] goes through on every text. *)
Lemma clean_returns (example : gmap string pyval) (raw_text : str) :
  exists frase label,
    clean decimal column_name (<[column_name := PStr raw_text]> example)
    = Ok (<["frase" := PStr frase]> (<["label" := PInt label]> ∅))
    /\ (Re.search decimal label_re raw_text = None -> label = (-1)%Z).
Proof.
  rewrite clean_of_searches.
  pose proof (label_of_search raw_text) as Hl.
  destruct (Re.search decimal frase_re raw_text) as [m|] eqn:Hf.
  - destruct (Re.search_group decimal frase_re _ _ eq_refl Hf) as [g ->]. simpl.
    destruct (Re.search decimal label_re raw_text) as [ml|].
    + destruct Hl as (x & d & -> & Hd & ->). simpl. by exists (strip g), d.
    + by exists (strip g), (-1)%Z.
  - simpl. destruct (Re.search decimal label_re raw_text) as [ml|].
    + destruct Hl as (x & d & -> & Hd & ->). simpl. by exists [], d.
    + by exists [], (-1)%Z.
Qed.

(** X1. When the phrase pattern occurs in the text, the phrase that [clean]
    returns is the stripped text [g] that stands between "Frase:" (and the white
    space after it) and ". Clasifica": [g] is not empty, holds no newline, and
    ends at the first ". Clasifica" that follows its first character. *)
Theorem clean_frase_between (example : gmap string pyval) (raw_text : str) :
  Re.occurs decimal frase_re raw_text ->
  exists pre ws g post label,
    raw_text = pre ++ cps "Frase:" ++ ws ++ g ++ cps ". Clasifica" ++ post
    /\ forallb isspace ws = true
    /\ g <> [] /\ forallb (fun x => negb (x =? 10)%N) g = true
    /\ (forall g1 g2 rest, g = g1 ++ g2 -> g1 <> [] -> g2 <> [] ->
           g2 ++ cps ". Clasifica" ++ post <> cps ". Clasifica" ++ rest)
    /\ clean decimal column_name (<[column_name := PStr raw_text]> example)
        = Ok (<["frase" := PStr (strip g)]> (<["label" := PInt label]> ∅)).
Proof.
  intros [r Hr]%Re.search_complete.
  destruct (frase_search _ _ Hr) as (pre & ws & g & post & Hs & -> & Hws & Hne & Hg & Hmin).
  pose proof (label_of_search raw_text) as Hl.
  exists pre, ws, g, post.
  exists (match Re.search decimal label_re raw_text with
          | Some (Some [x]) => default (-1)%Z (decimal x)
          | _ => (-1)%Z
          end).
  split; [done|]. split; [done|]. split; [done|]. split; [done|]. split; [done|].
  rewrite clean_of_searches, Hr. simpl.
  destruct (Re.search decimal label_re raw_text) as [m|]; [|done].
  destruct Hl as (x & d & -> & Hd & Hi). rewrite Hi, Hd. done.
Qed.

(** X2. The label that [clean] returns is -1 exactly when the label pattern
    occurs nowhere in the text; otherwise it is the value of the one digit
    that stands between "[/INST]" and "</s>", white space apart, so it lies
    between 0 and 9. *)
Theorem clean_label_digit (example : gmap string pyval) (raw_text : str) :
  (forall x d, decimal x = Some d -> (0 <= d <= 9)%Z) ->
  exists frase label,
    clean decimal column_name (<[column_name := PStr raw_text]> example)
    = Ok (<["frase" := PStr frase]> (<["label" := PInt label]> ∅))
    /\ (-1 <= label <= 9)%Z
    /\ (label = (-1)%Z <-> ~ Re.occurs decimal label_re raw_text)
    /\ (label <> (-1)%Z ->
        exists pre ws1 x ws2 post,
          raw_text = pre ++ cps "[/INST]" ++ ws1 ++ [x] ++ ws2 ++ cps "</s>" ++ post
          /\ forallb isspace ws1 = true /\ forallb isspace ws2 = true
          /\ decimal x = Some label).
Proof.
  intros Hdec.
  exists (match Re.search decimal frase_re raw_text with
          | Some (Some g) => strip g
          | _ => []
          end).
  assert (match Re.search decimal frase_re raw_text with
          | Some m => group1_strip m
          | None => Ok []
          end
          = Ok (match Re.search decimal frase_re raw_text with
                | Some (Some g) => strip g
                | _ => []
                end)) as Hfrase.
  { destruct (Re.search decimal frase_re raw_text) as [m|] eqn:Hf; [|done].
    by destruct (Re.search_group decimal frase_re _ _ eq_refl Hf) as [g ->]. }
  rewrite clean_of_searches, Hfrase. simpl.
  destruct (Re.search decimal label_re raw_text) as [m|] eqn:Hl.
  - destruct (search_matches _ _ _ Hl) as (pre & w & post & Hs & Hm).
    apply label_matches in Hm as (ws1 & x & ws2 & d & -> & -> & Hd & Hw1 & Hw2).
    exists d. simpl. rewrite Hd. simpl.
    pose proof (Hdec _ _ Hd) as Hr.
    split; [done|]. split; [lia|]. split.
    + split; [lia|]. intros Hn. destruct Hn. by eapply Re.search_sound.
    + intros _. exists pre, ws1, x, ws2, post.
      rewrite Hs, <- !app_assoc. done.
  - exists (-1)%Z. split; [done|]. split; [lia|]. split; [|done].
    split; [|done]. intros _. by apply Re.search_None_iff.
Qed.

End Patterns.

(** *** [add_emotion], and the two functions in a row *)

Lemma label2emotion_known (z : Z) :
  match label2emotion !! z with
  | Some e => (0 <= z <= 6)%Z /\ e <> desconocido
  | None => ~ (0 <= z <= 6)%Z
  end.
Proof.
  destruct (decide (0 <= z <= 6)%Z) as [Hz|Hz].
  - assert (z = 0 \/ z = 1 \/ z = 2 \/ z = 3 \/ z = 4 \/ z = 5 \/ z = 6)%Z
      as [->|[->|[->|[->|[->|[->| ->]]]]]] by lia;
      (split; [lia|by vm_compute]).
  - assert (label2emotion !! z = None) as ->; [|done].
    unfold label2emotion. simpl.
    repeat (rewrite lookup_insert_ne by lia). apply lookup_empty.
Qed.

(** X3. [add_emotion] raises [KeyError] exactly on a row without the key
    "label"; on any other row it changes the key "emocion" and nothing else,
    and the emotion it writes is "desconocido" unless the label is an integer
    from 0 to 6. *)
Theorem add_emotion_cases (example : gmap string pyval) :
  match example !! "label" with
  | None => add_emotion example = Raise (Exn KeyError [])
  | Some v =>
      exists e,
        add_emotion example = Ok (<["emocion" := PStr e]> example)
        /\ (forall k, k <> "emocion"%string ->
               (<["emocion" := PStr e]> example) !! k = example !! k)
        /\ (e <> desconocido <-> exists z, v = PInt z /\ (0 <= z <= 6)%Z)
  end.
Proof.
  unfold add_emotion. destruct (example !! "label") as [v|]; [|done].
  exists (label2emotion_get v). split; [done|]. split.
  - intros k Hk. by rewrite lookup_insert_ne.
  - destruct v as [s|z|]; simpl.
    + split; [done|]. by intros (z & [=] & _).
    + pose proof (label2emotion_known z) as Hz.
      destruct (label2emotion !! z) as [e|]; simpl.
      * split; [|tauto]. intros _. exists z. tauto.
      * split; [done|]. intros (z' & [= <-] & Hr). done.
    + split; [done|]. by intros (z & [=] & _).
Qed.

(** [Dataset.map(f)] on one row: the keys that [f] returns are written into
    the row. *)
Definition dataset_map (f : gmap string pyval -> result (gmap string pyval))
           (example : gmap string pyval) : result (gmap string pyval) :=
  out ← f example; Ok (out ∪ example).

(** The script on one row: [dataset.map(clean)], then
    [remove_columns([column_name])], then [dataset_cleaned.map(add_emotion)]. *)
Definition process (decimal : N -> option Z) (column_name : string)
           (example : gmap string pyval) : result (gmap string pyval) :=
  cleaned ← dataset_map (clean decimal column_name) example;
  dataset_map add_emotion (delete column_name cleaned).

(** X4. The script in a row. On every row that holds a text in the raw
    column, when that column is called neither "frase" nor "label", the three
    steps go through, and the row that comes out holds under "frase" and
    "label" the phrase and the label that [clean] returns for the row, and
    under "emocion" the emotion of that label, which is "desconocido" when the
    text has no label pattern; the raw column is gone (unless it is called
    "emocion"), and every other column is as it was. *)
Theorem process_row (decimal : N -> option Z) (column_name : string)
        (example : gmap string pyval) (raw_text : str) :
  example !! column_name = Some (PStr raw_text) ->
  column_name <> "frase"%string ->
  column_name <> "label"%string ->
  exists frase label row,
    clean decimal column_name example
    = Ok (<["frase" := PStr frase]> (<["label" := PInt label]> ∅))
    /\ process decimal column_name example = Ok row
    /\ row !! "frase" = Some (PStr frase)
    /\ row !! "label" = Some (PInt label)
    /\ row !! "emocion" = Some (PStr (label2emotion_get (PInt label)))
    /\ (column_name <> "emocion"%string -> row !! column_name = None)
    /\ (forall k, k <> column_name -> k <> "frase"%string -> k <> "label"%string ->
                  k <> "emocion"%string -> row !! k = example !! k)
    /\ (~ Re.occurs decimal label_re raw_text ->
        label = (-1)%Z /\ label2emotion_get (PInt label) = desconocido).
Proof.
  intros Hraw Hfrase Hlabel.
  destruct (clean_returns decimal column_name example raw_text)
    as (frase & label & Hc & Hl).
  rewrite insert_id in Hc by done.
  exists frase, label.
  exists (<["emocion" := PStr (label2emotion_get (PInt label))]>
            (delete column_name
               (<["frase" := PStr frase]> (<["label" := PInt label]> example)))).
  split; [done|]. split.
  { unfold process, dataset_map. rewrite Hc. cbn [mbind result_bind].
    rewrite <- !insert_union_l, (left_id ∅ (∪)).
    unfold add_emotion.
    rewrite lookup_delete_ne by done.
    rewrite lookup_insert_ne by done. rewrite lookup_insert_eq. simpl.
    by rewrite (left_id ∅ (∪)), <- insert_union_l, (idemp (∪)). }
  split.
  { rewrite lookup_insert_ne by done. rewrite lookup_delete_ne by done.
    by rewrite lookup_insert_eq. }
  split.
  { rewrite lookup_insert_ne by done. rewrite lookup_delete_ne by done.
    rewrite lookup_insert_ne by done. by rewrite lookup_insert_eq. }
  split; [by rewrite lookup_insert_eq|].
  split.
  { intros He. rewrite lookup_insert_ne by done. by rewrite lookup_delete_eq. }
  split.
  { intros k Hk Hkf Hkl Hke. rewrite lookup_insert_ne by done.
    rewrite lookup_delete_ne by done. by rewrite !lookup_insert_ne by done. }
  intros Hn%Re.search_None_iff. specialize (Hl Hn). by subst label.
Qed.

Lemma clean_frase_between_witness :
  Re.occurs ascii_decimal frase_re sample_text
  /\ exists pre ws g post label,
      sample_text = pre ++ cps "Frase:" ++ ws ++ g ++ cps ". Clasifica" ++ post
      /\ forallb isspace ws = true
      /\ g <> [] /\ forallb (fun x => negb (x =? 10)%N) g = true
      /\ (forall g1 g2 rest, g = g1 ++ g2 -> g1 <> [] -> g2 <> [] ->
             g2 ++ cps ". Clasifica" ++ post <> cps ". Clasifica" ++ rest)
      /\ clean ascii_decimal "text" (<["text" := PStr sample_text]> ∅)
          = Ok (<["frase" := PStr (strip g)]> (<["label" := PInt label]> ∅)).
Proof.
  assert (Re.occurs ascii_decimal frase_re sample_text) as H.
  { eapply Re.search_sound. vm_compute. reflexivity. }
  split; [exact H|].
  exact (clean_frase_between ascii_decimal "text" ∅ sample_text H).
Defined.

Lemma ascii_decimal_range (x : N) (d : Z) :
  ascii_decimal x = Some d -> (0 <= d <= 9)%Z.
Proof.
  unfold ascii_decimal.
  destruct ((48 <=? x) && (x <=? 57))%N eqn:Hx; [|done].
  intros [= <-]. apply andb_prop in Hx as [H1%N.leb_le H2%N.leb_le]. lia.
Defined.

Lemma clean_label_digit_witness :
  exists frase label,
    clean ascii_decimal "text" (<["text" := PStr sample_text]> ∅)
    = Ok (<["frase" := PStr frase]> (<["label" := PInt label]> ∅))
    /\ (-1 <= label <= 9)%Z
    /\ (label = (-1)%Z <-> ~ Re.occurs ascii_decimal label_re sample_text)
    /\ (label <> (-1)%Z ->
        exists pre ws1 x ws2 post,
          sample_text = pre ++ cps "[/INST]" ++ ws1 ++ [x] ++ ws2 ++ cps "</s>" ++ post
          /\ forallb isspace ws1 = true /\ forallb isspace ws2 = true
          /\ ascii_decimal x = Some label).
Proof.
  exact (clean_label_digit ascii_decimal "text" ∅ sample_text ascii_decimal_range).
Defined.

Lemma process_row_witness :
  ({[ "text" := PStr sample_text ]} : gmap string pyval) !! "text" = Some (PStr sample_text)
  /\ "text"%string <> "frase"%string
  /\ "text"%string <> "label"%string
  /\ exists frase label row,
      clean ascii_decimal "text" {[ "text" := PStr sample_text ]}
      = Ok (<["frase" := PStr frase]> (<["label" := PInt label]> ∅))
      /\ process ascii_decimal "text" {[ "text" := PStr sample_text ]} = Ok row
      /\ row !! "frase" = Some (PStr frase)
      /\ row !! "label" = Some (PInt label)
      /\ row !! "emocion" = Some (PStr (label2emotion_get (PInt label)))
      /\ ("text"%string <> "emocion"%string -> row !! "text" = None)
      /\ (forall k, k <> "text"%string -> k <> "frase"%string -> k <> "label"%string ->
                    k <> "emocion"%string ->
                    row !! k = ({[ "text" := PStr sample_text ]} : gmap string pyval) !! k)
      /\ (~ Re.occurs ascii_decimal label_re sample_text ->
          label = (-1)%Z /\ label2emotion_get (PInt label) = desconocido).
Proof.
  split; [reflexivity|]. split; [discriminate|]. split; [discriminate|].
  exact (process_row ascii_decimal "text" {[ "text" := PStr sample_text ]} sample_text
           eq_refl ltac:(discriminate) ltac:(discriminate)).
Defined.

Example process_sample :
  process ascii_decimal "text" {[ "text" := PStr sample_text ]}
  = Ok (<["emocion" := PStr (cps "satisfacci" ++ [243%N] ++ cps "n")]>
          (<["frase" := PStr (cps "Estoy feliz")]> (<["label" := PInt 1]> ∅))).
Proof. vm_compute. reflexivity. Qed.

Example clean_sample_cut :
  clean ascii_decimal "text" {[ "text" := PStr sample_text ]}
  = Ok (<["frase" := PStr (cps "Estoy feliz")]> (<["label" := PInt 1]> ∅)).
Proof. vm_compute. reflexivity. Qed.

(** A raw column that is called "frase": [clean] writes the phrase over the
    raw text, [remove_columns] takes it away, and the row ends without a
    phrase. *)
Example process_frase_column :
  process ascii_decimal "frase" {[ "frase" := PStr sample_text ]}
  = Ok (<["emocion" := PStr (cps "satisfacci" ++ [243%N] ++ cps "n")]>
          (<["label" := PInt 1]> ∅)).
Proof. vm_compute. reflexivity. Qed.

End LoadDataFacts.

(** ** More on data_preparation/import_files.py *)

Module ImportFilesFacts.
Import ImportFiles.

(** *** [rfind] finds the last position *)

Lemma rfind_none (P : N -> bool) (s : str) : forall i,
  forallb (fun x => negb (P x)) s = true -> rfind P s i = (-1)%Z.
Proof.
  induction s as [|x s IH]; intros i; simpl; [done|].
  intros [Hx Hs]%andb_prop. rewrite (IH _ Hs). simpl.
  by destruct (P x).
Qed.

Lemma rfind_range (P : N -> bool) (s : str) : forall i,
  (0 <= i)%Z ->
  rfind P s i = (-1)%Z \/ (i <= rfind P s i < i + Z.of_nat (length s))%Z.
Proof.
  induction s as [|x s IH]; intros i Hi; [by left|].
  cbn [rfind length].
  destruct (IH (i + 1)%Z ltac:(lia)) as [Hr|Hr].
  - rewrite Hr. simpl. destruct (P x); [right; lia|by left].
  - destruct (0 <=? rfind P s (i + 1))%Z eqn:H0; [right; lia|].
    apply Z.leb_gt in H0. lia.
Qed.

Lemma rfind_app_none (P : N -> bool) (s1 s2 : str) : forall i,
  forallb (fun x => negb (P x)) s2 = true ->
  rfind P (s1 ++ s2) i = rfind P s1 i.
Proof.
  induction s1 as [|x s1 IH]; intros i Hs2; simpl.
  - by apply rfind_none.
  - by rewrite IH.
Qed.

Lemma rfind_last (P : N -> bool) (s1 s2 : str) (x : N) : forall i,
  (0 <= i)%Z -> P x = true ->
  forallb (fun y => negb (P y)) s2 = true ->
  rfind P (s1 ++ x :: s2) i = (i + Z.of_nat (length s1))%Z.
Proof.
  induction s1 as [|y s1 IH]; intros i Hi Hx Hs2.
  - cbn [app rfind length]. rewrite (rfind_none _ _ _ Hs2). simpl.
    rewrite Hx. lia.
  - cbn [app rfind length]. rewrite IH by (done || lia).
    destruct (0 <=? i + 1 + Z.of_nat (length s1))%Z eqn:H0; [lia|].
    apply Z.leb_gt in H0. lia.
Qed.

Section Extension.
Variable env : Env.

(** A dot is no separator of paths, on any platform. *)
Hypothesis dot_no_sep : is_sep env 46%N = false.

Lemma dots_no_sep (dots : str) :
  forallb is_dot dots = true -> forallb (fun x => negb (is_sep env x)) dots = true.
Proof.
  induction dots as [|x dots IH]; simpl; [done|].
  intros [Hx Hd]%andb_prop. apply N.eqb_eq in Hx as ->.
  by rewrite dot_no_sep, IH.
Qed.

(** The extension of a path whose last component has a dot after a character
    that is not a dot. *)
Lemma file_ext_suffix (dir name ext : str) :
  forallb (fun x => negb (is_sep env x)) name = true ->
  existsb (fun x => negb (is_dot x)) name = true ->
  forallb (fun x => negb (is_sep env x)) ext = true ->
  forallb (fun x => negb (is_dot x)) ext = true ->
  file_ext env (dir ++ name ++ [46%N] ++ ext) = lower env ([46%N] ++ ext).
Proof.
  intros Hname Hnd Hes Hed. unfold file_ext, splitext_ext. f_equal.
  assert (rfind is_dot (dir ++ name ++ [46%N] ++ ext) 0
          = Z.of_nat (length (dir ++ name))) as Hdot.
  { rewrite app_assoc. cbn [app]. by rewrite rfind_last. }
  assert (rfind (is_sep env) (dir ++ name ++ [46%N] ++ ext) 0
          = rfind (is_sep env) dir 0) as Hsep.
  { apply rfind_app_none. rewrite !forallb_app, Hname, Hes. simpl.
    by rewrite dot_no_sep. }
  rewrite Hdot, Hsep.
  pose proof (rfind_range (is_sep env) dir 0%Z ltac:(lia)) as Hr.
  set (k := rfind (is_sep env) dir 0) in *.
  rewrite length_app.
  assert ((k <? Z.of_nat (length dir + length name))%Z = true) as -> by (apply Z.ltb_lt; lia).
  assert (existsb (fun x => negb (is_dot x))
            (slice (dir ++ name ++ [46%N] ++ ext) (k + 1)
                   (Z.of_nat (length dir + length name))) = true) as ->.
  { unfold slice.
    assert (exists j, Z.to_nat (k + 1) = j /\ j <= length dir
                      /\ Z.to_nat (Z.of_nat (length dir + length name) - (k + 1))
                         = (length dir - j) + length name) as (j & -> & Hj & ->).
    { exists (Z.to_nat (k + 1)). lia. }
    rewrite drop_app_le by done.
    rewrite take_app_ge by (rewrite length_drop; lia).
    rewrite length_drop.
    replace (length dir - j + length name - (length dir - j)) with (length name) by lia.
    rewrite take_app_ge by lia.
    replace (length name - length name) with 0 by lia.
    rewrite take_0, app_nil_r.
    rewrite existsb_app, Hnd. apply orb_true_r. }
  simpl. rewrite Nat2Z.id.
  rewrite app_assoc. rewrite <- length_app. by rewrite drop_app_length.
Qed.

(** A last component that has no dot after its leading dots has no
    extension. *)
Lemma file_ext_none (dir dots rest : str) :
  (dir = [] \/ exists d x, dir = d ++ [x] /\ is_sep env x = true) ->
  forallb is_dot dots = true ->
  forallb (fun x => negb (is_sep env x)) rest = true ->
  forallb (fun x => negb (is_dot x)) rest = true ->
  file_ext env (dir ++ dots ++ rest) = [].
Proof.
  intros Hdir Hdots Hrs Hrd. unfold file_ext, splitext_ext.
  assert (rfind (is_sep env) (dir ++ dots ++ rest) 0
          = (Z.of_nat (length dir) - 1)%Z) as Hsep.
  { assert (forallb (fun x => negb (is_sep env x)) (dots ++ rest) = true) as Hno.
    { by rewrite forallb_app, dots_no_sep, Hrs. }
    destruct Hdir as [->|(d & x & -> & Hx)].
    - simpl. by rewrite rfind_none.
    - rewrite <- app_assoc. cbn [app].
      rewrite rfind_last by (done || lia).
      rewrite length_app. simpl. lia. }
  rewrite Hsep.
  destruct (rev dots) as [|x rdots] eqn:Hrev.
  - (* no leading dot: the last dot, if any, is in [dir] *)
    apply (f_equal (@rev N)) in Hrev. rewrite rev_involutive in Hrev. simpl in Hrev.
    subst dots. cbn [app].
    rewrite rfind_app_none by done.
    pose proof (rfind_range is_dot dir 0%Z ltac:(lia)) as Hr.
    assert ((Z.of_nat (length dir) - 1 <? rfind is_dot dir 0)%Z = false) as ->; [|done].
    apply Z.ltb_ge. lia.
  - (* leading dots: only dots stand before the last dot *)
    apply (f_equal (@rev N)) in Hrev. rewrite rev_involutive in Hrev. simpl in Hrev.
    subst dots. rewrite forallb_app in Hdots. apply andb_prop in Hdots as [Hd Hx].
    simpl in Hx. rewrite andb_true_r in Hx.
    assert (rfind is_dot (dir ++ (rev rdots ++ [x]) ++ rest) 0
            = Z.of_nat (length dir + length (rev rdots))) as Hdot.
    { rewrite <- (app_assoc (rev rdots)), app_assoc. cbn [app].
      rewrite rfind_last by (done || lia). by rewrite length_app. }
    rewrite Hdot.
    assert (slice (dir ++ (rev rdots ++ [x]) ++ rest) (Z.of_nat (length dir) - 1 + 1)
                  (Z.of_nat (length dir + length (rev rdots))) = rev rdots) as ->.
    { unfold slice.
      replace (Z.to_nat (Z.of_nat (length dir) - 1 + 1)) with (length dir) by lia.
      replace (Z.to_nat (Z.of_nat (length dir + length (rev rdots))
                         - (Z.of_nat (length dir) - 1 + 1)))
        with (length (rev rdots)) by lia.
      rewrite drop_app_length, <- !app_assoc. by rewrite take_app_length. }
    assert (existsb (fun y => negb (is_dot y)) (rev rdots) = false) as ->.
    { clear -Hd. induction (rev rdots) as [|y l IH]; simpl in *; [done|].
      apply andb_prop in Hd as [-> Hl]. simpl. by apply IH. }
    by rewrite andb_false_r.
Qed.

End Extension.

(** [import_data] never lets one of the two parser errors out. *)
Lemma import_data_failure_class (env : Env) (file_path : str) (e : exn) :
  import_data env file_path = Raise e -> is_parser_failure (exn_cls e) = false.
Proof.
  unfold import_data.
  destruct (negb (path_exists env file_path)); [by intros [= <-]|].
  destruct (dispatch env file_path) as [d|e'] eqn:Hd; [done|].
  destruct (is_parser_failure (exn_cls e')) eqn:Hp; intros [= <-]; done.
Qed.

(** The five extensions that [import_data] knows. *)
Definition known_extensions : list str :=
  [cps ".csv"; cps ".xlsx"; cps ".xls"; cps ".sqlite"; cps ".db"].

(** A file without extension, in a folder whose name ends like a CSV file. *)
Definition env_hidden : Env :=
  {| is_sep := fun x => (x =? 47)%N;
     path_exists := fun p => str_eqb p (cps "dir.csv/.hidden");
     read_csv := fun _ => Ok (Pandas.mkDataFrame [] []);
     read_excel := fun _ => Ok (Pandas.mkDataFrame [] []);
     read_sqlite := fun _ => Ok (Pandas.mkDataFrame [] []);
     unicode_lower := ascii_lower |}.

(** On an extension of ASCII characters [lower] is computed: the dot stays
    and the letters are lowered. *)
Lemma lower_ascii_ext (env : Env) (ext : str) :
  isascii ext = true -> lower env ([46%N] ++ ext) = 46%N :: ascii_lower ext.
Proof. intros Ha. unfold lower. cbn [app isascii forallb]. fold (isascii ext). by rewrite Ha. Qed.

(** X5. The reader is chosen by the text from the last dot of the last
    component of the path, whatever the case of its letters: when that
    component has a character other than a dot before its last dot, the
    extension is the lower-case form of the text from that dot on; the CSV
    reader runs for ".csv", the Excel reader for ".xlsx" and ".xls", the
    SQLite reader for ".sqlite" and ".db", and any other extension is refused
    with the [ValueError] that names it. For a text of ASCII characters the
    lower-case form is the dot and the letters lowered. *)
Theorem dispatch_by_last_dot (env : Env) (dir name ext : str) :
  is_sep env 46%N = false ->
  forallb (fun x => negb (is_sep env x)) name = true ->
  existsb (fun x => negb (is_dot x)) name = true ->
  forallb (fun x => negb (is_sep env x)) ext = true ->
  forallb (fun x => negb (is_dot x)) ext = true ->
  let file_path := dir ++ name ++ [46%N] ++ ext in
  let e := lower env ([46%N] ++ ext) in
  file_ext env file_path = e
  /\ (e = cps ".csv" -> dispatch env file_path = read_csv env file_path)
  /\ (e = cps ".xlsx" \/ e = cps ".xls" ->
      dispatch env file_path = read_excel env file_path)
  /\ (e = cps ".sqlite" \/ e = cps ".db" ->
      dispatch env file_path = read_sqlite env file_path)
  /\ (~ In e known_extensions ->
      dispatch env file_path
      = Raise (Exn ValueError (cps "The file format '" ++ e ++ cps "' is not supported.")))
  /\ (isascii ext = true -> e = 46%N :: ascii_lower ext).
Proof.
  intros Hdot Hn1 Hn2 He1 He2 file_path e.
  pose proof (file_ext_suffix env Hdot dir name ext Hn1 Hn2 He1 He2) as Hext.
  fold file_path e in Hext.
  split; [done|]. unfold dispatch. rewrite Hext. unfold str_eqb. cbn [existsb].
  split; [|split; [|split; [|split]]].
  - by intros ->.
  - by intros [-> | ->].
  - by intros [-> | ->].
  - intros Hnot. unfold known_extensions in Hnot. cbn [In] in Hnot.
    repeat match goal with
    | |- context [bool_decide (e = cps ?l)] =>
        rewrite (bool_decide_eq_false_2 (e = cps l))
          by (intros Heq; apply Hnot; rewrite Heq; tauto)
    end.
    done.
  - apply lower_ascii_ext.
Qed.

(** X6. A path that exists but whose last component has no dot after its
    leading dots (a name without extension, or a hidden file such as ".csv")
    has the empty extension, and [import_data] refuses it. *)
Theorem import_data_without_extension (env : Env) (dir dots rest : str) :
  is_sep env 46%N = false ->
  (dir = [] \/ exists d x, dir = d ++ [x] /\ is_sep env x = true) ->
  forallb is_dot dots = true ->
  forallb (fun x => negb (is_sep env x)) rest = true ->
  forallb (fun x => negb (is_dot x)) rest = true ->
  path_exists env (dir ++ dots ++ rest) = true ->
  import_data env (dir ++ dots ++ rest)
  = Raise (Exn ValueError (cps "The file format '' is not supported.")).
Proof.
  intros Hdot Hdir Hdots Hr1 Hr2 Hex.
  pose proof (file_ext_none env Hdot dir dots rest Hdir Hdots Hr1 Hr2) as Hext.
  unfold import_data, dispatch. rewrite Hex, Hext. done.
Qed.

Lemma dispatch_by_last_dot_witness :
  let file_path := cps "data/" ++ cps "Report.V2" ++ [46%N] ++ cps "XLSX" in
  let e := lower env_no_test_table ([46%N] ++ cps "XLSX") in
  file_ext env_no_test_table file_path = e
  /\ (e = cps ".csv" ->
      dispatch env_no_test_table file_path = read_csv env_no_test_table file_path)
  /\ (e = cps ".xlsx" \/ e = cps ".xls" ->
      dispatch env_no_test_table file_path = read_excel env_no_test_table file_path)
  /\ (e = cps ".sqlite" \/ e = cps ".db" ->
      dispatch env_no_test_table file_path = read_sqlite env_no_test_table file_path)
  /\ (~ In e known_extensions ->
      dispatch env_no_test_table file_path
      = Raise (Exn ValueError (cps "The file format '" ++ e ++ cps "' is not supported.")))
  /\ (isascii (cps "XLSX") = true -> e = 46%N :: ascii_lower (cps "XLSX")).
Proof.
  exact (dispatch_by_last_dot env_no_test_table (cps "data/") (cps "Report.V2") (cps "XLSX")
           eq_refl eq_refl eq_refl eq_refl eq_refl).
Defined.

Lemma import_data_without_extension_witness :
  import_data env_hidden (cps "dir.csv/" ++ cps "." ++ cps "hidden")
  = Raise (Exn ValueError (cps "The file format '' is not supported.")).
Proof.
  apply (import_data_without_extension env_hidden (cps "dir.csv/") (cps ".") (cps "hidden"));
    try reflexivity.
  right. exists (cps "dir.csv"), 47%N. split; reflexivity.
Defined.

End ImportFilesFacts.

(** ** More on data_preparation/data_preprocessing.py *)

Module DataPreprocessingFacts.
Import Pandas ScikitLearn Features.

(** *** Missing cells and their count *)

Lemma count_null_zero (c : Series) :
  count_null c = 0 <-> forallb notnull (s_values c) = true.
Proof.
  unfold count_null, notnull.
  induction (s_values c) as [|v l IH]; simpl; [done|].
  destruct (isnull v); simpl; [split; discriminate|done].
Qed.

Lemma forallb_false_In {A} (f : A -> bool) (l : list A) :
  forallb f l = false -> exists x, In x l /\ f x = false.
Proof.
  induction l as [|x l IH]; simpl; [done|].
  destruct (f x) eqn:Hx; simpl.
  - intros (y & Hy & Hf)%IH. exists y. tauto.
  - intros _. exists x. tauto.
Qed.

Lemma list_sum_zero (l : list nat) : list_sum l = 0 <-> Forall (fun n => n = 0) l.
Proof.
  induction l as [|n l IH]; simpl; [split; [constructor|done]|].
  split.
  - intros H. constructor; [lia|]. apply IH. lia.
  - intros [-> Hl]%Forall_cons. simpl. by apply IH.
Qed.

(** No cell is missing exactly when the count of [detect_missing_values] is
    zero. *)
Lemma total_missing_zero (d : DataFrame) :
  total_missing d = 0
  <-> Forall (fun c => forallb notnull (s_values c) = true) (df_columns d).
Proof.
  unfold total_missing, isnull_sum. rewrite map_map. simpl.
  rewrite list_sum_zero, Forall_map.
  apply Forall_iff. intros c. apply count_null_zero.
Qed.

(** *** [dropna] *)

(** The cells that the mask of the complete rows selects are not missing. *)
Lemma select_complete n : forall (cols : list (list value)),
  Forall (fun c => length c = n) cols ->
  Forall (fun c => forallb notnull (select (map row_complete (transpose n cols)) c) = true)
         cols.
Proof.
  induction n as [|n IH]; intros cols Hlen.
  - eapply Forall_impl; [exact Hlen|]. by intros [|x c].
  - assert (Forall (fun c => length c = n) (map (@tl value) cols)) as Htl.
    { apply Forall_map. eapply Forall_impl; [exact Hlen|].
      intros [|x c]; simpl; [done|]. by intros [= ->]. }
    specialize (IH _ Htl). rewrite Forall_map in IH.
    cbn [transpose map].
    apply Forall_forall. intros c Hc.
    rewrite Forall_forall in IH, Hlen.
    specialize (IH c Hc). specialize (Hlen c Hc).
    destruct c as [|x c]; [done|]. cbn [select tl] in *.
    destruct (row_complete (map (hd VNone) cols)) eqn:Hrow; [|done].
    cbn [forallb]. rewrite IH, andb_true_r.
    unfold row_complete in Hrow. rewrite forallb_forall in Hrow.
    apply Hrow. apply list_elem_of_In in Hc.
    apply (in_map (hd VNone)) in Hc. done.
Qed.

Lemma select_all {A} (l : list A) : forall (mask : list bool),
  length mask = length l -> Forall (fun b => b = true) mask -> select mask l = l.
Proof.
  induction l as [|x l IH]; intros [|b mask]; simpl; try done.
  intros [= Hl] [-> Hm]%Forall_cons. by rewrite IH.
Qed.

Lemma dropna_names (d : DataFrame) : column_names (dropna d) = column_names d.
Proof. unfold column_names, dropna. simpl. by rewrite map_map. Qed.

Lemma dropna_dtypes (d : DataFrame) :
  map s_dtype (df_columns (dropna d)) = map s_dtype (df_columns d).
Proof. unfold dropna. simpl. by rewrite map_map. Qed.

Lemma rows_length (d : DataFrame) : length (rows d) = len d.
Proof. unfold rows. apply transpose_length. Qed.

Lemma dropna_wf (d : DataFrame) : wf d -> wf (dropna d).
Proof.
  intros [Hlen Hnd]. split; [|by rewrite dropna_names].
  rewrite dropna_len. unfold dropna. simpl.
  apply Forall_map. eapply Forall_impl; [exact Hlen|].
  intros c Hc. simpl.
  rewrite select_length_count by (by rewrite length_map, rows_length).
  apply filter_id_map.
Qed.

Lemma dropna_complete (d : DataFrame) : wf d -> total_missing (dropna d) = 0.
Proof.
  intros [Hlen _]. apply total_missing_zero. unfold dropna. simpl.
  apply Forall_map. simpl.
  assert (Forall (fun c => length c = len d) (map s_values (df_columns d))) as H
    by by apply Forall_map.
  apply select_complete in H. by rewrite Forall_map in H.
Qed.

(** The rows of complete columns are complete. *)
Lemma transpose_complete n : forall (cols : list (list value)),
  Forall (fun c => length c = n) cols ->
  Forall (fun c => forallb notnull c = true) cols ->
  Forall (fun r => row_complete r = true) (transpose n cols).
Proof.
  induction n as [|n IH]; intros cols Hlen Hc; simpl; [constructor|].
  constructor.
  - unfold row_complete. apply forallb_forall. intros v (c & <- & Hin)%in_map_iff.
    rewrite Forall_forall in Hc, Hlen. apply list_elem_of_In in Hin.
    specialize (Hc c Hin). specialize (Hlen c Hin).
    destruct c as [|x c]; [done|]. simpl in *. by apply andb_prop in Hc as [? _].
  - apply IH.
    + apply Forall_map. eapply Forall_impl; [exact Hlen|].
      intros [|x c]; simpl; [done|]. by intros [= ->].
    + apply Forall_map. eapply Forall_impl; [exact Hc|].
      intros [|x c]; simpl; [done|]. by intros [_ ?]%andb_prop.
Qed.

(** A table without missing cells is a fixed point of [dropna]. *)
Lemma dropna_fixed (d : DataFrame) : wf d -> total_missing d = 0 -> dropna d = d.
Proof.
  intros [Hlen _] Hz. apply total_missing_zero in Hz.
  assert (Forall (fun b => b = true) (map row_complete (rows d))) as Hmask.
  { apply Forall_map. apply transpose_complete; by apply Forall_map. }
  destruct d as [index columns]. unfold dropna. cbn [df_index df_columns] in *. f_equal.
  - apply select_all; [|done]. by rewrite length_map, rows_length.
  - rewrite <- (map_id columns) at 2. apply map_ext_in.
    intros c Hc. rewrite Forall_forall in Hlen.
    apply list_elem_of_In in Hc. specialize (Hlen c Hc). simpl in Hlen.
    rewrite select_all; [by destruct c| |done].
    by rewrite length_map, rows_length.
Qed.

(** *** [detect_missing_values] *)

Lemma detect_missing_values_clean (viewer : Viewer) (d : DataFrame) :
  df viewer = Some d -> total_missing d = 0 ->
  detect_missing_values viewer = set_empty_values false viewer.
Proof. intros Hd Hz. unfold detect_missing_values. by rewrite Hd, Hz. Qed.

(** X7. Removing the rows with missing values leaves a table in which no cell
    is missing, with the columns (names and dtypes) it had, one cell per row
    in every column; a second removal changes nothing, and a new detection
    would find no missing value. *)
Theorem remove_missing_values_leaves_none (viewer : Viewer) (d : DataFrame) :
  df viewer = Some d ->
  wf d ->
  exists d',
    df (remove_missing_values viewer).1 = Some d'
    /\ wf d' /\ total_missing d' = 0
    /\ column_names d' = column_names d
    /\ map s_dtype (df_columns d') = map s_dtype (df_columns d)
    /\ df (remove_missing_values (remove_missing_values viewer).1).1 = Some d'
    /\ empty_values (detect_missing_values (remove_missing_values viewer).1) = false.
Proof.
  intros Hd Hwf. exists (dropna d).
  assert (df (remove_missing_values viewer).1 = Some (dropna d)) as Hd'.
  { unfold remove_missing_values. rewrite Hd. simpl. by rewrite display_data_in_table_df. }
  split; [done|]. split; [by apply dropna_wf|].
  split; [by apply dropna_complete|].
  split; [apply dropna_names|]. split; [apply dropna_dtypes|]. split.
  - unfold remove_missing_values at 1. rewrite Hd'. simpl.
    rewrite display_data_in_table_df. simpl.
    by rewrite dropna_fixed by (by apply dropna_wf || by apply dropna_complete).
  - rewrite (detect_missing_values_clean _ _ Hd'); [done|]. by apply dropna_complete.
Qed.

(** X8. [detect_missing_values] raises the flag [empty_values] exactly when
    some cell of the table is missing ([None] or NaN). When it does, it also
    sets [nan_data], puts the combo box back on its first entry and enables
    it; when it does not, it lowers the flag and touches nothing else, so
    [nan_data] keeps the value of an earlier file. *)
Theorem detect_missing_values_flag (viewer : Viewer) (d : DataFrame) :
  df viewer = Some d ->
  let viewer' := detect_missing_values viewer in
  (empty_values viewer' = true
   <-> exists c v, In c (df_columns d) /\ In v (s_values c) /\ isnull v = true)
  /\ (empty_values viewer' = true ->
      nan_data viewer' = Some true /\ current_index viewer' = 0
      /\ enabled viewer' preprocessing_options = true)
  /\ (empty_values viewer' = false -> viewer' = set_empty_values false viewer).
Proof.
  intros Hd viewer'. subst viewer'.
  assert (total_missing d <> 0
          <-> exists c v, In c (df_columns d) /\ In v (s_values c) /\ isnull v = true) as Hex.
  { rewrite total_missing_zero. split.
    - intros Hn. apply not_Forall_Exists in Hn; [|intros c; apply bool_dec].
      apply Exists_exists in Hn as (c & Hc & Hv). exists c.
      apply list_elem_of_In in Hc.
      destruct (forallb notnull (s_values c)) eqn:Hf; [done|].
      apply forallb_false_In in Hf as (v & Hv1 & Hv2). exists v. unfold notnull in Hv2.
      split; [done|]. split; [done|]. by destruct (isnull v).
    - intros (c & v & Hc & Hv & Hnull) Hall.
      rewrite Forall_forall in Hall. apply list_elem_of_In in Hc.
      specialize (Hall c Hc). rewrite forallb_forall in Hall.
      specialize (Hall v Hv). unfold notnull in Hall. by rewrite Hnull in Hall. }
  unfold detect_missing_values. rewrite Hd.
  destruct (total_missing d =? 0) eqn:Hz; cbn [negb].
  - apply Nat.eqb_eq in Hz. split; [|split; [done|done]].
    split; [done|]. intros H. apply Hex in H. done.
  - apply Nat.eqb_neq in Hz.
    assert (empty_values
              (setEnabled preprocessing_options true
                 (setCurrentIndex 0 (set_nan_data (Some true) (set_empty_values true viewer))))
            = true) as He.
    { unfold setCurrentIndex, preprocessing_button. simpl.
      by destruct (current_index viewer =? 0). }
    rewrite He. split; [|split; [|done]].
    + split; [intros _; by apply Hex|done].
    + intros _. unfold setCurrentIndex, preprocessing_button. simpl.
      destruct (current_index viewer =? 0) eqn:Hi; simpl; [|done].
      by apply Nat.eqb_eq in Hi.
Qed.

Lemma remove_missing_values_leaves_none_witness :
  df sample_viewer = Some sample_table
  /\ wf sample_table
  /\ exists d',
      df (remove_missing_values sample_viewer).1 = Some d'
      /\ wf d' /\ total_missing d' = 0
      /\ column_names d' = column_names sample_table
      /\ map s_dtype (df_columns d') = map s_dtype (df_columns sample_table)
      /\ df (remove_missing_values (remove_missing_values sample_viewer).1).1 = Some d'
      /\ empty_values (detect_missing_values (remove_missing_values sample_viewer).1) = false.
Proof.
  split; [reflexivity|]. split; [exact sample_table_wf|].
  exact (remove_missing_values_leaves_none sample_viewer sample_table eq_refl sample_table_wf).
Defined.

Lemma detect_missing_values_flag_witness :
  df sample_viewer = Some sample_table
  /\ let viewer' := detect_missing_values sample_viewer in
     (empty_values viewer' = true
      <-> exists c v, In c (df_columns sample_table) /\ In v (s_values c) /\ isnull v = true)
     /\ (empty_values viewer' = true ->
         nan_data viewer' = Some true /\ current_index viewer' = 0
         /\ enabled viewer' preprocessing_options = true)
     /\ (empty_values viewer' = false -> viewer' = set_empty_values false sample_viewer).
Proof.
  split; [reflexivity|].
  exact (detect_missing_values_flag sample_viewer sample_table eq_refl).
Defined.

End DataPreprocessingFacts.

(** ** More on model_management/scikit_learn.py *)

Module ScikitLearnFacts.
Import Pandas ScikitLearn.

(** *** The order of the strings *)

Lemma N_compare_eq (x y : N) : (x ?= y)%N = Eq <-> x = y.
Proof. apply N.compare_eq_iff. Qed.

Lemma N_compare_trans (x y z : N) (c : comparison) :
  (x ?= y)%N = c -> (y ?= z)%N = c -> (x ?= z)%N = c.
Proof.
  destruct c; rewrite ?N.compare_eq_iff, ?N.compare_lt_iff, ?N.compare_gt_iff; lia.
Qed.

Lemma str_compare_eq (a b : str) : str_compare a b = Eq <-> a = b.
Proof. apply list_compare_refl, N_compare_eq. Qed.

Lemma str_compare_antisym (a b : str) : str_compare b a = CompOpp (str_compare a b).
Proof. apply list_compare_antisym; [apply N_compare_eq|apply N.compare_antisym]. Qed.

Lemma str_compare_trans (a b c : str) :
  str_compare a b = Lt -> str_compare b c = Lt -> str_compare a c = Lt.
Proof.
  apply list_compare_trans;
    [apply N_compare_eq|apply N_compare_trans|apply N.compare_antisym].
Qed.

Lemma str_compare_irrefl (a : str) : str_compare a a <> Lt.
Proof. by rewrite (proj2 (str_compare_eq a a) eq_refl). Qed.

(** *** The classes of a label encoder *)

Definition before (a b : str) : Prop := str_compare a b = Lt.

(** Every string stands before the strings after it. *)
Fixpoint ascending (l : list str) : Prop :=
  match l with
  | [] => True
  | c :: cs => Forall (before c) cs /\ ascending cs
  end.

Lemma insert_class_In (s x : str) (classes : list str) :
  In x (insert_class s classes) <-> x = s \/ In x classes.
Proof.
  induction classes as [|c cs IH]; simpl; [intuition congruence|].
  destruct (str_compare s c) eqn:Hc; simpl.
  - apply str_compare_eq in Hc as ->. intuition congruence.
  - intuition congruence.
  - rewrite IH. intuition congruence.
Qed.

Lemma insert_class_sorted (s : str) (classes : list str) :
  ascending classes -> ascending (insert_class s classes).
Proof.
  induction classes as [|c cs IH]; cbn [ascending insert_class]; [by repeat constructor|].
  intros [Hc Hs]. specialize (IH Hs).
  destruct (str_compare s c) eqn:Hsc; cbn [ascending].
  - done.
  - split; [|done]. constructor; [done|].
    eapply Forall_impl; [exact Hc|]. intros x Hx. by eapply str_compare_trans.
  - split; [|done]. apply Forall_forall. intros x Hx.
    apply list_elem_of_In, insert_class_In in Hx as [->|Hx].
    + unfold before. rewrite str_compare_antisym, Hsc. done.
    + rewrite Forall_forall in Hc. by apply Hc, list_elem_of_In.
Qed.

Lemma classes_of_In (l : list str) (x : str) : In x (classes_of l) <-> In x l.
Proof.
  unfold classes_of. induction l as [|s l IH]; simpl; [done|].
  rewrite insert_class_In, IH. split; intros [|]; auto.
Qed.

Lemma classes_of_sorted (l : list str) : ascending (classes_of l).
Proof.
  unfold classes_of. induction l as [|s l IH]; simpl; [done|].
  by apply insert_class_sorted.
Qed.

Lemma insert_class_length (s : str) (classes : list str) :
  length (insert_class s classes) <= S (length classes).
Proof.
  induction classes as [|c cs IH]; simpl; [lia|].
  destruct (str_compare s c); simpl; lia.
Qed.

Lemma classes_of_length (l : list str) : length (classes_of l) <= length l.
Proof.
  unfold classes_of. induction l as [|s l IH]; simpl; [lia|].
  pose proof (insert_class_length s (fold_right insert_class [] l)). lia.
Qed.

(** *** The position of a class *)

Lemma index_of_lookup (s : str) (classes : list str) :
  In s classes -> classes !! index_of s classes = Some s.
Proof.
  induction classes as [|c cs IH]; simpl; [done|].
  destruct (bool_decide (s = c)) eqn:Hc.
  - apply bool_decide_eq_true in Hc as ->. done.
  - apply bool_decide_eq_false in Hc. intros [Heq|Hin]; [congruence|by apply IH].
Qed.

Lemma index_of_lt (s : str) (classes : list str) :
  In s classes -> index_of s classes < length classes.
Proof. intros H%index_of_lookup. by eapply lookup_lt_Some. Qed.

(** In a sorted list the positions follow the order of the strings. *)
Lemma index_of_order (s t : str) (classes : list str) :
  ascending classes -> In s classes -> In t classes ->
  (index_of s classes < index_of t classes <-> before s t).
Proof.
  induction classes as [|c cs IH]; [done|]. cbn [ascending index_of].
  intros [Hc Hs]. specialize (IH Hs).
  rewrite Forall_forall in Hc.
  intros Hin_s Hin_t.
  destruct (bool_decide (s = c)) eqn:Hsc, (bool_decide (t = c)) eqn:Htc.
  - apply bool_decide_eq_true in Hsc as ->. apply bool_decide_eq_true in Htc as ->.
    split; [lia|]. intros H. by apply str_compare_irrefl in H.
  - apply bool_decide_eq_true in Hsc as ->. apply bool_decide_eq_false in Htc.
    split; [|lia]. intros _. apply Hc, list_elem_of_In.
    destruct Hin_t; [congruence|done].
  - apply bool_decide_eq_false in Hsc. apply bool_decide_eq_true in Htc as ->.
    split; [lia|]. intros H.
    assert (before c s) as H2
      by (apply Hc, list_elem_of_In; destruct Hin_s; [congruence|done]).
    exfalso. apply (str_compare_irrefl s). by eapply str_compare_trans.
  - apply bool_decide_eq_false in Hsc. apply bool_decide_eq_false in Htc.
    assert (In s cs) as Hs' by (destruct Hin_s; [congruence|done]).
    assert (In t cs) as Ht' by (destruct Hin_t; [congruence|done]).
    rewrite <- (IH Hs' Ht'). lia.
Qed.

Lemma index_of_inj (s t : str) (classes : list str) :
  In s classes -> In t classes -> index_of s classes = index_of t classes -> s = t.
Proof.
  intros Hs%index_of_lookup Ht%index_of_lookup Heq. rewrite Heq in Hs. congruence.
Qed.

(** The codes of a list of strings: equal strings share their code, the code
    of a smaller string is smaller, and the codes stay below the number of
    strings. *)
Lemma label_encode_spec (l : list str) (j k : nat) (s t : str) :
  l !! j = Some s -> l !! k = Some t ->
  exists a b : Z,
    label_encode l !! j = Some a /\ label_encode l !! k = Some b
    /\ (0 <= a < Z.of_nat (length l))%Z
    /\ (a = b <-> s = t)
    /\ ((a < b)%Z <-> str_compare s t = Lt).
Proof.
  intros Hj Hk.
  assert (In s (classes_of l)) as Hs
    by (apply classes_of_In, list_elem_of_In; by eapply list_elem_of_lookup_2).
  assert (In t (classes_of l)) as Ht
    by (apply classes_of_In, list_elem_of_In; by eapply list_elem_of_lookup_2).
  exists (Z.of_nat (index_of s (classes_of l))), (Z.of_nat (index_of t (classes_of l))).
  unfold label_encode. rewrite !list_lookup_fmap, Hj, Hk. simpl.
  split; [done|]. split; [done|].
  pose proof (index_of_lt _ _ Hs). pose proof (classes_of_length l).
  split; [lia|]. split.
  - split; [|by intros ->]. intros Heq%Nat2Z.inj. by eapply index_of_inj.
  - rewrite <- Nat2Z.inj_lt. apply index_of_order; [apply classes_of_sorted|done..].
Qed.

Section Encoded.
Variable lib : Library.

(** X9. The column that the encoding loop of [linear_regression] leaves in
    place of a non-numeric column: every cell holds a code, which is a whole
    number from 0 below the number of cells; two cells have the same code
    exactly when their texts under [astype(str)] are equal, and the codes
    follow the order of these texts. A missing cell is no exception: it is
    encoded as the text "None" (or "nan"). *)
Theorem encoded_codes (c : Series) (j k : nat) (u v : value) :
  s_values c !! j = Some u ->
  s_values c !! k = Some v ->
  exists a b : Z,
    s_values (encoded lib c) !! j = Some (VFloat (float_of_Z a))
    /\ s_values (encoded lib c) !! k = Some (VFloat (float_of_Z b))
    /\ (0 <= a < Z.of_nat (length (s_values c)))%Z
    /\ (a = b <-> astype_str lib u = astype_str lib v)
    /\ ((a < b)%Z <-> str_compare (astype_str lib u) (astype_str lib v) = Lt).
Proof.
  intros Hj Hk.
  destruct (label_encode_spec (map (astype_str lib) (s_values c)) j k
              (astype_str lib u) (astype_str lib v))
    as (a & b & Ha & Hb & Hr & Heq & Hlt).
  { by rewrite list_lookup_fmap, Hj. }
  { by rewrite list_lookup_fmap, Hk. }
  exists a, b. unfold encoded. simpl.
  rewrite !list_lookup_fmap, Ha, Hb. rewrite length_map in Hr. done.
Qed.

End Encoded.

(** *** The formula and the lists it reads *)

Lemma formula_terms_within (coefficients : list float) (input_columns : list str) :
  forall (i : nat) (formula : str),
    i + length coefficients <= length input_columns ->
    formula_terms i coefficients input_columns formula
    = Ok (formula ++ concat (map term_str (combine coefficients (drop i input_columns)))).
Proof.
  induction coefficients as [|coef rest IH]; intros i formula Hlen;
    cbn [formula_terms length] in *.
  - cbn [combine map concat]. by rewrite app_nil_r.
  - destruct (input_columns !! i) as [col|] eqn:Hi.
    + rewrite IH by lia.
      rewrite (drop_S _ _ _ Hi). cbn [combine map concat].
      unfold term_str at 2. cbn [fst snd]. by rewrite <- !app_assoc.
    + apply lookup_ge_None in Hi. lia.
Qed.

Lemma formula_terms_beyond (coefficients : list float) (input_columns : list str) :
  forall (i : nat) (formula : str),
    i <= length input_columns ->
    length input_columns < i + length coefficients ->
    formula_terms i coefficients input_columns formula
    = Raise (Exn IndexError (cps "list index out of range")).
Proof.
  induction coefficients as [|coef rest IH]; intros i formula Hi Hlen;
    cbn [formula_terms length] in *; [lia|].
  destruct (input_columns !! i) as [col|] eqn:Hcol; [|done].
  apply lookup_lt_Some in Hcol. apply IH; lia.
Qed.

(** X10. The formula needs one input column name for every coefficient of the
    model. With at least as many names as coefficients it is built from the
    coefficients and the first names, in order, and the names beyond the
    coefficients are left out; with fewer names the loop ends in an
    [IndexError]. *)
Theorem build_formula_bounds (repr_str : str -> str) (output_columns : columns_arg)
        (m : LinearRegression) (input_columns : list str) :
  (length (coef_ m) <= length input_columns ->
   build_formula repr_str output_columns m input_columns
   = Ok (columns_str repr_str output_columns ++ cps " = " ++ format_2f (intercept_ m)
         ++ concat (map term_str (combine (coef_ m) input_columns))))
  /\ (length input_columns < length (coef_ m) ->
      build_formula repr_str output_columns m input_columns
      = Raise (Exn IndexError (cps "list index out of range"))).
Proof.
  unfold build_formula. split; intros Hlen.
  - rewrite formula_terms_within by (cbn [plus]; lia). by rewrite drop_0, <- !app_assoc.
  - apply formula_terms_beyond; cbn [plus]; lia.
Qed.

Example formula_fewer_coefficients :
  build_formula repr_plain (ColName (cps "y")) (mkModel [2%float] 0%float)
                [cps "x"; cps "z"]
  = Ok (cps "y = 0.00 + (2.00) * x")
  /\ build_formula repr_plain (ColName (cps "y")) (mkModel [2%float; 3%float] 0%float)
                   [cps "x"]
     = Raise (Exn IndexError (cps "list index out of range")).
Proof. vm_compute. done. Qed.

(** *** Columns that the table does not have *)

Lemma getitem_list_missing (d : DataFrame) (names : list str) :
  (exists n, In n names /\ ~ In n (column_names d)) ->
  exists n, getitem_list d names = Raise (Exn KeyError n)
            /\ In n names /\ ~ In n (column_names d).
Proof.
  induction names as [|n names IH]; intros (m & Hin & Hm); [done|]. simpl.
  destruct (List.filter (fun c => bool_decide (s_name c = n)) (df_columns d))
    as [|c cols] eqn:Hf.
  - exists n. split; [done|]. split; [by left|].
    intros (c & Hc & Hin')%in_map_iff.
    assert (In c (List.filter (fun c => bool_decide (s_name c = n)) (df_columns d))) as H.
    { apply filter_In. split; [done|]. by apply bool_decide_eq_true. }
    by rewrite Hf in H.
  - destruct Hin as [->|Hin].
    + exfalso. apply Hm.
      assert (In c (List.filter (fun c => bool_decide (s_name c = m)) (df_columns d))) as H
        by (rewrite Hf; by left).
      apply filter_In in H as [H1 H2]. apply bool_decide_eq_true in H2 as <-.
      by apply in_map.
    + destruct IH as (n' & Hn' & Hin' & Hmiss); [by exists m|].
      exists n'. rewrite Hn'. split; [done|]. split; [by right|done].
Qed.

Lemma encoded_names (lib : Library) (cols : list Series) :
  map s_name (map (encoded_if_non_numeric lib) cols) = map s_name cols.
Proof.
  rewrite map_map. apply map_ext. intros c. unfold encoded_if_non_numeric.
  by destruct (is_number (s_dtype c)).
Qed.

(** X11. An input column that the table does not have: [linear_regression]
    ends in a [KeyError] for a name of the list that is no column of the
    table, after the encoding loop has already replaced the non-numeric
    columns of the caller's table. *)
Theorem linear_regression_missing_input (lib : Library) (repr_str : str -> str)
        (generator : N) (data : DataFrame) (input_columns : list str)
        (output_columns : columns_arg) :
  NoDup (column_names data) ->
  (exists n, In n input_columns /\ ~ In n (column_names data)) ->
  exists n,
    linear_regression lib repr_str generator data input_columns output_columns
    = (mkDataFrame (df_index data) (map (encoded_if_non_numeric lib) (df_columns data)),
       Raise (Exn KeyError n))
    /\ In n input_columns /\ ~ In n (column_names data).
Proof.
  intros Hnd Hmiss. unfold linear_regression.
  rewrite (encode_columns_distinct lib _ _ eq_refl Hnd).
  set (data' := mkDataFrame _ _).
  assert (column_names data' = column_names data) as Hnames
    by apply encoded_names.
  rewrite <- Hnames in Hmiss.
  destruct (getitem_list_missing data' input_columns Hmiss) as (n & Hn & Hin & Hno).
  exists n. unfold regress. rewrite Hn. simpl. rewrite <- Hnames. done.
Qed.

Lemma encoded_codes_witness :
  exists a b : Z,
    s_values (encoded canned_library
                (mkSeries (cps "city") Object
                   [VStr (cps "Vigo"); VStr (cps "None"); VStr (cps "Vigo"); VNone]))
      !! 1%nat = Some (VFloat (float_of_Z a))
    /\ s_values (encoded canned_library
                   (mkSeries (cps "city") Object
                      [VStr (cps "Vigo"); VStr (cps "None"); VStr (cps "Vigo"); VNone]))
         !! 3%nat = Some (VFloat (float_of_Z b))
    /\ (0 <= a < 4)%Z
    /\ (a = b <-> astype_str canned_library (VStr (cps "None"))
                  = astype_str canned_library VNone)
    /\ ((a < b)%Z <-> str_compare (astype_str canned_library (VStr (cps "None")))
                                 (astype_str canned_library VNone) = Lt).
Proof.
  exact (encoded_codes canned_library
           (mkSeries (cps "city") Object
              [VStr (cps "Vigo"); VStr (cps "None"); VStr (cps "Vigo"); VNone])
           1 3 (VStr (cps "None")) VNone eq_refl eq_refl).
Defined.

(** A missing cell and the text "None" get the same code. *)
Example missing_cell_is_a_class :
  s_values (encoded canned_library
              (mkSeries (cps "city") Object
                 [VStr (cps "Vigo"); VStr (cps "None"); VStr (cps "Vigo"); VNone]))
  = [VFloat 1%float; VFloat 0%float; VFloat 1%float; VFloat 0%float].
Proof. vm_compute. reflexivity. Qed.

Lemma linear_regression_missing_input_witness :
  NoDup (column_names sample_table)
  /\ (exists n, In n [cps "x"; cps "z"] /\ ~ In n (column_names sample_table))
  /\ exists n,
      linear_regression canned_library repr_plain 0 sample_table [cps "x"; cps "z"]
                        (ColList [cps "y"])
      = (mkDataFrame (df_index sample_table)
           (map (encoded_if_non_numeric canned_library) (df_columns sample_table)),
         Raise (Exn KeyError n))
      /\ In n [cps "x"; cps "z"] /\ ~ In n (column_names sample_table).
Proof.
  assert (NoDup (column_names sample_table)) as Hnd.
  { apply (bool_decide_unpack _). by vm_compute. }
  assert (exists n, In n [cps "x"; cps "z"] /\ ~ In n (column_names sample_table)) as Hm.
  { exists (cps "z"). split; [right; by left|].
    intros H. apply list_elem_of_In in H. revert H.
    apply (bool_decide_unpack _). by vm_compute. }
  split; [exact Hnd|]. split; [exact Hm|].
  exact (linear_regression_missing_input canned_library repr_plain 0 sample_table
           [cps "x"; cps "z"] (ColList [cps "y"]) Hnd Hm).
Defined.

End ScikitLearnFacts.

(** ** More on model_management/model_saver.py *)

Module ModelSaverFacts.
Import Pandas ScikitLearn Persistence StrFacts.

(** The description that [save_model] writes. *)
Lemma model_data_description (self : ModelSaver) :
  model_data_of self !! "description"
  = Some (AStr (match strip (sv_description self) with
                | [] => cps "No description provided."
                | d => d
                end)).
Proof.
  unfold model_data_of.
  do 6 (rewrite lookup_insert_ne by done). by rewrite lookup_insert_eq.
Qed.

(** X12. The description of a saved model is never blank. When [save_model]
    reports success, the file holds under 'description' the description of the
    saver with the white space at its ends taken off, or the text "No
    description provided." when nothing else is left; the text kept is not
    empty and does not begin or end with white space. *)
Theorem saved_description_not_blank (self : ModelSaver) (file_path : str)
        (fs : FileSystem) :
  (save_model self file_path fs).2 = Information (cps "Model saved successfully.") ->
  exists d,
    load_model file_path (save_model self file_path fs).1 ≫= (.!! "description")
    = Some (AStr d)
    /\ d <> [] /\ strip d = d
    /\ (forallb isspace (sv_description self) = true ->
        d = cps "No description provided.")
    /\ (forallb isspace (sv_description self) = false ->
        d = strip (sv_description self)).
Proof.
  unfold save_model, joblib_dump, load_model, joblib_load.
  destruct (writable fs file_path); [intros _|done]. simpl.
  rewrite lookup_insert_eq. simpl. rewrite model_data_description.
  destruct (strip (sv_description self)) as [|x d] eqn:Hs.
  - exists (cps "No description provided."). split; [done|]. split; [done|].
    split; [by vm_compute|]. split; [done|].
    apply strip_nil in Hs. congruence.
  - exists (x :: d). split; [done|]. split; [done|].
    split; [by rewrite <- Hs, strip_idemp|]. split; [|done].
    intros Hb%strip_nil. congruence.
Qed.

Definition blank_saver : ModelSaver :=
  {| sv_model := mkModel [2%float] 0%float;
     sv_formula := cps "y = 0.00 + (2.00) * x";
     sv_r_squared := 1%float;
     sv_mse := 0%float;
     sv_input_columns := [cps "x"];
     sv_output_column := [cps "y"];
     sv_description := cps "   ";
     sv_graph := None |}.

Lemma saved_description_not_blank_witness :
  (save_model blank_saver (cps "model.joblib") empty_disk).2
  = Information (cps "Model saved successfully.")
  /\ exists d,
      load_model (cps "model.joblib")
                 (save_model blank_saver (cps "model.joblib") empty_disk).1
        ≫= (.!! "description")
      = Some (AStr d)
      /\ d <> [] /\ strip d = d
      /\ (forallb isspace (sv_description blank_saver) = true ->
          d = cps "No description provided.")
      /\ (forallb isspace (sv_description blank_saver) = false ->
          d = strip (sv_description blank_saver)).
Proof.
  split; [reflexivity|].
  exact (saved_description_not_blank blank_saver (cps "model.joblib") empty_disk eq_refl).
Defined.

End ModelSaverFacts.

(** ** utils/helpers.py: the visibility of a layout *)

Module Helpers.

Section Layouts.
Context {W : Type}.

(** The widgets are told apart by a test, [eqb w' w]. *)
Variable eqb : W -> W -> bool.

(** What [layout.itemAt(i)] may be: a widget, another layout, or a spacer. A
    layout is the list of its items. *)
#[local] Unset Elimination Schemes.
Inductive layout_item :=
| ItemWidget (w : W)
| ItemLayout (items : list layout_item)
| ItemSpacer.
#[local] Set Elimination Schemes.

(** One turn of the loop of [LayoutHelper.layout_visibility], on the flags
    [visible] of the widgets; a nested layout is entered with [sublayouts]
    set. *)
Fixpoint item_visibility (sublayouts visibility : bool) (item : layout_item)
         (visible : W -> bool) : W -> bool :=
  match item with
  | ItemWidget w => fun w' => if eqb w' w then visibility else visible w'
  | ItemLayout items =>
      if sublayouts
      then fold_right (fun item' visible' => item_visibility true visibility item' visible')
                      visible items
      else visible
  | ItemSpacer => visible
  end.

(** [layout_visibility(sublayouts, visibility, layout)]: the items are
    visited from the last to the first. *)
Definition layout_visibility (sublayouts visibility : bool) (layout : list layout_item)
           (visible : W -> bool) : W -> bool :=
  fold_right (item_visibility sublayouts visibility) visible layout.

(** The widgets that the loop reaches. *)
Fixpoint item_widgets (sublayouts : bool) (item : layout_item) : list W :=
  match item with
  | ItemWidget w => [w]
  | ItemLayout items =>
      if sublayouts then flat_map (item_widgets true) items else []
  | ItemSpacer => []
  end.

Definition layout_widgets (sublayouts : bool) (layout : list layout_item) : list W :=
  flat_map (item_widgets sublayouts) layout.

Lemma layout_item_induction (P : layout_item -> Prop) :
  (forall w, P (ItemWidget w)) ->
  (forall items, Forall P items -> P (ItemLayout items)) ->
  P ItemSpacer ->
  forall item, P item.
Proof.
  intros Hw Hl Hs. fix IH 1. intros [w|items|]; [apply Hw| |apply Hs].
  apply Hl. induction items as [|item items IHitems]; constructor; [apply IH|exact IHitems].
Qed.

Lemma fold_visibility (sublayouts visibility : bool) (items : list layout_item) :
  Forall (fun item => forall visible w',
            item_visibility sublayouts visibility item visible w'
            = if existsb (eqb w') (item_widgets sublayouts item) then visibility
              else visible w') items ->
  forall visible w',
    fold_right (item_visibility sublayouts visibility) visible items w'
    = if existsb (eqb w') (flat_map (item_widgets sublayouts) items) then visibility
      else visible w'.
Proof.
  induction 1 as [|item items Hitem _ IH]; intros visible w'; simpl; [done|].
  rewrite Hitem, existsb_app, IH.
  by destruct (existsb (eqb w') (item_widgets sublayouts item)).
Qed.

Lemma item_visibility_true (visibility : bool) (item : layout_item) :
  forall visible w',
    item_visibility true visibility item visible w'
    = if existsb (eqb w') (item_widgets true item) then visibility else visible w'.
Proof.
  induction item as [w|items IH|] using layout_item_induction; intros visible w'; simpl.
  - by rewrite orb_false_r.
  - by apply fold_visibility.
  - done.
Qed.

Lemma item_visibility_spec (sublayouts visibility : bool) (item : layout_item) :
  forall visible w',
    item_visibility sublayouts visibility item visible w'
    = if existsb (eqb w') (item_widgets sublayouts item) then visibility else visible w'.
Proof.
  destruct sublayouts; [apply item_visibility_true|].
  destruct item as [w|items|]; intros visible w'; simpl; [|done..].
  by rewrite orb_false_r.
Qed.

(** X13. [layout_visibility] gives the visibility asked for to the widgets of
    the layout and, when [sublayouts] is set, to those of the layouts nested
    in it at any depth; every other widget keeps its flag. Without
    [sublayouts] only the widgets that stand in the layout itself change. *)
Theorem layout_visibility_reach (sublayouts visibility : bool)
        (layout : list layout_item) (visible : W -> bool) (w' : W) :
  layout_visibility sublayouts visibility layout visible w'
  = if existsb (eqb w') (layout_widgets sublayouts layout) then visibility
    else visible w'.
Proof.
  unfold layout_visibility, layout_widgets. apply fold_visibility.
  apply Forall_forall. intros item _. apply item_visibility_spec.
Qed.

End Layouts.

Arguments ItemSpacer {W}.

(** The layout that [finalize_layout] builds, with the widgets that carry a
    handler: the welcome window and the layouts of the three steps and of the
    navigation buttons, two of which hold layouts of their own. *)
Definition main_layout_items : list (layout_item (W := Features.widget)) :=
  [ItemWidget Features.welcome_window;
   ItemLayout [ItemWidget Features.load_button; ItemWidget Features.load_model_button;
               ItemWidget Features.back_button];
   ItemLayout [ItemWidget Features.preprocessing_options; ItemWidget Features.apply_button];
   ItemLayout [ItemLayout [ItemWidget Features.radio_simple;
                           ItemWidget Features.radio_multiple];
               ItemWidget Features.feature_selector; ItemWidget Features.target_selector;
               ItemWidget Features.confirm_button;
               ItemWidget Features.create_model_button];
   ItemLayout [ItemLayout [ItemWidget Features.return_button];
               ItemLayout [ItemWidget Features.next_button]]].

(** The wizard hides its main layout with [sublayouts] set, and that reaches
    the widgets of every step; without the flag only the welcome window
    would change. *)
Example main_layout_reach :
  layout_widgets true main_layout_items = Features.main_layout
  /\ layout_widgets false main_layout_items = [Features.welcome_window]
  /\ forall v w,
       Features.visible (Features.layout_visibility false Features.main_layout v) w
       = layout_visibility Features.widget_eqb true false main_layout_items
           (Features.visible v) w.
Proof.
  split; [reflexivity|]. split; [reflexivity|].
  intros v w. by destruct w.
Qed.

End Helpers.

(** ** More on ui/features.py: what the wizard shows and allows *)

Module Navigation.
Import Pandas ScikitLearn Features.

(** What a slot returns: the navigation slots run [drive_through] outside any
    [try]; the other slots catch what their body raises. *)
Definition outcome (e : Event) (v : Viewer) : result unit :=
  match e with
  | Start => (delete_welcome v).2
  | ClickNext => (next v).2
  | ClickBack => (back v).2
  | _ => Ok tt
  end.

(** The event loads a file. *)
Definition loads (e : Event) : bool :=
  match e with
  | ClickLoad _ _ _ | ClickChooseAnother _ _ _ => true
  | _ => false
  end.

(** The message boxes of the wizard: their icon and their text. *)
Inductive box :=
| BoxWarning (text : str)
| BoxCritical (text : str).

(** The boxes that [load_data] shows, with the one of
    [detect_missing_values]; the calls of Qt in the body of the [try] are
    taken to return, as in [Features.load_data]. *)
Definition load_data_boxes (env : ImportFiles.Env) (file_path : str) : list box :=
  match ImportFiles.import_data env file_path with
  | Ok d =>
      if negb (empty d) then
        if negb (total_missing d =? 0)
        then [BoxWarning (cps "There were empty values detected")]
        else []
      else [BoxWarning (cps "The file is empty or could not be loaded correctly.")]
  | Raise e =>
      match exn_cls e with
      | EmptyDataError =>
          [BoxCritical (cps "The CSV file is empty. Please select another file.")]
      | ParserError =>
          [BoxCritical (cps "The CSV file is corrupt or has an invalid format.")]
      | _ => [BoxCritical (cps "Could not load the file: " ++ exn_msg e)]
      end
  end.

(** The step whose layout holds a widget; the welcome window and the
    navigation buttons belong to no step. *)
Definition step_of (w : widget) : option Z :=
  match w with
  | load_button | load_model_button | back_button => Some 1%Z
  | preprocessing_options | apply_button => Some 2%Z
  | radio_simple | radio_multiple | feature_selector | target_selector
  | confirm_button | create_model_button => Some 3%Z
  | welcome_window | return_button | next_button => None
  end.

(** The widget keeps to its step in the resulting state. *)
Ltac keeps_step H :=
  let w := fresh "w" in
  let s := fresh "s" in
  let Hstep := fresh "Hstep" in
  let Hne := fresh "Hne" in
  try solve [intros w s Hstep Hne; destruct w; cbn in Hstep |- *; try done;
             injection Hstep as <-;
             first [done | exfalso; lia
                   | eapply H; [reflexivity|cbn in *; lia]]].

(** More of what every reachable state satisfies: which widgets show at which
    step, and that a table stands behind the steps after the first. *)
Record Shown (v : Viewer) : Prop := mkShown {
  shown_step : forall w s, step_of w = Some s -> move v <> s -> visible v w = false;
  shown_last : move v = 3%Z -> enabled v next_button = false;
  shown_first : move v = 1%Z -> clickable return_button v = false;
  shown_back : move v <> 1%Z -> clickable return_button v = true;
  shown_table : move v <> 1%Z \/ enabled v next_button = true -> data_table v = true;
  shown_df : data_table v = true \/ empty_values v = true -> is_Some (df v);
  shown_welcome : visible v welcome_window = true ->
                  forall w, w <> welcome_window -> visible v w = false;
  shown_nav : visible v welcome_window = false ->
              visible v next_button = true /\ visible v return_button = true
}.

Lemma initial_shown : Shown initial.
Proof.
  constructor; simpl; try done; try (intros [|]; done).
  - intros w s Hw _. by destruct w.
  - intros _ w Hw. by destruct w.
Qed.

Lemma drive_through_ok v :
  (1 <= move v <= 3)%Z ->
  (move v = 2%Z -> nan_data v <> None) ->
  (drive_through v).2 = Ok tt.
Proof.
  intros Hr Hn. unfold drive_through, steps_guide. cbn -[cps Z.eqb].
  destruct (move v =? 1)%Z eqn:H1.
  - apply Z.eqb_eq in H1. rewrite H1. cbn -[cps]. by destruct (data_table v).
  - destruct (move v =? 2)%Z eqn:H2.
    + apply Z.eqb_eq in H2. specialize (Hn H2).
      destruct (nan_data v) as [[]|]; [| |done]; cbn -[cps]; by destruct (nan_solved v).
    + by destruct (move v =? 3)%Z.
Qed.

Lemma drive_through_shown v :
  (1 <= move v <= 3)%Z ->
  (move v = 2%Z -> nan_data v <> None) ->
  (move v <> 1%Z -> data_table v = true) ->
  (data_table v = true \/ empty_values v = true -> is_Some (df v)) ->
  Shown (drive_through v).1.
Proof.
  intros Hr Hn Ht Hd. unfold drive_through, steps_guide. cbn -[cps Z.eqb].
  destruct (move v =? 1)%Z eqn:H1.
  - apply Z.eqb_eq in H1. rewrite H1. cbn -[cps].
    destruct (data_table v) eqn:Hdt; constructor; cbn -[cps];
      rewrite ?Hdt; try done; try lia; try tauto; keeps_step Hr.
  - destruct (move v =? 2)%Z eqn:H2.
    + apply Z.eqb_eq in H2. specialize (Hn H2).
      assert (data_table v = true) as Hdt by (apply Ht; lia).
      destruct (nan_data v) as [[]|] eqn:Hnd; [| |done]; cbn -[cps];
        destruct (nan_solved v) eqn:Hs; constructor; cbn -[cps];
          rewrite ?Hdt, ?Hs, ?Hnd; try done; try lia; try tauto; keeps_step Hr.
    + destruct (move v =? 3)%Z eqn:H3; [|lia].
      apply Z.eqb_eq in H3.
      assert (data_table v = true) as Hdt by (apply Ht; lia).
      constructor; cbn -[cps]; rewrite ?Hdt; try done; try lia; try tauto; keeps_step Hr.
Qed.

Section Reach.
Variable fit_transform : strategy -> list (list float) -> result ndarray.
Variable lib : Library.
Variable repr_str : str -> str.

Local Abbreviation step := (step fit_transform lib repr_str).
Local Abbreviation run := (run fit_transform lib repr_str).
Local Abbreviation handle := (handle fit_transform lib repr_str).
Local Abbreviation confirms := (confirms fit_transform).
Local Abbreviation confirmed := (confirmed fit_transform lib repr_str).

Lemma next_range v :
  Inv v -> (move v <? 3)%Z = true ->
  let v' := if empty_values v then set_move (move v + 1)%Z v
            else set_move (move v + 2)%Z v in
  (1 <= move v' <= 3)%Z /\ (move v' = 2%Z -> nan_data v' <> None)
  /\ move v' <> 1%Z.
Proof.
  intros [Hr Hc _ _ _ Ht _] H3%Z.ltb_lt. cbv zeta.
  destruct (empty_values v) eqn:He; cbn.
  - split; [lia|]. split; [|lia]. intros _. by apply Ht.
  - assert (move v <> 2%Z) by (intros H2; specialize (Hc H2); congruence).
    split; [lia|]. split; lia.
Qed.

Lemma back_range v :
  Inv v -> (1 <? move v)%Z = true ->
  let v' := if empty_values v then set_move (move v - 1)%Z v
            else set_move (move v - 2)%Z v in
  (1 <= move v' <= 3)%Z /\ (move v' = 2%Z -> nan_data v' <> None).
Proof.
  intros [Hr Hc _ _ _ Ht _] H1%Z.ltb_lt. cbv zeta.
  destruct (empty_values v) eqn:He; cbn.
  - split; [lia|]. intros _. by apply Ht.
  - assert (move v <> 2%Z) by (intros H2; specialize (Hc H2); congruence).
    split; lia.
Qed.

Lemma next_shown v :
  Inv v -> Shown v -> enabled v next_button = true -> Shown (next v).1.
Proof.
  intros Hv Hs He. unfold next.
  destruct (move v <? 3)%Z eqn:H3; [|done].
  destruct (next_range v Hv H3) as (Hr & Hn & _).
  apply drive_through_shown; [done|done| |].
  - intros _. destruct (empty_values v); cbn; apply (shown_table v Hs); by right.
  - destruct (empty_values v); cbn; apply (shown_df v Hs).
Qed.

Lemma back_shown v : Inv v -> Shown v -> Shown (back v).1.
Proof.
  intros Hv Hs. unfold back.
  destruct (1 <? move v)%Z eqn:H1; [|done].
  destruct (back_range v Hv H1) as (Hr & Hn).
  apply Z.ltb_lt in H1.
  apply drive_through_shown; [done|done| |].
  - intros _. destruct (empty_values v); cbn; apply (shown_table v Hs); left; lia.
  - destruct (empty_values v); cbn; apply (shown_df v Hs).
Qed.

Lemma delete_welcome_shown v : Inv v -> Shown v -> Shown (delete_welcome v).1.
Proof.
  intros [Hr Hc _ _ _ Ht _] Hs. unfold delete_welcome.
  apply drive_through_shown; cbn.
  - done.
  - intros H2. by apply Ht, Hc.
  - intros H1. apply (shown_table v Hs). by left.
  - apply (shown_df v Hs).
Qed.

Lemma setCurrentIndex_shown i v : Shown v -> Shown (setCurrentIndex i v).
Proof.
  intros []. unfold setCurrentIndex, preprocessing_button.
  destruct (current_index v =? i); [by constructor|].
  cbn. destruct (i =? 0); by constructor.
Qed.

Lemma detect_missing_values_shown v :
  Shown v -> is_Some (df v) -> Shown (detect_missing_values v).
Proof.
  intros Hs Hd. unfold detect_missing_values.
  destruct (df v) as [d|] eqn:Hdf; [|done].
  destruct (negb (total_missing d =? 0)).
  - assert (Shown (set_nan_data (Some true) (set_empty_values true v))) as Hs'.
    { destruct Hs. constructor; cbn; try done. }
    apply (setCurrentIndex_shown 0) in Hs'.
    destruct Hs'. by constructor.
  - destruct Hs. constructor; cbn; done.
Qed.

(** The table is shown while the first step is up. *)
Lemma display_at_load_shown v d :
  Shown v -> move v = 1%Z -> visible v welcome_window = false ->
  Shown (display_data_in_table (set_df (Some d) v)).
Proof.
  intros [Hc Hl Hf Hb Ht Hd Hw Hn] H1 Hwel. unfold display_data_in_table.
  cbn -[Z.eqb]. rewrite H1. cbn.
  constructor; cbn; rewrite ?Hwel; try done; try lia; keeps_step Hc.
  intros _. by apply Hn.
Qed.

Lemma load_data_shown env file_path v :
  Shown v -> move v = 1%Z -> visible v welcome_window = false ->
  Shown (load_data env file_path v).
Proof.
  intros Hs H1 Hwel. unfold load_data.
  destruct (ImportFiles.import_data env file_path) as [d|]; [|done].
  destruct (negb (empty d)).
  - apply detect_missing_values_shown.
    + by apply display_at_load_shown.
    + by rewrite display_data_in_table_df.
  - destruct Hs as [Hc Hl Hf Hb Ht Hd Hw Hn]. by constructor.
Qed.

Lemma open_file_dialog_shown env file_path yes v :
  Shown v -> move v = 1%Z -> visible v welcome_window = false ->
  Shown (open_file_dialog env file_path yes v).
Proof.
  intros Hs H1 Hwel. unfold open_file_dialog.
  destruct file_path as [|x p]; [done|].
  destruct (bool_decide _).
  - destruct yes; [by apply load_data_shown|done].
  - apply load_data_shown; [|done|done]. destruct Hs. by constructor.
Qed.

(** A strategy keeps a table in the viewer that has one. *)
Lemma apply_strategy_table value ok v :
  is_Some (df v) ->
  (apply_strategy fit_transform value ok v).1 = v
  \/ exists d, apply_strategy fit_transform value ok v
               = (display_data_in_table (set_df (Some d) v), Ok tt).
Proof.
  intros [d Hd].
  unfold apply_strategy, remove_missing_values, fill_with_mean, fill_with_median,
    fill_with_constant, fill_with.
  rewrite Hd. split_ifs; cbn -[display_data_in_table]; eauto.
Qed.

Lemma confirm_preprocessing_shown value ok v :
  Shown v -> move v = 2%Z -> is_Some (df v) ->
  Shown (confirm_preprocessing fit_transform value ok v).
Proof.
  intros Hs H2 Hdf. unfold confirm_preprocessing.
  assert ((move v =? 1)%Z = false) as H1 by by rewrite H2.
  destruct (String.eqb _ ""); [done|].
  destruct (apply_strategy_table value ok v Hdf) as [Heq|[d Heq]].
  2: rewrite Heq.
  1: destruct (apply_strategy fit_transform value ok v) as [v1 r]; simpl in Heq; subst v1;
    (destruct r as [[]|e]; [|done]).
  - destruct Hs as [Hc Hl Hf Hb Ht Hd Hw Hn]. unfold display_data_in_table.
    repeat (progress (cbn -[Z.eqb]; rewrite ?H1)). cbn.
    constructor; cbn; try done; try lia; keeps_step Hc;
      try (intros _; apply Hb; lia);
      try (intros Hwel; by destruct (Hn Hwel));
      try (intros Hwel w Hne; rewrite (Hw Hwel w Hne);
           repeat (destruct (widget_eqb _ _)); done).
  - destruct Hs as [Hc Hl Hf Hb Ht Hd Hw Hn]. unfold display_data_in_table.
    repeat (progress (cbn -[Z.eqb]; rewrite ?H1)). cbn.
    constructor; cbn; try done; try lia; keeps_step Hc;
      try (intros _; apply Hb; lia);
      try (intros Hwel; by destruct (Hn Hwel));
      try (intros Hwel w Hne; rewrite (Hw Hwel w Hne);
           repeat (destruct (widget_eqb _ _)); done).
Qed.

Lemma show_results_shown g v : Shown v -> Shown (show_results lib repr_str g v).
Proof.
  intros Hs. unfold show_results. destruct (df v); [|done].
  destruct Hs. by constructor.
Qed.

Lemma confirm_selection_shown f t v : Shown v -> Shown (confirm_selection f t v).
Proof. intros []. by constructor. Qed.

Lemma possible_visible e v : possible e v = true -> visible v (source e) = true.
Proof.
  unfold possible, clickable. by destruct (visible v (source e)).
Qed.

Lemma possible_enabled e v : possible e v = true -> enabled v (source e) = true.
Proof.
  unfold possible, clickable.
  by destruct (visible v (source e)), (enabled v (source e)).
Qed.

(** A widget other than the welcome window shows only after Start. *)
Lemma visible_after_start v w :
  Shown v -> w <> welcome_window -> visible v w = true ->
  visible v welcome_window = false.
Proof.
  intros Hs Hw Hvis. destruct (visible v welcome_window) eqn:Hwel; [|done].
  rewrite (shown_welcome v Hs Hwel w Hw) in Hvis. done.
Qed.

Lemma step_shown v e : Inv v -> Shown v -> Shown (step v e).
Proof.
  intros Hv Hs. unfold Features.step.
  destruct (possible e v) eqn:Hp; [|done].
  pose proof (possible_visible e v Hp) as Hvis.
  pose proof (possible_enabled e v Hp) as Hen.
  destruct e as [|env p yes|env p yes| | |i|value ok|f t|g]; cbn [Features.handle].
  - by apply delete_welcome_shown.
  - apply open_file_dialog_shown; [done| |].
    + eapply possible_load_move; eauto.
    + by eapply visible_after_start; eauto.
  - apply open_file_dialog_shown; [done| |].
    + eapply possible_load_move; eauto.
    + by eapply visible_after_start; eauto.
  - by apply next_shown.
  - by apply back_shown.
  - by apply setCurrentIndex_shown.
  - assert (move v = 2%Z) as H2.
    { destruct (Z.eq_dec (move v) 2%Z) as [|Hne]; [done|].
      simpl in Hvis. rewrite (shown_step v Hs apply_button 2%Z eq_refl Hne) in Hvis. done. }
    apply confirm_preprocessing_shown; [done|done|].
    apply (shown_df v Hs). right. by apply (inv_clean v Hv).
  - by apply confirm_selection_shown.
  - by apply show_results_shown.
Qed.

Lemma run_shown es : forall v, Inv v -> Shown v -> Shown (run es v).
Proof.
  induction es as [|e es IH]; intros v Hv Hs; simpl; [done|].
  apply IH; [by apply step_inv|by apply step_shown].
Qed.

Lemma reachable_inv es : Inv (run es initial) /\ Shown (run es initial).
Proof.
  split; [apply run_inv, initial_inv|apply run_shown; [apply initial_inv|apply initial_shown]].
Qed.

(** *** Every step shows its own controls *)

(** X14. Every control answers only at its step: in every reachable state an
    event that goes through a widget of the layout of a step is possible only
    while the wizard is at that step (the load buttons at step 1, the combo
    box and Apply at step 2, the selection and the model buttons at step 3);
    Back can be clicked exactly when the wizard is beyond the first step, and
    Next never at the last. *)
Theorem controls_of_step (es : list Event) :
  let v := run es initial in
  (forall e s, possible e v = true -> step_of (source e) = Some s -> move v = s)
  /\ (possible ClickBack v = true <-> move v <> 1%Z)
  /\ (possible ClickNext v = true -> move v <> 3%Z).
Proof.
  destruct (reachable_inv es) as [Hv Hs]. cbv zeta. set (v := run es initial) in *.
  split; [|split].
  - intros e s Hp Hstep.
    destruct (Z.eq_dec (move v) s) as [|Hne]; [done|].
    apply possible_visible in Hp.
    rewrite (shown_step v Hs _ _ Hstep Hne) in Hp. done.
  - unfold possible. cbn [source]. rewrite andb_true_r. split.
    + intros Hc H1. rewrite (shown_first v Hs H1) in Hc. done.
    + apply (shown_back v Hs).
  - intros Hp H3. apply possible_enabled in Hp. simpl in Hp.
    rewrite (shown_last v Hs H3) in Hp. done.
Qed.

(** *** The navigation slots go through *)

(** X15. In every reachable state the slots of Start, Next and Back run to
    their end: [steps_guide] reads the attribute [nan_data], which [__init__]
    does not create, only at step 2, and the wizard is at step 2 only after
    [detect_missing_values] has created it. *)
Theorem navigation_never_raises (es : list Event) (e : Event) :
  outcome e (run es initial) = Ok tt.
Proof.
  destruct (reachable_inv es) as [Hv Hs]. set (v := run es initial) in *.
  destruct e; cbn [outcome]; try done.
  - unfold delete_welcome. destruct Hv as [Hr Hc _ _ _ Ht _].
    apply drive_through_ok; cbn; [done|]. intros H2. by apply Ht, Hc.
  - unfold next. destruct (move v <? 3)%Z eqn:H3; [|done].
    destruct (next_range v Hv H3) as (Hr & Hn & _). by apply drive_through_ok.
  - unfold back. destruct (1 <? move v)%Z eqn:H1; [|done].
    destruct (back_range v Hv H1) as (Hr & Hn). by apply drive_through_ok.
Qed.

(** The attribute is missing at the start, and a state with [move = 2] that
    has not seen a detection, which no sequence of events reaches, makes
    [drive_through] raise. *)
Example steps_guide_outside_reach :
  nan_data initial = None
  /\ is_ok (drive_through (set_move 2 initial)).2 = false.
Proof. by vm_compute. Qed.

(** *** A table stands behind the later steps *)

(** X16. The wizard leaves the first step only after a table has been
    loaded: in every reachable state beyond step 1 the attribute [df] is not
    [None] and the attribute [data_table] holds a [Table], so the button that
    creates the model can be clicked only at step 3 and never while [df] is
    [None]. (The [Table] need not wrap the table that [df] holds:
    [model_step_with_empty_table] below.) *)
Theorem table_before_model (es : list Event) :
  let v := run es initial in
  (move v <> 1%Z -> is_Some (df v) /\ data_table v = true)
  /\ (forall g, possible (ClickCreateModel g) v = true ->
                move v = 3%Z /\ is_Some (df v)).
Proof.
  destruct (reachable_inv es) as [Hv Hs]. cbv zeta. set (v := run es initial) in *.
  assert (move v <> 1%Z -> is_Some (df v) /\ data_table v = true) as H.
  { intros H1. assert (data_table v = true) as Ht by (apply (shown_table v Hs); by left).
    split; [|done]. apply (shown_df v Hs). by left. }
  split; [done|]. intros g Hp.
  assert (move v = 3%Z) as H3.
  { destruct (Z.eq_dec (move v) 3%Z) as [|Hne]; [done|].
    apply possible_visible in Hp. simpl in Hp.
    rewrite (shown_step v Hs create_model_button 3%Z eq_refl Hne) in Hp. done. }
  split; [done|]. apply H. lia.
Qed.

(** *** Next and Back *)

Lemma drive_through_df v : df (drive_through v).1 = df v.
Proof.
  unfold drive_through, steps_guide. cbn -[cps Z.eqb].
  split_ifs; cbn -[cps]; done.
Qed.

(** X17. Back undoes Next on the step counter: in every reachable state where
    Next can be clicked, the click moves to a later step, and a click on Back
    right after it returns to the step the wizard was at. *)
Theorem back_undoes_next (es : list Event) :
  let v := run es initial in
  possible ClickNext v = true ->
  (move v < move (step v ClickNext))%Z
  /\ move (run [ClickNext; ClickBack] v) = move v.
Proof.
  destruct (reachable_inv es) as [Hv Hs]. cbv zeta. set (v := run es initial) in *.
  intros Hp.
  pose proof (step_inv fit_transform lib repr_str v ClickNext Hv) as Hv1.
  pose proof (step_shown v ClickNext Hv Hs) as Hs1.
  assert ((move v <? 3)%Z = true) as H3.
  { apply Z.ltb_lt. pose proof (inv_range v Hv).
    destruct (Z.eq_dec (move v) 3%Z) as [H3|]; [|lia].
    apply possible_enabled in Hp. simpl in Hp.
    rewrite (shown_last v Hs H3) in Hp. done. }
  destruct (next_range v Hv H3) as (Hr & _ & Hne1).
  assert (step v ClickNext = (next v).1) as Hstep
    by (unfold Features.step; by rewrite Hp).
  assert (move (next v).1
          = (move v + (if empty_values v then 1 else 2))%Z
          /\ empty_values (next v).1 = empty_values v) as [Hm He].
  { unfold next. rewrite H3. rewrite drive_through_move.
    rewrite (proj1 (drive_through_frame _)).
    destruct (empty_values v) eqn:E; cbn; by rewrite ?E. }
  simpl. rewrite Hstep in *. set (v1 := (next v).1) in *.
  split; [rewrite Hm; destruct (empty_values v); lia|].
  assert (move v1 <> 1%Z) as Hne.
  { rewrite Hm. pose proof (inv_range v Hv). destruct (empty_values v); lia. }
  assert (possible ClickBack v1 = true) as Hpb.
  { unfold possible. cbn [source]. by rewrite (shown_back v1 Hs1 Hne). }
  unfold Features.step. rewrite Hpb. cbn [Features.handle]. unfold back.
  assert ((1 <? move v1)%Z = true) as ->.
  { apply Z.ltb_lt. pose proof (inv_range v1 Hv1). lia. }
  rewrite drive_through_move, He, Hm. destruct (empty_values v); cbn; lia.
Qed.

(** *** Loading, then Next *)

Lemma load_data_loaded env file_path d v :
  ImportFiles.import_data env file_path = Ok d -> empty d = false ->
  move v = 1%Z ->
  let v1 := load_data env file_path v in
  df v1 = Some d /\ move v1 = 1%Z
  /\ empty_values v1 = negb (total_missing d =? 0)
  /\ enabled v1 next_button = true
  /\ visible v1 next_button = visible v next_button.
Proof.
  intros Hi He H1. cbv zeta. unfold load_data. rewrite Hi, He. cbn [negb].
  unfold detect_missing_values. rewrite display_data_in_table_df. cbn [df set_df].
  unfold display_data_in_table, setCurrentIndex, preprocessing_button.
  cbn -[Z.eqb total_missing]. rewrite H1. cbn -[total_missing].
  destruct (total_missing d =? 0); cbn; [done|].
  destruct (current_index v =? 0); cbn; done.
Qed.

(** X18. After a table has been loaded at the first step, Next leads to the
    Clean step exactly when the table has a missing value, and straight to
    the Model step otherwise; the viewer holds the table that was read. *)
Theorem next_after_load (es : list Event) (env : ImportFiles.Env) (file_path : str)
        (yes : bool) (d : DataFrame) :
  let v := run es initial in
  possible (ClickLoad env file_path yes) v = true ->
  file_path <> [] ->
  (last_file_path v = Some file_path -> yes = true) ->
  ImportFiles.import_data env file_path = Ok d ->
  empty d = false ->
  let v' := run [ClickLoad env file_path yes; ClickNext] v in
  df v' = Some d
  /\ move v' = (if total_missing d =? 0 then 3%Z else 2%Z).
Proof.
  destruct (reachable_inv es) as [Hv Hs]. cbv zeta. set (v := run es initial) in *.
  intros Hp Hne Hyes Hi He.
  assert (move v = 1%Z) as H1 by (eapply possible_load_move; eauto).
  assert (visible v next_button = true) as Hnext.
  { apply (shown_nav v Hs). eapply (visible_after_start v load_button); [done|done|].
    by apply possible_visible in Hp. }
  assert (exists v0, step v (ClickLoad env file_path yes) = load_data env file_path v0
                     /\ move v0 = 1%Z /\ visible v0 next_button = true)
    as (v0 & Hstep & H10 & Hnext0).
  { unfold Features.step. rewrite Hp. cbn [Features.handle]. unfold open_file_dialog.
    destruct file_path as [|x p]; [done|].
    destruct (bool_decide (last_file_path v = Some (x :: p))) eqn:Hl.
    - apply bool_decide_eq_true in Hl. rewrite (Hyes Hl). by exists v.
    - by exists (set_last_file_path (Some (x :: p)) v). }
  destruct (load_data_loaded env file_path d v0 Hi He H10) as (Hd & Hm & Hev & Hen & Hvis).
  simpl. rewrite Hstep. set (v1 := load_data env file_path v0) in *.
  assert (possible ClickNext v1 = true) as Hpn.
  { unfold possible, clickable. cbn [source]. by rewrite Hvis, Hnext0, Hen. }
  unfold Features.step. rewrite Hpn. cbn [Features.handle]. unfold next.
  rewrite Hm. cbn [Z.ltb Z.compare Pos.compare Pos.compare_cont].
  rewrite drive_through_df, drive_through_move, Hev.
  destruct (total_missing d =? 0); cbn; by rewrite ?Hd, ?Hm.
Qed.

(** *** Applying a strategy *)

(** X19. A strategy that raises leaves the wizard exactly as it was: the
    table, the flags and the buttons keep their state, so Next stays locked
    at the Clean step. *)
Theorem failed_strategy_changes_nothing (value : float) (ok : bool) (v : Viewer) :
  is_ok (apply_strategy fit_transform value ok v).2 = false ->
  confirm_preprocessing fit_transform value ok v = v.
Proof.
  intros Hr. unfold confirm_preprocessing.
  destruct (String.eqb _ ""); [done|].
  destruct (apply_strategy_cases fit_transform value ok v) as [Heq|[Hok _]].
  - destruct (apply_strategy fit_transform value ok v) as [v1 r]. simpl in *.
    subst v1. by destruct r.
  - by rewrite Hok in Hr.
Qed.

Lemma confirm_cancelled (value : float) (v : Viewer) :
  current_index v = 4 -> move v = 2%Z ->
  let v' := confirm_preprocessing fit_transform value false v in
  df v' = df v /\ nan_solved v' = true /\ enabled v' next_button = true
  /\ visible v' next_button = visible v next_button
  /\ move v' = 2%Z /\ empty_values v' = empty_values v.
Proof.
  intros Hi H2. cbv zeta.
  unfold confirm_preprocessing, apply_strategy, fill_with_constant. rewrite Hi.
  cbn -[display_data_in_table].
  unfold display_data_in_table. cbn -[Z.eqb]. rewrite H2. cbn. done.
Qed.

(** X20. Cancelling the dialog of the constant strategy still counts as a
    confirmation: in every reachable state where Apply can be clicked with
    "Fill with a Constant Value" selected, a cancelled dialog leaves the table
    as it was, missing values included, marks them as solved, and Next then
    leads to the Model step. *)
Theorem cancelled_constant_counts_as_solved (es : list Event) (value : float) :
  let v := run es initial in
  possible (ClickApply value false) v = true ->
  current_index v = 4 ->
  let v' := step v (ClickApply value false) in
  df v' = df v /\ nan_solved v' = true /\ move (step v' ClickNext) = 3%Z.
Proof.
  destruct (reachable_inv es) as [Hv Hs]. cbv zeta. set (v := run es initial) in *.
  intros Hp Hi.
  assert (move v = 2%Z) as H2.
  { destruct (Z.eq_dec (move v) 2%Z) as [|Hne]; [done|].
    apply possible_visible in Hp. simpl in Hp.
    rewrite (shown_step v Hs apply_button 2%Z eq_refl Hne) in Hp. done. }
  assert (visible v next_button = true) as Hnext.
  { apply (shown_nav v Hs). eapply (visible_after_start v apply_button); [done|done|].
    by apply possible_visible in Hp. }
  pose proof (inv_clean v Hv H2) as He.
  assert (step v (ClickApply value false)
          = confirm_preprocessing fit_transform value false v) as ->
    by (unfold Features.step; by rewrite Hp).
  destruct (confirm_cancelled value v Hi H2) as (Hd & Hsol & Hen & Hvis & Hm & Hev).
  remember (confirm_preprocessing fit_transform value false v) as v' eqn:Hv'.
  clear Hv'.
  split; [done|]. split; [done|].
  assert (possible ClickNext v' = true) as Hpn.
  { unfold possible, clickable. cbn [source]. by rewrite Hvis, Hnext, Hen. }
  unfold Features.step. rewrite Hpn. cbn [Features.handle]. unfold next.
  rewrite Hm. cbn [Z.ltb Z.compare Pos.compare Pos.compare_cont].
  by rewrite drive_through_move, Hev, He.
Qed.

(** *** One strategy for every file *)

Lemma drive_through_enabled v w :
  w <> next_button -> w <> return_button ->
  enabled (drive_through v).1 w = enabled v w.
Proof.
  intros Hn Hr. unfold drive_through, steps_guide. cbn -[cps Z.eqb].
  split_ifs; cbn -[cps]; destruct w; done.
Qed.

(** While Apply and the combo box are disabled, an event that loads no file
    leaves them so. *)
Lemma step_locked v e :
  loads e = false ->
  enabled v apply_button = false -> enabled v preprocessing_options = false ->
  enabled (step v e) apply_button = false
  /\ enabled (step v e) preprocessing_options = false.
Proof.
  intros Hl Ha Ho. unfold Features.step.
  destruct (possible e v) eqn:Hp; [|done].
  pose proof (possible_enabled e v Hp) as Hen.
  destruct e as [|env p yes|env p yes| | |i|value ok|f t|g]; cbn [Features.handle];
    try done; simpl in Hen; try congruence.
  - unfold delete_welcome. by rewrite !drive_through_enabled.
  - unfold next. destruct (move v <? 3)%Z; [|done].
    rewrite !drive_through_enabled by done. by destruct (empty_values v).
  - unfold back. destruct (1 <? move v)%Z; [|done].
    rewrite !drive_through_enabled by done. by destruct (empty_values v).
  - unfold show_results. by destruct (df v).
Qed.

Lemma confirmed_locked es : forall v,
  forallb (fun e => negb (loads e)) es = true ->
  enabled v apply_button = false -> enabled v preprocessing_options = false ->
  confirmed es v = false.
Proof.
  induction es as [|e es IH]; intros v Hes Ha Ho; simpl; [done|].
  simpl in Hes. apply andb_prop in Hes as [He Hes]. apply negb_true_iff in He.
  destruct (step_locked v e He Ha Ho) as [Ha' Ho'].
  rewrite (IH _ Hes Ha' Ho'), orb_false_r.
  destruct e; try done. unfold Features.confirms, possible, clickable. simpl.
  by rewrite Ha, andb_false_r.
Qed.

(** X21. A confirmed strategy disables Apply and the combo box, and nothing
    but loading a file enables them again: after an event has confirmed a
    strategy, no event of a sequence that loads no file confirms another. *)
Theorem one_strategy_per_load (v : Viewer) (e : Event) (es : list Event) :
  confirms e v = true ->
  forallb (fun e => negb (loads e)) es = true ->
  confirmed es (step v e) = false.
Proof.
  intros Hc Hes. destruct e as [| | | | | |value ok| |]; try done.
  unfold Features.confirms in Hc.
  apply andb_prop in Hc as [Hc Hok]. apply andb_prop in Hc as [Hc Hlt].
  apply andb_prop in Hc as [Hp Hpos].
  assert (enabled (step v (ClickApply value ok)) apply_button = false
          /\ enabled (step v (ClickApply value ok)) preprocessing_options = false)
    as [Ha Ho]; [|by apply confirmed_locked].
  unfold Features.step. rewrite Hp. cbn [Features.handle]. unfold confirm_preprocessing.
  destruct (String.eqb (nth (current_index v) items ""%string) "") eqn:Hopt.
  { exfalso. apply Nat.ltb_lt in Hpos, Hlt.
    destruct (current_index v) as [|[|[|[|[|i]]]]]; cbn in *; try done; lia. }
  destruct (apply_strategy fit_transform value ok v) as [v1 [[]|err]]; [|done].
  unfold display_data_in_table. cbn -[Z.eqb]. by destruct (move v1 =? 1)%Z.
Qed.

End Reach.

(** *** The messages of [load_data] *)

(** X22. [import_data] turns the two parser errors of pandas into
    [ValueError], so the first two [except] clauses of [load_data] never run:
    no file makes the wizard show "The CSV file is empty..." or "The CSV file
    is corrupt..."; an empty or corrupt file is reported by the last clause,
    as "Could not load the file: Error reading the file: ..." with the text
    of the parser. *)
Theorem load_data_reports (env : ImportFiles.Env) (file_path : str) :
  ~ In (BoxCritical (cps "The CSV file is empty. Please select another file."))
       (load_data_boxes env file_path)
  /\ ~ In (BoxCritical (cps "The CSV file is corrupt or has an invalid format."))
         (load_data_boxes env file_path)
  /\ (forall e,
         ImportFiles.path_exists env file_path = true ->
         ImportFiles.supported (ImportFiles.file_ext env file_path) = true ->
         ImportFiles.reader env file_path = Raise e ->
         ImportFiles.is_parser_failure (exn_cls e) = true ->
         load_data_boxes env file_path
         = [BoxCritical (cps "Could not load the file: Error reading the file: "
                         ++ exn_msg e)]).
Proof.
  unfold load_data_boxes. split; [|split].
  - destruct (ImportFiles.import_data env file_path) as [d|e] eqn:Hi.
    + destruct (negb (empty d)); [destruct (negb (total_missing d =? 0))|];
        cbn [In]; intuition discriminate.
    + apply ImportFilesFacts.import_data_failure_class in Hi.
      destruct (exn_cls e); try done; cbn [In]; intuition discriminate.
  - destruct (ImportFiles.import_data env file_path) as [d|e] eqn:Hi.
    + destruct (negb (empty d)); [destruct (negb (total_missing d =? 0))|];
        cbn [In]; intuition discriminate.
    + apply ImportFilesFacts.import_data_failure_class in Hi.
      destruct (exn_cls e); try done; cbn [In]; intuition discriminate.
  - intros e Hex Hsup Hr Hp. unfold ImportFiles.import_data.
    rewrite Hex, (ImportFiles.dispatch_supported env file_path Hsup), Hr, Hp.
    cbn [negb exn_cls exn_msg]. reflexivity.
Qed.

(** An empty CSV file, with the text of pandas. *)
Definition env_empty_csv : ImportFiles.Env :=
  {| ImportFiles.is_sep := fun x => (x =? 47)%N;
     ImportFiles.path_exists := fun p => ImportFiles.str_eqb p (cps "data/empty.csv");
     ImportFiles.read_csv := fun _ =>
       Raise (Exn EmptyDataError (cps "No columns to parse from file"));
     ImportFiles.read_excel := fun _ =>
       Raise (Exn ValueError (cps "Excel file format cannot be determined"));
     ImportFiles.read_sqlite := fun _ =>
       Raise (Exn (OtherError "DatabaseError") (cps "no such table: test_table"));
     ImportFiles.unicode_lower := ImportFiles.ascii_lower |}.

Example empty_csv_report :
  load_data_boxes env_empty_csv (cps "data/empty.csv")
  = [BoxCritical (cps "Could not load the file: Error reading the file: No columns to parse from file")].
Proof. by vm_compute. Qed.

(** *** Sample runs *)

(** A table whose numeric column holds no value at all: the imputer leaves
    the column out, and the assignment of the fill functions refuses the
    array. *)
Definition hollow_table : DataFrame :=
  {| df_index := [0; 1]%Z;
     df_columns :=
       [mkSeries (cps "x") Int64 [VInt 1; VInt 2];
        mkSeries (cps "y") Float64 [VFloat nan; VFloat nan]] |}.

Definition hollow_viewer : Viewer :=
  set_current_index 2 (set_df (Some hollow_table) initial).

(** A file that holds a header and no rows. *)
Definition header_only : DataFrame :=
  {| df_index := [];
     df_columns := [mkSeries (cps "x") Object []; mkSeries (cps "y") Object []] |}.

Definition disk : ImportFiles.Env :=
  {| ImportFiles.is_sep := fun x => (x =? 47)%N;
     ImportFiles.path_exists := fun _ => true;
     ImportFiles.read_csv := fun p =>
       if bool_decide (p = cps "gaps.csv") then Ok sample_table
       else if bool_decide (p = cps "header.csv") then Ok header_only
       else Ok complete_table;
     ImportFiles.read_excel := fun _ => Raise (Exn ValueError []);
     ImportFiles.read_sqlite := fun _ => Raise (Exn (OtherError "DatabaseError") []);
     ImportFiles.unicode_lower := ImportFiles.ascii_lower |}.

Lemma back_undoes_next_witness :
  possible ClickNext (sample_run [Start; ClickLoad sample_env (cps "gaps.csv") true]) = true
  /\ (move (sample_run [Start; ClickLoad sample_env (cps "gaps.csv") true])
       < move (step simple_imputer canned_library repr_plain
                 (sample_run [Start; ClickLoad sample_env (cps "gaps.csv") true]) ClickNext))%Z
  /\ move (run simple_imputer canned_library repr_plain [ClickNext; ClickBack]
             (sample_run [Start; ClickLoad sample_env (cps "gaps.csv") true]))
     = move (sample_run [Start; ClickLoad sample_env (cps "gaps.csv") true]).
Proof.
  split; [by vm_compute|].
  exact (back_undoes_next simple_imputer canned_library repr_plain
           [Start; ClickLoad sample_env (cps "gaps.csv") true] ltac:(by vm_compute)).
Defined.

Lemma next_after_load_witness :
  possible (ClickLoad sample_env (cps "gaps.csv") true) (sample_run [Start]) = true
  /\ ImportFiles.import_data sample_env (cps "gaps.csv") = Ok sample_table
  /\ empty sample_table = false
  /\ df (run simple_imputer canned_library repr_plain
           [ClickLoad sample_env (cps "gaps.csv") true; ClickNext] (sample_run [Start]))
     = Some sample_table
  /\ move (run simple_imputer canned_library repr_plain
             [ClickLoad sample_env (cps "gaps.csv") true; ClickNext] (sample_run [Start]))
     = (if total_missing sample_table =? 0 then 3%Z else 2%Z).
Proof.
  split; [by vm_compute|]. split; [by vm_compute|]. split; [by vm_compute|].
  exact (next_after_load simple_imputer canned_library repr_plain [Start] sample_env
           (cps "gaps.csv") true sample_table
           ltac:(by vm_compute) ltac:(discriminate) ltac:(reflexivity)
           ltac:(by vm_compute) ltac:(by vm_compute)).
Defined.

Lemma failed_strategy_changes_nothing_witness :
  is_ok (apply_strategy simple_imputer 0%float true hollow_viewer).2 = false
  /\ confirm_preprocessing simple_imputer 0%float true hollow_viewer = hollow_viewer.
Proof.
  split; [by vm_compute|].
  exact (failed_strategy_changes_nothing simple_imputer 0%float true hollow_viewer
           ltac:(by vm_compute)).
Defined.

Lemma cancelled_constant_counts_as_solved_witness :
  possible (ClickApply 0%float false) (sample_run (to_clean_step ++ [SelectOption 4])) = true
  /\ current_index (sample_run (to_clean_step ++ [SelectOption 4])) = 4
  /\ df (step simple_imputer canned_library repr_plain
           (sample_run (to_clean_step ++ [SelectOption 4])) (ClickApply 0%float false))
     = df (sample_run (to_clean_step ++ [SelectOption 4]))
  /\ nan_solved (step simple_imputer canned_library repr_plain
                   (sample_run (to_clean_step ++ [SelectOption 4]))
                   (ClickApply 0%float false)) = true
  /\ move (step simple_imputer canned_library repr_plain
             (step simple_imputer canned_library repr_plain
                (sample_run (to_clean_step ++ [SelectOption 4]))
                (ClickApply 0%float false))
             ClickNext) = 3%Z.
Proof.
  split; [by vm_compute|]. split; [by vm_compute|].
  exact (cancelled_constant_counts_as_solved simple_imputer canned_library repr_plain
           (to_clean_step ++ [SelectOption 4]) 0%float
           ltac:(by vm_compute) ltac:(by vm_compute)).
Defined.

Lemma one_strategy_per_load_witness :
  confirms simple_imputer (ClickApply 0%float true)
           (sample_run (to_clean_step ++ [SelectOption 2])) = true
  /\ confirmed simple_imputer canned_library repr_plain
       [ClickNext; ClickBack; SelectOption 1; ClickApply 0%float true]
       (step simple_imputer canned_library repr_plain
          (sample_run (to_clean_step ++ [SelectOption 2])) (ClickApply 0%float true))
     = false.
Proof.
  split; [by vm_compute|].
  exact (one_strategy_per_load simple_imputer canned_library repr_plain
           (sample_run (to_clean_step ++ [SelectOption 2])) (ClickApply 0%float true)
           [ClickNext; ClickBack; SelectOption 1; ClickApply 0%float true]
           ltac:(by vm_compute) ltac:(by vm_compute)).
Defined.

(** The table behind the Model step can be one without rows: a second file
    that holds only a header replaces the table of the viewer, the warning
    apart, and Next is still enabled from the first file. *)
Example model_step_with_empty_table :
  let v := run simple_imputer canned_library repr_plain
             [Start; ClickLoad disk (cps "full.csv") true;
              ClickChooseAnother disk (cps "header.csv") true; ClickNext] initial in
  move v = 3%Z /\ df v = Some header_only /\ empty header_only = true.
Proof. by vm_compute. Qed.

End Navigation.

(** ** ui/results_window.py, ui/model_window.py and the Load Model button *)

Module Windows.
Import Pandas ScikitLearn Persistence Features StrFacts.

(** The colour that the style sheet gives the output box. *)
Inductive colour := Gray | Red | Green.

(** What the output box shows. *)
Record answer := mkAnswer {
  answer_colour : colour;
  answer_text : str
}.

(** A value that a dictionary holds is [None]. *)
Definition is_none (a : artifact_value) : bool :=
  match a with
  | AGraph None => true
  | _ => false
  end.

(** The truth value of a value of the dictionary: empty strings and lists,
    zero and [None] are false. *)
Definition truthy (a : artifact_value) : bool :=
  match a with
  | AModel _ => true
  | AStr s => negb (bool_decide (s = []))
  | AFloat f => negb (f =? 0)%float
  | ANames l => negb (bool_decide (l = []))
  | AGraph g => match g with Some _ => true | None => false end
  end.

(** The window that [ModelWindow.__init__] builds: its two attributes, and
    what the description box, the graph group and the formula label show. *)
Record ModelWindow := mkWindow {
  mw_model : option artifact_value;
  mw_input_columns : list str;
  mw_description : str;
  mw_graph : option Figure;
  mw_formula_label : str
}.

(** The window that [ResultWindow.__init__] builds when [display_results]
    goes through. *)
Record ResultWindow := mkResults {
  rw_input_columns : list str;
  rw_output_column : list str;
  rw_model : LinearRegression;
  rw_formula : str;
  rw_mse : float;
  rw_r_squared : float;
  rw_graph : option Figure;
  rw_formula_label : str
}.

(** [plot_regression_graph]: the scatter plot needs as many predictions as
    true values. *)
Definition plot_regression_graph (y_test : list value) (predictions : list float)
  : result Figure :=
  if length y_test =? length predictions then Ok (mkFigure y_test predictions)
  else Raise (Exn ValueError (cps "x and y must be the same size")).

Section Dialogs.
Variable lib : Library.
Variable repr_str : str -> str.

(** [float(s)]: the number that a text denotes, [None] when [float] raises
    [ValueError]. *)
Variable py_float : str -> option float.

(** [str(a)] for the values that are not strings. *)
Variable py_str : artifact_value -> str.

(** What Qt and matplotlib raise: [setText] on a value that is no string,
    [FigureCanvas] on a value that is no figure, and a call of [predict] on a
    value that is no model. *)
Variable set_text_error : artifact_value -> exn.
Variable canvas_error : artifact_value -> exn.
Variable predict_error : artifact_value -> exn.

(** *** [handle_prediction], the same in both windows *)

(** [[float(value.strip()) for value in input_values]] *)
Fixpoint floats_of (input_values : list str) : option (list float) :=
  match input_values with
  | [] => Some []
  | value :: rest =>
      match py_float (strip value) with
      | Some f => match floats_of rest with
                  | Some fs => Some (f :: fs)
                  | None => None
                  end
      | None => None
      end
  end.

(** [pd.DataFrame([input_values], columns=self.input_columns)]: one row. *)
Definition one_row (input_columns : list str) (input_values : list float) : list Series :=
  map (fun nx => float_series nx.1 [nx.2]) (combine input_columns input_values).

Definition count_error (n : nat) : answer :=
  mkAnswer Red (cps "Error: You must enter exactly " ++ str_of_Z (Z.of_nat n)
                ++ cps " values separated by commas.").

Definition handle_prediction (model : option artifact_value) (input_columns : list str)
           (input_text : str) : answer :=
  let input_values := split 44 input_text in
  if negb (length input_values =? length input_columns) then
    count_error (length input_columns)
  else
    match floats_of input_values with
    | None => mkAnswer Red (cps "Error: Please enter only numeric values.")
    | Some xs =>
        let input_df := one_row input_columns xs in
        match model with
        | None => mkAnswer Red (cps "Error: The model is not available.")
        | Some a =>
            if is_none a then mkAnswer Red (cps "Error: The model is not available.")
            else
              match a with
              | AModel m =>
                  match predict lib m input_df with
                  | Ok (predicted_value :: _) => mkAnswer Green (format_2f predicted_value)
                  | Ok [] =>
                      mkAnswer Red (cps "Error: index 0 is out of bounds for axis 0 with size 0")
                  | Raise e => mkAnswer Red (cps "Error: " ++ exn_msg e)
                  end
              | _ => mkAnswer Red (cps "Error: " ++ exn_msg (predict_error a))
              end
        end
    end.

(** *** [ModelWindow] *)

Definition shown_text (a : artifact_value) : str :=
  match a with
  | AStr s => s
  | _ => py_str a
  end.

Definition model_window (model_data : gmap string artifact_value)
           (input_columns : list str) : result ModelWindow :=
  description ← match model_data !! "description" with
                | None => Ok (cps "No description available.")
                | Some (AStr s) => Ok s
                | Some a => Raise (set_text_error a)
                end;
  graph ← match model_data !! "graph" with
          | None => Ok None
          | Some a =>
              if truthy a then
                match a with
                | AGraph (Some figure) => Ok (Some figure)
                | _ => Raise (canvas_error a)
                end
              else Ok None
          end;
  Ok {| mw_model := model_data !! "model";
        mw_input_columns := input_columns;
        mw_description := description;
        mw_graph := graph;
        mw_formula_label :=
          cps "Formula: " ++ match model_data !! "formula" with
                             | Some a => shown_text a
                             | None => cps "N/A"
                             end |}.

(** [DataViewer.open_model_dialog]: [file_path] is what the file dialog
    returns (empty when cancelled). [None] when no window is built, the
    window when its constructor goes through, and the exception that the
    error box reports otherwise. *)
Definition open_model_dialog (file_path : str) (fs : FileSystem) (v : Viewer)
  : option (result ModelWindow) :=
  match file_path with
  | [] => None
  | _ =>
      match load_model file_path fs with
      | None => None
      | Some model_data =>
          if bool_decide (model_data = ∅) then None
          else Some (model_window model_data (input_columns v))
      end
  end.

(** *** [ResultWindow] *)

(** [ResultWindow(data, input_columns, output_column)]: the constructor ends
    in [display_results]; [data] is the caller's table. *)
Definition result_window (generator : N) (data : DataFrame)
           (input_columns output_column : list str) : DataFrame * result ResultWindow :=
  match linear_regression lib repr_str generator data input_columns (ColList output_column) with
  | (data', Raise e) => (data', Raise e)
  | (data', Ok out) =>
      let label := formula out ++ [10%N] ++ cps "MSE: " ++ format_2f (mse out)
                   ++ [10%N] ++ cps "R^2: " ++ format_2f (r2 out) in
      let window graph :=
        mkResults input_columns output_column (model out) (formula out) (mse out)
                  (r2 out) graph label in
      if length input_columns =? 1 then
        match plot_regression_graph (y_test out) (predictions out) with
        | Ok figure => (data', Ok (window (Some figure)))
        | Raise e => (data', Raise e)
        end
      else (data', Ok (window None))
  end.

(** [ResultWindow.save_model]: [description] is the text of the box,
    [file_path] what the file dialog of [save_model_dialog] returns. *)
Definition result_window_save (w : ResultWindow) (description file_path : str)
           (fs : FileSystem) : FileSystem * option dialog :=
  match file_path with
  | [] => (fs, None)
  | _ =>
      let model_saver :=
        mkSaver (rw_model w) (rw_formula w) (rw_r_squared w) (rw_mse w)
                (rw_input_columns w) (rw_output_column w) description (rw_graph w) in
      let '(fs', box) := save_model model_saver file_path fs in
      (fs', Some box)
  end.

Definition result_window_predict (w : ResultWindow) (input_text : str) : answer :=
  handle_prediction (Some (AModel (rw_model w))) (rw_input_columns w) input_text.

(** *** The count of the values *)

Lemma split_nonempty (sep : N) (s : str) : split sep s <> [].
Proof. intros H. pose proof (split_length sep s) as Hl. by rewrite H in Hl. Qed.

(** X23. A prediction needs one value for every input column: when the text
    of the input box does not hold exactly one comma less than there are
    input columns, the output box shows the count error in red, whatever the
    model and the values. A window without input columns answers every text
    so, the empty text too. *)
Theorem prediction_needs_every_value (model : option artifact_value)
        (input_columns : list str) (input_text : str) :
  (S (length (List.filter (fun x => (x =? 44)%N) input_text)) <> length input_columns ->
   handle_prediction model input_columns input_text = count_error (length input_columns))
  /\ handle_prediction model [] input_text
     = mkAnswer Red (cps "Error: You must enter exactly 0 values separated by commas.").
Proof.
  unfold handle_prediction. rewrite !split_length. split.
  - intros Hne. by rewrite (proj2 (Nat.eqb_neq _ _) Hne).
  - done.
Qed.

(** *** The selection of the wizard *)

Lemma drive_through_input_columns v :
  input_columns (drive_through v).1 = input_columns v.
Proof.
  unfold drive_through, steps_guide. cbn -[cps Z.eqb].
  split_ifs; cbn -[cps]; done.
Qed.

Lemma display_input_columns v :
  input_columns (display_data_in_table v) = input_columns v.
Proof. unfold display_data_in_table. cbn -[Z.eqb]. by destruct (move v =? 1)%Z. Qed.

Lemma detect_input_columns v :
  input_columns (detect_missing_values v) = input_columns v.
Proof.
  unfold detect_missing_values, setCurrentIndex, preprocessing_button.
  split_ifs; done.
Qed.

Lemma load_data_input_columns env file_path v :
  input_columns (load_data env file_path v) = input_columns v.
Proof.
  unfold load_data. destruct (ImportFiles.import_data env file_path); [|done].
  destruct (negb (empty a)); [|done].
  by rewrite detect_input_columns, display_input_columns.
Qed.

Lemma open_file_dialog_input_columns env file_path yes v :
  input_columns (open_file_dialog env file_path yes v) = input_columns v.
Proof.
  unfold open_file_dialog. destruct file_path as [|x p]; [done|].
  destruct (bool_decide _); [destruct yes; [|done]|];
    by rewrite load_data_input_columns.
Qed.

Section Selection.
Variable fit_transform : strategy -> list (list float) -> result ndarray.

Lemma confirm_preprocessing_input_columns value ok v :
  input_columns (confirm_preprocessing fit_transform value ok v) = input_columns v.
Proof.
  unfold confirm_preprocessing. destruct (String.eqb _ ""); [done|].
  destruct (apply_strategy_cases fit_transform value ok v) as [Heq|(_ & x & Heq)];
    destruct (apply_strategy fit_transform value ok v) as [v1 r]; simpl in Heq; subst v1;
    destruct r as [[]|e]; rewrite ?display_input_columns; try done; cbn.
  all: by rewrite display_input_columns.
Qed.

(** An event other than a click on Confirm Selection keeps the selection. *)
Lemma step_input_columns v e :
  (forall f t, e <> ConfirmSelection f t) ->
  input_columns (step fit_transform lib repr_str v e) = input_columns v.
Proof.
  intros He. unfold step. destruct (possible e v); [|done].
  destruct e as [|env p yes|env p yes| | |i|value ok|f t|g]; cbn [handle].
  - unfold delete_welcome. by rewrite drive_through_input_columns.
  - apply open_file_dialog_input_columns.
  - apply open_file_dialog_input_columns.
  - unfold next. destruct (move v <? 3)%Z; [|done].
    rewrite drive_through_input_columns. by destruct (empty_values v).
  - unfold back. destruct (1 <? move v)%Z; [|done].
    rewrite drive_through_input_columns. by destruct (empty_values v).
  - unfold setCurrentIndex, preprocessing_button. split_ifs; done.
  - apply confirm_preprocessing_input_columns.
  - by destruct (He f t).
  - unfold show_results. by destruct (df v).
Qed.

(** The event is a click on Confirm Selection. *)
Definition selects (e : Event) : bool :=
  match e with
  | ConfirmSelection _ _ => true
  | _ => false
  end.

Lemma run_input_columns es : forall v,
  forallb (fun e => negb (selects e)) es = true ->
  input_columns (run fit_transform lib repr_str es v) = input_columns v.
Proof.
  induction es as [|e es IH]; intros v Hes; simpl; [done|].
  simpl in Hes. apply andb_prop in Hes as [He Hes].
  rewrite IH by done. apply step_input_columns.
  intros f t ->. done.
Qed.

Lemma model_window_columns model_data cols w :
  model_window model_data cols = Ok w -> mw_input_columns w = cols.
Proof.
  unfold model_window.
  destruct (model_data !! "description") as [[m|s|f|l|g]|]; cbn [mbind result_bind];
    try done;
    (destruct (model_data !! "graph") as [[m'|s'|f'|l'|[fig|]]|];
     cbn [mbind result_bind truthy]; try done;
     repeat match goal with
            | |- context [if ?b then _ else _] => destruct b
            end;
     cbn [mbind result_bind]; try done; by intros [= <-]).
Qed.

(** X24. The Load Model button gives the new window the input columns that
    the wizard has selected, not those that the file holds. As long as no
    selection has been confirmed in the session the list is empty, and the
    window that opens answers every text of its input box with the count
    error: the loaded model cannot predict. *)
Theorem loaded_model_without_selection (es : list Event) (file_path : str)
        (fs : FileSystem) (w : ModelWindow) (input_text : str) :
  forallb (fun e => negb (selects e)) es = true ->
  open_model_dialog file_path fs (run fit_transform lib repr_str es initial) = Some (Ok w) ->
  mw_input_columns w = []
  /\ handle_prediction (mw_model w) (mw_input_columns w) input_text
     = mkAnswer Red (cps "Error: You must enter exactly 0 values separated by commas.").
Proof.
  intros Hes Hopen.
  assert (mw_input_columns w = []) as Hcols.
  { revert Hopen. unfold open_model_dialog. rewrite (run_input_columns es initial Hes).
    destruct file_path as [|x p]; [done|].
    destruct (load_model (x :: p) fs) as [model_data|]; [|done].
    destruct (bool_decide (model_data = ∅)); [done|].
    intros [= Hw]. by apply model_window_columns in Hw. }
  split; [done|]. rewrite Hcols.
  unfold handle_prediction. by rewrite split_length.
Qed.

End Selection.

(** *** From the result window to the file and back *)

(** X26. Saving from the result window and loading with the Load Model
    button: the window that opens holds the model that was saved and shows
    its formula, its graph when there is one, and its description (stripped,
    or the default text); its input columns are those of the wizard, and when
    they are the ones of the saved model it answers every input text as the
    result window did. *)
Theorem saved_model_window (w : ResultWindow) (description file_path : str)
        (fs : FileSystem) (v : Viewer) :
  file_path <> [] ->
  writable fs file_path = true ->
  exists mw,
    open_model_dialog file_path (result_window_save w description file_path fs).1 v
    = Some (Ok mw)
    /\ mw_model mw = Some (AModel (rw_model w))
    /\ mw_input_columns mw = input_columns v
    /\ mw_graph mw = rw_graph w
    /\ mw_formula_label mw = cps "Formula: " ++ rw_formula w
    /\ mw_description mw = match strip description with
                           | [] => cps "No description provided."
                           | d => d
                           end
    /\ (input_columns v = rw_input_columns w ->
        forall input_text,
          handle_prediction (mw_model mw) (mw_input_columns mw) input_text
          = result_window_predict w input_text).
Proof.
  intros Hne Hw.
  set (saver := mkSaver (rw_model w) (rw_formula w) (rw_r_squared w) (rw_mse w)
                        (rw_input_columns w) (rw_output_column w) description (rw_graph w)).
  assert ((result_window_save w description file_path fs).1
          = mkFS (<[file_path := Pickled (model_data_of saver)]> (files fs)) (writable fs))
    as ->.
  { unfold result_window_save. destruct file_path as [|x p]; [done|].
    fold saver. unfold save_model, joblib_dump. by rewrite Hw. }
  unfold open_model_dialog. destruct file_path as [|x p]; [done|].
  unfold load_model, joblib_load. cbn [files]. rewrite lookup_insert_eq.
  assert (model_data_of saver <> ∅) as Hnonempty.
  { intros H. apply (f_equal (fun m => m !! "model")) in H.
    unfold model_data_of in H. rewrite lookup_insert_eq, lookup_empty in H. done. }
  rewrite bool_decide_eq_false_2 by done.
  assert (model_data_of saver !! "description"
          = Some (AStr (match strip description with
                        | [] => cps "No description provided."
                        | d => d
                        end))) as Hdesc.
  { unfold model_data_of. do 6 (rewrite lookup_insert_ne by done).
    by rewrite lookup_insert_eq. }
  assert (model_data_of saver !! "graph" = Some (AGraph (rw_graph w))) as Hgraph.
  { unfold model_data_of. do 7 (rewrite lookup_insert_ne by done).
    by rewrite lookup_insert_eq. }
  assert (model_data_of saver !! "formula" = Some (AStr (rw_formula w))) as Hformula.
  { unfold model_data_of. rewrite lookup_insert_ne by done. by rewrite lookup_insert_eq. }
  assert (model_data_of saver !! "model" = Some (AModel (rw_model w))) as Hmodel.
  { unfold model_data_of. by rewrite lookup_insert_eq. }
  unfold model_window. rewrite Hdesc, Hgraph, Hformula, Hmodel. cbn [mbind result_bind].
  destruct (rw_graph w) as [figure|] eqn:Hg; cbn [truthy mbind result_bind];
    (eexists; split; [reflexivity|]; cbn [mw_model mw_input_columns mw_graph
                                          mw_formula_label mw_description shown_text];
     repeat split; try done;
     intros Hcols input_text; unfold result_window_predict; by rewrite Hcols).
Qed.

End Dialogs.

(** *** Sample windows *)

(** A stand-in for scikit-learn whose model predicts twice its first input. *)
Definition doubling_library : Library :=
  {| repr_float := format_2f;
     train_test_split := fun _ _ x y => Ok (x, x, y, y);
     fit := fun _ _ => Ok (mkModel [2%float] 0%float);
     predict := fun m x =>
       Ok (match x with
           | c :: _ =>
               map (fun cell => match to_float cell with
                                | Ok f => (2 * f)%float
                                | Raise _ => nan
                                end) (s_values c)
           | [] => []
           end);
     mean_squared_error := fun _ _ => Ok 0%float;
     r2_score := fun _ _ => Ok 1%float |}.

(** [float] on the texts "4" and "2.5", enough for the samples. *)
Definition sample_float (s : str) : option float :=
  if bool_decide (s = cps "4") then Some 4%float
  else if bool_decide (s = cps "2.5") then Some 2.5%float
  else None.

Definition no_text (a : artifact_value) : str := [].
Definition some_error (a : artifact_value) : exn := Exn TypeError [].

Definition sample_result : ResultWindow :=
  {| rw_input_columns := [cps "x"];
     rw_output_column := [cps "y"];
     rw_model := mkModel [2%float] 0%float;
     rw_formula := cps "['y'] = 0.00 + (2.00) * x";
     rw_mse := 0%float;
     rw_r_squared := 1%float;
     rw_graph := Some (mkFigure [VFloat 2%float] [2%float]);
     rw_formula_label := [] |}.

Example result_window_sample :
  match (result_window doubling_library repr_plain 0 sample_table [cps "x"] [cps "y"]).2 with
  | Ok w =>
      rw_formula w = cps "['y'] = 0.00 + (2.00) * x"
      /\ is_Some (rw_graph w)
      /\ result_window_predict doubling_library sample_float some_error w (cps " 2.5 ")
         = mkAnswer Green (cps "5.00")
      /\ result_window_predict doubling_library sample_float some_error w (cps "4,4")
         = mkAnswer Red (cps "Error: You must enter exactly 1 values separated by commas.")
      /\ result_window_predict doubling_library sample_float some_error w (cps "four")
         = mkAnswer Red (cps "Error: Please enter only numeric values.")
  | Raise _ => False
  end.
Proof. vm_compute. repeat split; eauto. Qed.

Lemma loaded_model_without_selection_witness :
  forallb (fun e => negb (selects e)) [Start] = true
  /\ exists w,
      open_model_dialog no_text some_error some_error (cps "model.joblib")
        (result_window_save sample_result (cps "demo") (cps "model.joblib") empty_disk).1
        (run simple_imputer canned_library repr_plain [Start] initial)
      = Some (Ok w)
      /\ mw_input_columns w = []
      /\ handle_prediction doubling_library sample_float some_error
           (mw_model w) (mw_input_columns w) (cps "4")
         = mkAnswer Red (cps "Error: You must enter exactly 0 values separated by commas.").
Proof.
  split; [reflexivity|].
  eexists. split; [by vm_compute|].
  eapply (loaded_model_without_selection doubling_library repr_plain sample_float no_text
            some_error some_error some_error simple_imputer [Start] (cps "model.joblib")
            (result_window_save sample_result (cps "demo") (cps "model.joblib") empty_disk).1).
  - reflexivity.
  - by vm_compute.
Defined.

Lemma saved_model_window_witness :
  exists mw,
    open_model_dialog no_text some_error some_error (cps "model.joblib")
      (result_window_save sample_result (cps "  ") (cps "model.joblib") empty_disk).1
      (set_input_columns [cps "x"] initial)
    = Some (Ok mw)
    /\ mw_model mw = Some (AModel (rw_model sample_result))
    /\ mw_input_columns mw = input_columns (set_input_columns [cps "x"] initial)
    /\ mw_graph mw = rw_graph sample_result
    /\ mw_formula_label mw = cps "Formula: " ++ rw_formula sample_result
    /\ mw_description mw = match strip (cps "  ") with
                           | [] => cps "No description provided."
                           | d => d
                           end
    /\ (input_columns (set_input_columns [cps "x"] initial) = rw_input_columns sample_result ->
        forall input_text,
          handle_prediction doubling_library sample_float some_error
            (mw_model mw) (mw_input_columns mw) input_text
          = result_window_predict doubling_library sample_float some_error
              sample_result input_text).
Proof.
  exact (saved_model_window doubling_library sample_float no_text some_error some_error
           some_error sample_result (cps "  ") (cps "model.joblib") empty_disk
           (set_input_columns [cps "x"] initial) ltac:(discriminate) eq_refl).
Defined.

End Windows.
